(** * Clustering_and_fittings: a shallow embedding of [cluster_code.py]

    The script is straight-line glue around pandas, scikit-learn, scipy and
    statsmodels.  The embedding follows it stage by stage:

    - [Py]           exceptions and the error monad;
    - [Pandas]       the data frame operations the script calls, with the
                     semantics pandas has for the arguments used here;
    - [Loader]       [read_data]: cleaning, melt, pivot_table, reset_index;
    - [Sklearn]      the checks and the labelling of [KMeans.fit];
    - [ClusterTools] the scaler of [cluster_tools];
    - [Runtime]      the object store of the interpreter, [visualize] and
                     [cluster_data];
    - [Fit]          [linear_function] and [fit_model_with_errors];
    - [Reference]    executable instances of the third-party routines;
    - [Script]       the statements between the functions, and what a pass of
                     the loop of [visualize] draws;
    - [Samples]      small inputs.

    Numbers are IEEE-754 binary64 values ([PrimFloat.float]), as numpy and
    pandas hold them.  The properties follow the definitions. *)

From Stdlib Require Import PrimFloat ZArith Uint63 Ascii.
From Stdlib Require OrderedTypeEx Floats.
From stdpp Require Import gmap strings list sorting.

Local Open Scope string_scope.
Local Open Scope list_scope.
Local Open Scope nat_scope.

(** ** Python exceptions and the error monad *)

Module Py.

(** An exception is identified by the name of its class; the argument is the
    offending label or literal. *)
Record exn := Exn { exn_class : string; exn_arg : string }.

Definition KeyError (a : string) : exn := Exn "KeyError" a.
Definition ValueError (a : string) : exn := Exn "ValueError" a.
Definition TypeError (a : string) : exn := Exn "TypeError" a.

Inductive result (A : Type) : Type :=
  | Ok (a : A)
  | Raise (e : exn).
Global Arguments Ok {A} a.
Global Arguments Raise {A} e.

Global Instance result_ret : MRet result := λ A a, Ok a.
Global Instance result_bind : MBind result := λ A B f r,
  match r with
  | Ok a => f a
  | Raise e => Raise e
  end.
Global Instance result_fmap : FMap result := λ A B f r,
  match r with
  | Ok a => Ok (f a)
  | Raise e => Raise e
  end.

(** [for x in l: f x], stopping at the first exception. *)
Fixpoint traverse {A B : Type} (f : A → result B) (l : list A) : result (list B) :=
  match l with
  | [] => Ok []
  | a :: l' => b ← f a; bs ← traverse f l'; Ok (b :: bs)
  end.

Definition raised {A : Type} (r : result A) (cls : string) : Prop :=
  ∃ a, r = Raise (Exn cls a).

End Py.
Import Py.

(** ** The pandas operations used by the script *)

Module Pandas.

(** A cell of a frame.  [Num] holds a float64, whose NaN is the missing
    marker of numeric columns; [NA] is [pd.NA]. *)
Inductive cell : Type :=
  | NA
  | Str (s : string)
  | Num (x : float)
  | Int (n : Z).

Inductive dtype : Type := object | float64 | int64.

Global Instance dtype_eq_dec : EqDecision dtype.
Proof. solve_decision. Defined.

Record Series := mkSeries { dt : dtype; vals : list cell }.

(** Columns in their order, each with its label. *)
Definition DataFrame : Type := list (string * Series).

Definition nan : float := PrimFloat.nan.

Definition isna (c : cell) : bool :=
  match c with
  | NA => true
  | Num x => PrimFloat.is_nan x
  | _ => false
  end.

Definition notna (c : cell) : bool := negb (isna c).

(** The binary64 value nearest to an integer, ties to even, as Python and
    numpy convert an integer to a float. *)
Definition float_of_Z (n : Z) : float :=
  FloatOps.SF2Prim (SpecFloat.binary_normalize FloatOps.prec FloatOps.emax n 0%Z false).

Definition float_of_nat (n : nat) : float := float_of_Z (Z.of_nat n).

(** [==] between two objects, with missing values equal to one another, as
    the hash tables behind [duplicated] and [unique] take them. *)
Definition cell_eqb (a b : cell) : bool :=
  if isna a then isna b
  else if isna b then false
  else match a, b with
       | Str s, Str t => bool_decide (s = t)
       | Num x, Num y => PrimFloat.eqb x y
       | Int n, Int m => bool_decide (n = m)
       | Int n, Num y => PrimFloat.eqb (float_of_Z n) y
       | Num x, Int m => PrimFloat.eqb x (float_of_Z m)
       | _, _ => false
       end.

Fixpoint row_eqb (r1 r2 : list cell) : bool :=
  match r1, r2 with
  | [], [] => true
  | a :: r1', b :: r2' => cell_eqb a b && row_eqb r1' r2'
  | _, _ => false
  end.

Definition labels (df : DataFrame) : list string := df.*1.

Fixpoint lookup_col (name : string) (df : DataFrame) : option Series :=
  match df with
  | [] => None
  | (n, s) :: df' => if bool_decide (n = name) then Some s else lookup_col name df'
  end.

(** [df[name]] *)
Definition getitem (name : string) (df : DataFrame) : result Series :=
  match lookup_col name df with
  | Some s => Ok s
  | None => Raise (KeyError name)
  end.

(** [df[[n1, ..., nk]]] *)
Definition getitems (names : list string) (df : DataFrame) : result DataFrame :=
  traverse (λ n, s ← getitem n df; Ok (n, s)) names.

Definition nrows (df : DataFrame) : nat :=
  match df with
  | [] => 0
  | (_, s) :: _ => length (vals s)
  end.

Definition row (df : DataFrame) (i : nat) : list cell :=
  map (λ p, nth i (vals p.2) NA) df.

Definition rows (df : DataFrame) : list (list cell) :=
  map (row df) (seq 0 (nrows df)).

Definition map_cells (f : cell → cell) (df : DataFrame) : DataFrame :=
  map (λ p, (p.1, mkSeries (dt p.2) (map f (vals p.2)))) df.

Definition map_columns (f : list cell → list cell) (df : DataFrame) : DataFrame :=
  map (λ p, (p.1, mkSeries (dt p.2) (f (vals p.2)))) df.

(** [df.replace(old, new)] for a scalar [old] that is a string. *)
Definition replace (old : string) (new : cell) (df : DataFrame) : DataFrame :=
  map_cells (λ c, match c with
                  | Str s => if bool_decide (s = old) then new else c
                  | _ => c
                  end) df.

(** The pad scan behind [fillna(method='ffill')]: it walks down a column
    carrying the last valid value, which starts as the first cell. *)
Fixpoint pad (val : cell) (l : list cell) : list cell :=
  match l with
  | [] => []
  | c :: l' => if isna c then val :: pad val l' else c :: pad c l'
  end.

Definition ffill (l : list cell) : list cell :=
  match l with
  | [] => []
  | c0 :: _ => pad c0 l
  end.

(** [fillna(method='bfill')] is the pad scan over the flipped column. *)
Definition bfill (l : list cell) : list cell := reverse (ffill (reverse l)).

Definition fillna_ffill : DataFrame → DataFrame := map_columns ffill.
Definition fillna_bfill : DataFrame → DataFrame := map_columns bfill.

(** Boolean indexing, [s[mask]]. *)
Fixpoint select_mask {A : Type} (mask : list bool) (l : list A) : list A :=
  match mask, l with
  | b :: mask', a :: l' => if b then a :: select_mask mask' l' else select_mask mask' l'
  | _, _ => []
  end.

Definition filter_rows (mask : list bool) (df : DataFrame) : DataFrame :=
  map_columns (select_mask mask) df.

(** [~df.duplicated()]: a row is kept when no earlier row equals it. *)
Fixpoint first_occurrences (seen rest : list (list cell)) : list bool :=
  match rest with
  | [] => []
  | r :: rest' =>
      negb (existsb (row_eqb r) seen) :: first_occurrences (r :: seen) rest'
  end.

Definition drop_duplicates (df : DataFrame) : DataFrame :=
  filter_rows (first_occurrences [] (rows df)) df.

(** [df.drop(df.index[n:])]: the index labels are unique, so the rows from
    position [n] on are the ones dropped. *)
Definition drop_rows_from (n : nat) (df : DataFrame) : DataFrame :=
  map_columns (take n) df.

(** [df.drop(names, axis=1)] *)
Definition drop_columns (names : list string) (df : DataFrame) : result DataFrame :=
  match filter (λ n, n ∉ labels df) names with
  | [] => Ok (filter (λ p, p.1 ∉ names) df)
  | n :: _ => Raise (KeyError n)
  end.

(** [df[name] = s] for a label the frame may already have. *)
Fixpoint setitem (name : string) (s : Series) (df : DataFrame) : DataFrame :=
  match df with
  | [] => [(name, s)]
  | (n, t) :: df' =>
      if bool_decide (n = name) then (n, s) :: df' else (n, t) :: setitem name s df'
  end.

Definition setitems (cols : DataFrame) (df : DataFrame) : DataFrame :=
  foldl (λ acc p, setitem p.1 p.2 acc) df cols.

(** Python's [float(str)]: the built-in conversion is not part of the
    script, so it is a parameter of the model. *)
Class Builtins := { float_of_str : string → option float }.

(** [float(obj)], cell by cell, as [astype(float)] applies it. *)
Definition to_float `{Builtins} (c : cell) : result cell :=
  match c with
  | Str s => match float_of_str s with
             | Some x => Ok (Num x)
             | None => Raise (ValueError s)
             end
  | NA => Raise (TypeError "NAType")
  | Num x => Ok (Num x)
  | Int n => Ok (Num (float_of_Z n))
  end.

(** [df.astype(float)]: column after column, top to bottom. *)
Definition astype_float `{Builtins} (df : DataFrame) : result DataFrame :=
  traverse (λ p, cs ← traverse to_float (vals p.2); Ok (p.1, mkSeries float64 cs)) df.

Definition is_numeric (d : dtype) : bool :=
  match d with
  | object => false
  | _ => true
  end.

(** The dtype that holds the cells of several columns stacked together
    (object when there is no column). *)
Definition common_dtype (ds : list dtype) : dtype :=
  match ds with
  | [] => object
  | _ => if forallb (λ d, bool_decide (d = int64)) ds then int64
         else if forallb is_numeric ds then float64
         else object
  end.

Definition upcast (d : dtype) (c : cell) : cell :=
  match d, c with
  | float64, Int n => Num (float_of_Z n)
  | _, _ => c
  end.

(** [pd.melt(df, id_vars=ids, var_name=var, value_name=value)]: every column
    that is not an identifier is unpivoted, one block of rows per column.
    From pandas 2.0 on, [melt] refuses a frame that already has a column
    labelled [value] (before that it only warns); the refusal is not part of
    this definition, and the statements that conclude that [melt] returns
    assume that there is no such column. *)
Definition melt (ids : list string) (var value : string) (df : DataFrame)
  : result DataFrame :=
  id_cols ← getitems ids df;
  let value_cols := filter (λ p, p.1 ∉ ids) df in
  let n := nrows df in
  let k := length value_cols in
  let d := common_dtype (map (λ p, dt p.2) value_cols) in
  Ok (map (λ p, (p.1, mkSeries (dt p.2) (mjoin (replicate k (vals p.2))))) id_cols
      ++ [(var, mkSeries object (mjoin (map (λ p, replicate n (Str p.1)) value_cols)));
          (value, mkSeries d (map (upcast d) (mjoin (map (λ p, vals p.2) value_cols))))]).

(** *** pivot_table *)

Record long_row := LongRow {
  l_year : cell; l_country : cell; l_series : cell; l_value : cell }.

Definition long_rows (year country series value : list cell) : list long_row :=
  zip_with (λ f v, f v)
    (zip_with (λ f s, f s) (zip_with LongRow year country) series) value.

(** An observation is a row that survives the grouping: [groupby] drops rows
    with a missing key, ['first'] skips missing values and the all-missing
    groups are dropped afterwards.  Keys are text here: a key cell that holds
    a number is not represented, although pandas would group by it, so the
    statements about the pivoted table are made for tables whose name
    columns hold text ([text_names] below). *)
Definition obs : Type := string * string * string * cell.

Definition observed (r : long_row) : option obs :=
  match l_year r, l_country r, l_series r with
  | Str y, Str c, Str s =>
      if isna (l_value r) then None else Some (y, c, s, l_value r)
  | _, _, _ => None
  end.

Definition obs_key (o : obs) : string * string * string := o.1.
Definition obs_index (o : obs) : string * string := o.1.1.
Definition obs_series (o : obs) : string := o.1.2.
Definition obs_value (o : obs) : cell := o.2.

(** The ['first'] aggregate of the group of a key. *)
Fixpoint first_value (k : string * string * string) (os : list obs) : option cell :=
  match os with
  | [] => None
  | o :: os' => if bool_decide (obs_key o = k) then Some (obs_value o)
                else first_value k os'
  end.

Definition str_le (a b : string) : Prop := Is_true (String.leb a b).

Definition index_le (a b : string * string) : Prop :=
  Is_true (if String.eqb a.1 b.1 then String.leb a.2 b.2 else String.ltb a.1 b.1).

Global Instance str_le_dec a b : Decision (str_le a b).
Proof. unfold str_le. apply _. Defined.
Global Instance index_le_dec a b : Decision (index_le a b).
Proof. unfold index_le. apply _. Defined.

(** The result of [pivot_table]: a two-level row index and one column per
    name. *)
Record Pivot := mkPivot {
  p_names : string * string;
  p_index : list (string * string);
  p_columns : DataFrame }.

Definition pivot_cell (k : string * string * string) (os : list obs) : cell :=
  match first_value k os with
  | Some v => v
  | None => Num nan
  end.

(** The cells of the column of series [s], one per index entry. *)
Definition pivot_cells (os : list obs) (idx : list (string * string)) (s : string)
  : list cell :=
  map (λ i, pivot_cell (i, s) os) idx.

(** Unstacking keeps the dtype of the values, except that an integer column
    with holes becomes a float column. *)
Definition unstack_column (d : dtype) (cs : list cell) : Series :=
  match d with
  | int64 => if forallb notna cs then mkSeries int64 cs
             else mkSeries float64 (map (upcast float64) cs)
  | _ => mkSeries d cs
  end.

(** The observations of a long frame. *)
Definition observations (year country series value : Series) : list obs :=
  omap observed (long_rows (vals year) (vals country) (vals series) (vals value)).

(** [df.pivot_table(index=[i1, i2], columns=cols, values=value,
    aggfunc='first')] with the defaults [dropna=True], [sort=True]: group and
    take the first valid value, sort the index entries and the column names,
    unstack, and drop the columns that hold no value. *)
Definition pivot_table (i1 i2 cols value : string) (df : DataFrame) : result Pivot :=
  v ← getitem value df;
  a ← getitem i1 df;
  b ← getitem i2 df;
  c ← getitem cols df;
  let os := observations a b c v in
  let idx := merge_sort index_le (remove_dups (map obs_index os)) in
  let names := merge_sort str_le (remove_dups (map obs_series os)) in
  let kept := filter (λ s, Is_true (existsb notna (pivot_cells os idx s))) names in
  Ok (mkPivot (i1, i2) idx
        (map (λ s, (s, unstack_column (dt v) (pivot_cells os idx s))) kept)).

(** [reset_index()]: the index levels become the leading columns; a level
    whose name is already a column cannot be inserted. *)
Definition reset_index (p : Pivot) : result DataFrame :=
  if bool_decide ((p_names p).2 ∈ labels (p_columns p))
  then Raise (ValueError (p_names p).2)
  else if bool_decide ((p_names p).1 ∈ labels (p_columns p))
  then Raise (ValueError (p_names p).1)
  else Ok ((((p_names p).1, mkSeries object (map (λ i, Str i.1) (p_index p)))
           :: ((p_names p).2, mkSeries object (map (λ i, Str i.2) (p_index p)))
           :: p_columns p)).

(** *** rank, sort_values, head, select_dtypes *)

Definition as_float (c : cell) : float :=
  match c with
  | Num x => x
  | Int n => float_of_Z n
  | _ => nan
  end.

Definition is_number (c : cell) : bool :=
  match c with
  | Num _ | Int _ => true
  | _ => false
  end.

Definition is_text (c : cell) : bool :=
  match c with
  | Str _ => true
  | _ => false
  end.

Definition cell_ltb (a b : cell) : bool :=
  match a, b with
  | Str s, Str t => String.ltb s t
  | Str _, _ | _, Str _ => false
  | _, _ => PrimFloat.ltb (as_float a) (as_float b)
  end.

(** The average rank, largest value first: the number of larger values plus
    the middle of the run of equal ones. *)
Definition average_rank (valid : list cell) (c : cell) : float :=
  let larger := length (filter (λ v, Is_true (cell_ltb c v)) valid) in
  let equal := length (filter (λ v, Is_true (cell_eqb c v)) valid) in
  PrimFloat.add (float_of_nat larger)
    (PrimFloat.div (PrimFloat.add (float_of_nat equal) 1%float) 2%float).

(** [s.rank(ascending=False)]: missing values keep a missing rank; values
    that cannot be ordered against one another raise. *)
Definition rank_descending (s : Series) : result Series :=
  let valid := filter (λ c, Is_true (notna c)) (vals s) in
  if forallb is_number valid || forallb is_text valid
  then Ok (mkSeries float64
             (map (λ c, Num (if isna c then nan else average_rank valid c)) (vals s)))
  else Raise (TypeError "'<' not supported between instances of 'str' and 'float'").

(** Ascending order on the keys of a float64 column, missing keys last. *)
Definition rank_le (a b : cell * nat) : Prop :=
  Is_true (isna b.1 || (notna a.1 && PrimFloat.leb (as_float a.1) (as_float b.1))).

Global Instance rank_le_dec a b : Decision (rank_le a b).
Proof. unfold rank_le. apply _. Defined.

Definition argsort (keys : list cell) : list nat :=
  (merge_sort rank_le (zip keys (seq 0 (length keys)))).*2.

Definition take_rows (order : list nat) (df : DataFrame) : DataFrame :=
  map_columns (λ col, map (λ i, nth i col NA) order) df.

(** [df.sort_values(name)] on a float64 column; the order among equal keys
    is the one the merge leaves. *)
Definition sort_values (name : string) (df : DataFrame) : result DataFrame :=
  s ← getitem name df;
  Ok (take_rows (argsort (vals s)) df).

(** [df.head(n)] *)
Definition head_rows (n : nat) (df : DataFrame) : DataFrame := map_columns (take n) df.

(** [df.select_dtypes(include=np.number)] *)
Definition select_dtypes_number (df : DataFrame) : DataFrame :=
  filter (λ p, Is_true (is_numeric (dt p.2))) df.

(** [s == v] against a string scalar. *)
Definition eq_scalar (v : string) (c : cell) : bool :=
  match c with
  | Str s => bool_decide (s = v)
  | _ => false
  end.

(** The frame as the 2-D float array an estimator receives. *)
Definition to_matrix (df : DataFrame) : list (list float) :=
  map (map as_float) (rows df).

End Pandas.
Import Pandas.

(** ** read_data *)

Module Loader.

Definition year_columns : list string :=
  ["1980"; "1985"; "1990"; "1995"; "2000"; "2005"; "2010"; "2015"; "2020"].

(** What the loader takes as missing in the file: the [..] token or an
    empty cell. *)
Definition is_missing (c : cell) : bool := isna c || eq_scalar ".." c.

(** Lines 35-38: mark the sentinel as missing, then fill.  The cells are
    what is modelled; the dtype that pandas infers for a filled column (an
    object column without any value left may come out as float64) is not. *)
Definition fill_missing (df : DataFrame) : DataFrame :=
  fillna_bfill (fillna_ffill (replace ".." NA df)).

(** Lines 41-52: the cleaned wide-by-year table. *)
Definition clean `{Builtins} (df : DataFrame) : result DataFrame :=
  let wdi_data := fill_missing df in
  let wdi_data := drop_duplicates wdi_data in
  let wdi_data := drop_rows_from 1519 wdi_data in
  wdi_data ← drop_columns ["Country Code"; "Series Code"] wdi_data;
  years ← getitems year_columns wdi_data;
  years ← astype_float years;
  Ok (setitems years wdi_data).

(** Lines 56-70: melt, pivot, reset the index. *)
Definition reshape (wdi_data : DataFrame) : result DataFrame :=
  wdi_transposed ← melt ["Series Name"; "Country Name"] "Year" "Value" wdi_data;
  wdi_transposed ← pivot_table "Year" "Country Name" "Series Name" "Value" wdi_transposed;
  reset_index wdi_transposed.

(** [read_data(filename)], from the outcome of [pd.read_csv(filename)] on. *)
Definition read_data `{Builtins} (read_csv : result DataFrame)
  : result (DataFrame * DataFrame) :=
  wdi_data ← read_csv;
  wdi_data ← clean wdi_data;
  wdi_transposed ← reshape wdi_data;
  Ok (wdi_data, wdi_transposed).

(** *** Long tables, their keys and their validity *)

(** The long form of a frame with the columns of the melted table: all its
    rows, and the observations among them. *)
Definition long_table (long : DataFrame) : list long_row :=
  match lookup_col "Year" long, lookup_col "Country Name" long,
        lookup_col "Series Name" long, lookup_col "Value" long with
  | Some a, Some b, Some c, Some v => long_rows (vals a) (vals b) (vals c) (vals v)
  | _, _, _, _ => []
  end.

Definition long_observations (long : DataFrame) : list obs :=
  omap observed (long_table long).

(** The (year, country) pairs and the indicator names that occur in the rows
    of a long table, whether the row carries a value or not. *)
Definition row_index (r : long_row) : option (string * string) :=
  match l_year r, l_country r with
  | Str y, Str c => Some (y, c)
  | _, _ => None
  end.

Definition row_series (r : long_row) : option string :=
  match l_series r with
  | Str s => Some s
  | _ => None
  end.

Definition index_pairs (long : DataFrame) : list (string * string) :=
  omap row_index (long_table long).

Definition series_names (long : DataFrame) : list string :=
  omap row_series (long_table long).

(** A long table is valid when every row is an observation (text keys and a
    value that is not missing), no (year, country, indicator) key occurs
    twice, and the values are not integer-typed (after cleaning the year
    columns are float64). *)
Definition valid_long (long : DataFrame) : Prop :=
  Forall (λ r, is_Some (observed r)) (long_table long)
  ∧ NoDup (map obs_key (long_observations long))
  ∧ (∀ v, lookup_col "Value" long = Some v → dt v ≠ int64).

(** A cleaned wide-by-year table is valid when its two name columns hold
    text, with one row per (indicator, country) pair, its labels are
    distinct, and every other column (there is at least one) is a float64
    column without missing values; all columns have the same number of
    rows. *)
Definition valid_wide (wdi : DataFrame) : Prop :=
  ∃ (sd cd : dtype) (ss cs : list string),
    lookup_col "Series Name" wdi = Some (mkSeries sd (map Str ss))
    ∧ lookup_col "Country Name" wdi = Some (mkSeries cd (map Str cs))
    ∧ length cs = length ss
    ∧ nrows wdi = length ss
    ∧ NoDup (zip ss cs)
    ∧ NoDup (labels wdi)
    ∧ (∃ p, p ∈ wdi ∧ p.1 ∉ ["Series Name"; "Country Name"])
    ∧ ∀ p, p ∈ wdi → p.1 ∉ ["Series Name"; "Country Name"] →
        ∃ xs, p.2 = mkSeries float64 (map Num xs)
              ∧ length xs = length ss
              ∧ Forall (λ x, PrimFloat.is_nan x = false) xs.

(** The columns that [read_data] expects besides the year columns. *)
Definition code_columns : list string := ["Country Code"; "Series Code"].
Definition name_columns : list string := ["Series Name"; "Country Name"].

(** The two name columns of a table hold text in every row, as the names of
    indicators and countries read from the file do. *)
Definition text_names (wdi : DataFrame) : Prop :=
  Forall (λ p, p.1 ∈ name_columns → Forall (λ c, Is_true (is_text c)) (vals p.2)) wdi.

Global Instance text_names_dec wdi : Decision (text_names wdi).
Proof. unfold text_names. apply _. Defined.

(** All (index entry, name) pairs, name by name. *)
Definition grid (idx : list (string * string)) (names : list string)
  : list (string * string * string) :=
  mjoin (map (λ s, map (λ i, (i, s)) idx) names).

(** Reading the rows with the year and the indicator exchanged. *)
Definition swap_year_series (r : long_row) : long_row :=
  LongRow (l_series r) (l_country r) (l_year r) (l_value r).

(** The rows that one year column contributes to the long table. *)
Definition year_rows (ss cs : list string) (p : string * Series) : list long_row :=
  map (λ t, LongRow (Str p.1) (Str t.1.2) (Str t.1.1) (Num t.2))
      (zip (zip ss cs) (map as_float (vals p.2))).

End Loader.
Import Loader.

(** ** scikit-learn's KMeans, as far as [cluster_data] relies on it *)

Module Sklearn.

(** The optimiser behind [KMeans.fit] (seeding and the Lloyd iterations) is
    third-party code.  It is a parameter: a function of the generator it is
    given, the samples and the number of clusters, which returns the
    centroids and the generator it leaves behind.  [RandomState seed] is the
    generator that [np.random.RandomState(seed)] builds. *)
Class Estimator := {
  rng : Type;
  RandomState : Z → rng;
  kmeans_centers : rng → list (list float) → nat → list (list float) * rng }.

Definition InvalidParameterError (a : string) : exn := Exn "InvalidParameterError" a.

Definition all_finite (X : list (list float)) : bool :=
  forallb (forallb PrimFloat.is_finite) X.

Definition n_features (X : list (list float)) : nat :=
  match X with
  | [] => 0
  | x :: _ => length x
  end.

(** [check_array]: at least one sample and one feature, no NaN, no infinity. *)
Definition check_array (X : list (list float)) : result unit :=
  if bool_decide (length X = 0) then Raise (ValueError "0 sample(s)")
  else if bool_decide (n_features X = 0) then Raise (ValueError "0 feature(s)")
  else if all_finite X then Ok ()
  else Raise (ValueError "Input X contains NaN or infinity").

Definition sqdist (x c : list float) : float :=
  foldr (λ p acc, PrimFloat.add (PrimFloat.mul (PrimFloat.sub p.1 p.2) (PrimFloat.sub p.1 p.2)) acc)
        0%float (zip x c).

Fixpoint argmin_from (best : nat) (least : float) (j : nat) (ds : list float) : nat :=
  match ds with
  | [] => best
  | d :: ds' => if PrimFloat.ltb d least then argmin_from j d (S j) ds'
                else argmin_from best least (S j) ds'
  end.

(** Modelled from the spec: the labels come out of [KMeans], whose code is
    not among the sources.  Spec 4.4: "partition rows into k groups
    minimizing within-cluster sum of squared distances to centroids (Lloyd's
    algorithm or equivalent)"; the assignment step of that algorithm gives
    each row the index of its nearest centroid, the lowest one on a tie. *)
Definition nearest (centers : list (list float)) (x : list float) : nat :=
  match map (sqdist x) centers with
  | [] => 0
  | d :: ds => argmin_from 0 d 1 ds
  end.

Definition sample_eqb (x y : list float) : bool :=
  bool_decide (length x = length y) && forallb (λ p, PrimFloat.eqb p.1 p.2) (zip x y).

(** The samples without their repetitions, and how many there are. *)
Fixpoint distinct_samples (X : list (list float)) : list (list float) :=
  match X with
  | [] => []
  | x :: X' => if existsb (sample_eqb x) X' then distinct_samples X'
               else x :: distinct_samples X'
  end.

Definition n_distinct (X : list (list float)) : nat := length (distinct_samples X).

(** [check_random_state]: an integer seeds a generator of its own; [None]
    stands for numpy's global generator [g]. *)
Definition check_random_state `{Estimator} (random_state : option Z) (g : rng) : rng :=
  match random_state with
  | Some seed => RandomState seed
  | None => g
  end.

(** [KMeans(n_clusters=k, random_state=rs).fit(X).labels_], with the global
    generator threaded through.  The checks are the ones scikit-learn makes
    before it fits: the parameter constraint on [n_clusters], [check_array]
    on the samples, and [n_samples >= n_clusters]. *)
Definition KMeans_fit `{Estimator} (n_clusters : Z) (random_state : option Z)
    (X : list (list float)) (g : rng) : result (list nat) * rng :=
  if bool_decide (n_clusters < 1)%Z then (Raise (InvalidParameterError "n_clusters"), g)
  else match check_array X with
       | Raise e => (Raise e, g)
       | Ok _ =>
           if bool_decide (Z.of_nat (length X) < n_clusters)%Z
           then (Raise (ValueError "n_samples should be >= n_clusters"), g)
           else
             let '(centers, r) :=
               kmeans_centers (check_random_state random_state g) X (Z.to_nat n_clusters) in
             (Ok (map (nearest centers) X),
              match random_state with
              | Some _ => g
              | None => r
              end)
       end.

End Sklearn.
Import Sklearn.

(** ** cluster_tools *)

Module ClusterTools.

Definition fmin (a b : float) : float := if PrimFloat.ltb b a then b else a.
Definition fmax (a b : float) : float := if PrimFloat.ltb a b then b else a.

Definition column_min (xs : list float) : float :=
  match xs with
  | [] => nan
  | x :: xs' => foldl fmin x xs'
  end.

Definition column_max (xs : list float) : float :=
  match xs with
  | [] => nan
  | x :: xs' => foldl fmax x xs'
  end.

(** Modelled from the spec: [cluster_tools.scaler] is imported by the script
    but its module is not among the sources.  Spec 4.3: "returns a
    column-wise min-max normalized matrix plus the per-column min and max
    vectors used"; "columns with equal min and max must not divide by zero
    [...] map such columns to a constant (e.g., 0)". *)
Definition scale_column (s : Series) : Series * float * float :=
  let xs := map as_float (vals s) in
  let lo := column_min xs in
  let hi := column_max xs in
  (mkSeries float64
     (map (λ x, Num (if PrimFloat.eqb lo hi then 0%float
                     else PrimFloat.div (PrimFloat.sub x lo) (PrimFloat.sub hi lo))) xs),
   lo, hi).

Definition scaler (df : DataFrame) : DataFrame * list (string * float) * list (string * float) :=
  (map (λ p, (p.1, (scale_column p.2).1.1)) df,
   map (λ p, (p.1, (scale_column p.2).1.2)) df,
   map (λ p, (p.1, (scale_column p.2).2)) df).

End ClusterTools.
Import ClusterTools.

(** ** The interpreter state: frames are objects, names hold references *)

Module Runtime.

Definition ref : Type := positive.

(** What [sns.barplot] followed by [plt.show()] puts on screen. *)
Record BarPlot := mkBarPlot {
  bp_title : string;
  bp_x : string;
  bp_y : string;
  bp_order : list cell;
  bp_data : DataFrame }.

Section world.
Context `{Estimator}.

Record world := World {
  heap : gmap ref DataFrame;
  np_random : rng;
  figures : list BarPlot }.

Definition with_heap (h : gmap ref DataFrame) (w : world) : world :=
  World h (np_random w) (figures w).
Definition with_random (g : rng) (w : world) : world :=
  World (heap w) g (figures w).
Definition with_figure (p : BarPlot) (w : world) : world :=
  World (heap w) (np_random w) (figures w ++ [p]).

(** A statement runs in a world and leaves a world, also when it raises. *)
Definition M (A : Type) : Type := world → result A * world.

Definition ret {A : Type} (a : A) : M A := λ w, (Ok a, w).

Definition bind {A B : Type} (m : M A) (f : A → M B) : M B := λ w,
  match m w with
  | (Ok a, w') => f a w'
  | (Raise e, w') => (Raise e, w')
  end.

Definition lift {A : Type} (r : result A) : M A := λ w, (r, w).

(** The object a reference points to. *)
Definition deref (r : ref) : M DataFrame := λ w, (Ok (heap w !!! r), w).

(** A new object: [df.copy()], [df[mask]], [df.sort_values(..)], ... *)
Definition alloc (df : DataFrame) : M ref := λ w,
  let r := fresh (dom (heap w)) in
  (Ok r, with_heap (<[r := df]> (heap w)) w).

(** In-place update of the object behind [r]. *)
Definition store (r : ref) (df : DataFrame) : M unit := λ w,
  (Ok (), with_heap (<[r := df]> (heap w)) w).

Definition show (p : BarPlot) : M unit := λ w, (Ok (), with_figure p w).

Definition kmeans (n_clusters : Z) (random_state : option Z) (X : list (list float))
  : M (list nat) := λ w,
  let '(r, g) := KMeans_fit n_clusters random_state X (np_random w) in
  (r, with_random g w).

Global Instance M_ret : MRet M := @ret.
Global Instance M_bind : MBind M := λ A B f m, bind m f.

End world.

(** [indicator.split('(')[0]] *)
Fixpoint before_paren (s : string) : string :=
  match s with
  | EmptyString => EmptyString
  | String a s' => if bool_decide (a = "("%char) then EmptyString
                   else String a (before_paren s')
  end.

Section script.
Context `{Estimator}.

(** The body of the loop of [visualize] (lines 90-109). *)
Definition visualize_indicator (data_frame : ref) (indicator : string) : M unit :=
  df ← deref data_frame;
  year ← lift (getitem "Year" df);
  selected ← alloc (filter_rows (map (eq_scalar "2020") (vals year)) df);
  sel ← deref selected;
  plot_data ← alloc sel;
  pd ← deref plot_data;
  column ← lift (getitem indicator pd);
  rank ← lift (rank_descending column);
  pd ← deref plot_data;
  _ ← store plot_data (setitem "Rank" rank pd);
  pd ← deref plot_data;
  sorted ← lift (sort_values "Rank" pd);
  sorted ← alloc sorted;
  sd ← deref sorted;
  plot_data ← alloc (head_rows 10 sd);
  pd ← deref plot_data;
  ordered ← lift (sort_values "Rank" pd);
  ordered ← alloc ordered;
  od ← deref ordered;
  order ← lift (getitem "Country Name" od);
  pd ← deref plot_data;
  _ ← lift (getitem indicator pd);
  show (mkBarPlot ("Top 10 Countries: " +:+ before_paren indicator)
          indicator "Country Name" (vals order) pd).

(** [visualize(data_frame, indicators)] *)
Fixpoint visualize (data_frame : ref) (indicators : list string) : M unit :=
  match indicators with
  | [] => ret ()
  | indicator :: rest =>
      _ ← visualize_indicator data_frame indicator; visualize data_frame rest
  end.

(** [cluster_data(df, n_clusters)]; the default of [n_clusters] is 4. *)
Definition cluster_data (df : ref) (n_clusters : Z) : M (ref * DataFrame) :=
  d ← deref df;
  cluster_df ← alloc d;
  cd ← deref cluster_df;
  let normalized_data := (scaler (select_dtypes_number cd)).1.1 in
  cluster_labels ← kmeans n_clusters (Some 0%Z) (to_matrix normalized_data);
  cd ← deref cluster_df;
  _ ← store cluster_df
        (setitem "Cluster" (mkSeries int64 (map (λ l, Int (Z.of_nat l)) cluster_labels)) cd);
  ret (cluster_df, normalized_data).

Definition default_n_clusters : Z := 4.

Definition cluster_column (labels : list nat) : Series :=
  mkSeries int64 (map (λ l, Int (Z.of_nat l)) labels).

(** The matrix that [cluster_data] hands to [KMeans.fit] for a frame. *)
Definition clustered_matrix (frame : DataFrame) : list (list float) :=
  to_matrix (scaler (select_dtypes_number frame)).1.1.

(** [w'] keeps every object of [w] as it is. *)
Definition preserves (w w' : world) : Prop :=
  ∀ r df, heap w !! r = Some df → heap w' !! r = Some df.

(** [keeps w0 m P]: run from any world that still holds the objects of [w0]
    unchanged, [m] leaves them unchanged, and what it returns satisfies
    [P]. *)
Definition keeps (w0 : world) {A : Type} (m : M A) (P : A → Prop) : Prop :=
  ∀ w, preserves w0 w → preserves w0 (m w).2 ∧ ∀ a, (m w).1 = Ok a → P a.

(** The labels that a run of [cluster_data] attaches: the [Cluster] column
    of the frame it returns. *)
Definition attached_labels (run : result (ref * DataFrame) * world)
  : result (option Series) :=
  match run.1 with
  | Ok (r, _) => Ok (lookup_col "Cluster" (heap run.2 !!! r))
  | Raise e => Raise e
  end.

End script.

End Runtime.
Import Runtime.

(** ** Curve fitting *)

Module Fit.

Definition array : Type := list float.
Definition matrix : Type := list (list float).

(** A model function [func(x, *params)]: it maps the array of abscissae and
    the parameters to the array of ordinates. *)
Definition model : Type := array → list float → result array.

(** [linear_function(x, a, b)] (lines 248-249). *)
Definition linear_function : model := λ x params,
  match params with
  | [a; b] => Ok (map (λ xi, PrimFloat.add (PrimFloat.mul a xi) b) x)
  | _ => Raise (TypeError "linear_function() takes 3 positional arguments")
  end.

(** The optimisers are third-party code and stay parameters:
    [scipy.optimize.curve_fit], and from statsmodels [add_constant],
    [OLS(y, X).fit()], [predict] and [get_prediction(X).conf_int(alpha)]. *)
Class Optimizers := {
  curve_fit : model → array → array → option (list float) → result (list float * matrix);
  ols_results : Type;
  add_constant : array → matrix;
  OLS_fit : array → matrix → result ols_results;
  predict : ols_results → matrix → result array;
  conf_int : ols_results → matrix → float → result (list (float * float)) }.

(** The derivatives of the model function with respect to its parameters at
    one abscissa.  The helper of [errors.py] that computes them is not among
    the sources and the spec leaves the method open ("evaluated numerically
    or analytically at each x"), so the Jacobian is a parameter. *)
Class Jacobian := { jacobian : model → float → list float → list float }.

Definition dot (u v : list float) : float :=
  foldr (λ p acc, PrimFloat.add (PrimFloat.mul p.1 p.2) acc) 0%float (zip u v).

(** The row vector [J] times the matrix [S]. *)
Definition vecmat (J : list float) (S : matrix) : list float :=
  foldr (λ p acc, zip_with PrimFloat.add (map (PrimFloat.mul p.1) p.2) acc)
        (replicate (n_features S) 0%float) (zip J S).

(** [J * S * J^T] *)
Definition quadratic_form (J : list float) (S : matrix) : float := dot (vecmat J S) J.

(** Modelled from the spec: [errors.error_prop] is imported by the script but
    its module is not among the sources.  Spec 4.5: "compute the standard
    error of the prediction at each x as sqrt(J*Sigma*J^T) where Sigma is the
    covariance matrix". *)
Definition error_prop `{Jacobian} (x : array) (func : model) (popt : list float)
    (pcov : matrix) : array :=
  map (λ xi, PrimFloat.sqrt (quadratic_form (jacobian func xi popt) pcov)) x.

Record fit_result := mkFit {
  popt : list float;
  pcov : matrix;
  predictions_curve_fit : array;
  predictions_ols : array;
  lowerbound_curve_fit : array;
  upperbound_curve_fit : array;
  lowerbound_ols : array;
  upperbound_ols : array }.

(** [fit_model_with_errors(x, y, func, initial_guess, alpha)] (lines 198-245). *)
Definition fit_model_with_errors `{Optimizers} `{Jacobian}
    (x y : array) (func : model) (initial_guess : option (list float)) (alpha : float)
  : result fit_result :=
  '(popt, pcov) ← curve_fit func x y initial_guess;
  predictions_curve_fit ← func x popt;
  let X_ols := add_constant x in
  model_ols ← OLS_fit y X_ols;
  predictions_ols ← predict model_ols X_ols;
  let sigma_curve_fit := error_prop x func popt pcov in
  let lowerbound_curve_fit := zip_with PrimFloat.sub predictions_curve_fit sigma_curve_fit in
  let upperbound_curve_fit := zip_with PrimFloat.add predictions_curve_fit sigma_curve_fit in
  conf_int_ols ← conf_int model_ols X_ols alpha;
  Ok (mkFit popt pcov predictions_curve_fit predictions_ols
        lowerbound_curve_fit upperbound_curve_fit
        (conf_int_ols.*1) (conf_int_ols.*2)).

(** The default of [alpha], 0.05, as the nearest binary64 value. *)
Definition default_alpha : float := 0x1.999999999999ap-5%float.

End Fit.
Import Fit.

(** ** Reference instances of the parameters

    Small executable stand-ins for the third-party routines, so that the
    model can be run on concrete inputs. *)

Module Reference.

(** *** Decimal literals for [float(str)] *)

Definition digit (a : ascii) : option Z :=
  let n := (Z.of_nat (nat_of_ascii a) - 48)%Z in
  if bool_decide (0 ≤ n ≤ 9)%Z then Some n else None.

Fixpoint read_digits (s : string) (acc : Z) (n : nat) : Z * nat * string :=
  match s with
  | String a s' =>
      match digit a with
      | Some d => read_digits s' (10 * acc + d)%Z (S n)
      | None => (acc, n, s)
      end
  | EmptyString => (acc, n, s)
  end.

Definition unsigned_decimal (s : string) : option float :=
  let '(i, ni, rest) := read_digits s 0%Z 0 in
  match rest with
  | EmptyString => if bool_decide (ni = 0) then None else Some (float_of_Z i)
  | String a rest' =>
      if bool_decide (a = "."%char) then
        let '(m, nf, rest'') := read_digits rest' i 0 in
        match rest'' with
        | EmptyString =>
            if bool_decide (ni + nf = 0) then None
            else Some (PrimFloat.div (float_of_Z m) (float_of_Z (10 ^ Z.of_nat nf)))
        | _ => None
        end
      else None
  end.

Definition decimal_literal (s : string) : option float :=
  match s with
  | String a s' =>
      if bool_decide (a = "-"%char) then PrimFloat.opp <$> unsigned_decimal s'
      else unsigned_decimal s
  | EmptyString => None
  end.

Definition decimal_builtins : Builtins := {| float_of_str := decimal_literal |}.

(** *** A k-means optimiser: seeding from the generator, then Lloyd steps *)

Definition lcg (g : Z) : Z := ((1103515245 * g + 12345) mod 2147483648)%Z.

Definition vec_add (u v : list float) : list float := zip_with PrimFloat.add u v.

Definition centroid (X : list (list float)) (old : list float) : list float :=
  match X with
  | [] => old
  | x :: X' =>
      map (λ t, PrimFloat.div t (float_of_nat (length X))) (foldl vec_add x X')
  end.

Definition lloyd_step (X centers : list (list float)) : list (list float) :=
  imap (λ j c, centroid (filter (λ x, nearest centers x = j) X) c) centers.

Definition lloyd_centers (g : Z) (X : list (list float)) (k : nat)
  : list (list float) * Z :=
  let start := Z.to_nat (g mod Z.of_nat (length X)) in
  let seeds := take k (drop start X ++ take start X) in
  (Nat.iter 3 (lloyd_step X) seeds, lcg g).

Definition lloyd_estimator : Estimator :=
  {| rng := Z; RandomState := λ seed, lcg seed; kmeans_centers := lloyd_centers |}.

(** *** Least squares for a straight line *)

Definition fsum (l : list float) : float := foldr PrimFloat.add 0%float l.

Record line_fit := mkLine {
  slope : float; intercept : float; line_cov : list (list float) }.

Definition fit_line (x y : list float) : line_fit :=
  let n := float_of_nat (length x) in
  let sx := fsum x in
  let sy := fsum y in
  let sxx := fsum (zip_with PrimFloat.mul x x) in
  let sxy := fsum (zip_with PrimFloat.mul x y) in
  let den := PrimFloat.sub (PrimFloat.mul n sxx) (PrimFloat.mul sx sx) in
  let a := PrimFloat.div (PrimFloat.sub (PrimFloat.mul n sxy) (PrimFloat.mul sx sy)) den in
  let b := PrimFloat.div (PrimFloat.sub sy (PrimFloat.mul a sx)) n in
  let res := zip_with (λ xi yi, PrimFloat.sub yi (PrimFloat.add (PrimFloat.mul a xi) b)) x y in
  let s2 := PrimFloat.div (fsum (zip_with PrimFloat.mul res res)) (PrimFloat.sub n 2%float) in
  let u := PrimFloat.div s2 den in
  mkLine a b [[PrimFloat.mul u n; PrimFloat.opp (PrimFloat.mul u sx)];
              [PrimFloat.opp (PrimFloat.mul u sx); PrimFloat.mul u sxx]].

(** A band of half-width [se / sqrt alpha] around the fitted mean. *)
Definition line_band (f : line_fit) (alpha : float) (row : list float) : float * float :=
  let xi := nth 1 row 0%float in
  let m := PrimFloat.add (PrimFloat.mul (slope f) xi) (intercept f) in
  let h := PrimFloat.div (PrimFloat.sqrt (quadratic_form [xi; 1%float] (line_cov f)))
                         (PrimFloat.sqrt alpha) in
  (PrimFloat.sub m h, PrimFloat.add m h).

Definition line_optimizers : Optimizers :=
  {| curve_fit := λ _ x y _,
       let f := fit_line x y in Ok ([slope f; intercept f], line_cov f);
     ols_results := line_fit;
     add_constant := map (λ xi, [1%float; xi]);
     OLS_fit := λ y X, Ok (fit_line (map (λ r, nth 1 r 0%float) X) y);
     predict := λ f X,
       Ok (map (λ r, PrimFloat.add (PrimFloat.mul (slope f) (nth 1 r 0%float)) (intercept f)) X);
     conf_int := λ f X alpha, Ok (map (line_band f alpha) X) |}.

(** The derivatives of [a * x + b] with respect to [a] and [b]. *)
Definition line_jacobian : Jacobian := {| jacobian := λ _ xi _, [xi; 1%float] |}.

(** [curve_fit] scales the covariance by the residual variance only when
    there are more observations than parameters; otherwise it cannot
    estimate the covariance, fills the matrix with [inf] and still returns
    (with a warning). *)
Definition undetermined (n : nat) : list (list float) :=
  replicate n (replicate n PrimFloat.infinity).

Definition scipy_line_optimizers : Optimizers :=
  {| curve_fit := λ _ x y _,
       let f := fit_line x y in
       Ok ([slope f; intercept f],
           if bool_decide (2 < length y) then line_cov f else undetermined 2);
     ols_results := line_fit;
     add_constant := map (λ xi, [1%float; xi]);
     OLS_fit := λ y X, Ok (fit_line (map (λ r, nth 1 r 0%float) X) y);
     predict := λ f X,
       Ok (map (λ r, PrimFloat.add (PrimFloat.mul (slope f) (nth 1 r 0%float)) (intercept f)) X);
     conf_int := λ f X alpha, Ok (map (line_band f alpha) X) |}.

End Reference.
Import Reference.

(** ** The statements between the functions *)

Module Script.

(** A frame whose columns all have one cell per row, as every frame that
    pandas builds has. *)
Definition aligned (df : DataFrame) : Prop :=
  Forall (λ p, length (vals p.2) = nrows df) df.




(** The chart that one pass of the loop of [visualize] draws for a frame,
    without the objects it goes through (lines 90-104). *)
Definition top_ten (df : DataFrame) (indicator : string) : result BarPlot :=
  year ← getitem "Year" df;
  let plot_data := filter_rows (map (eq_scalar "2020") (vals year)) df in
  column ← getitem indicator plot_data;
  rank ← rank_descending column;
  let plot_data := setitem "Rank" rank plot_data in
  sorted ← sort_values "Rank" plot_data;
  let plot_data := head_rows 10 sorted in
  ordered ← sort_values "Rank" plot_data;
  order ← getitem "Country Name" ordered;
  _ ← getitem indicator plot_data;
  Ok (mkBarPlot ("Top 10 Countries: " +:+ before_paren indicator)
        indicator "Country Name" (vals order) plot_data).

(** The charts of a run of the loop, up to the first indicator that fails. *)
Fixpoint charts (df : DataFrame) (indicators : list string) : list BarPlot :=
  match indicators with
  | [] => []
  | indicator :: rest =>
      match top_ten df indicator with
      | Ok p => p :: charts df rest
      | Raise _ => []
      end
  end.

(** What [replace('..', pd.NA)] makes of a cell (line 35). *)
Definition mark_sentinel (c : cell) : cell :=
  match c with
  | Str s => if bool_decide (s = "..") then NA else c
  | _ => c
  end.

(** The cells that the cleaning works on before it drops the code columns:
    filled, without repeated rows, cut at row 1519 (lines 35-44). *)
Definition kept_rows (df : DataFrame) : DataFrame :=
  drop_rows_from 1519 (drop_duplicates (fill_missing df)).


End Script.
Import Script.

(** ** Sample inputs *)

Module Samples.

Definition tcol (xs : list string) : Series := mkSeries object (map Str xs).
Definition fcol (xs : list float) : Series := mkSeries float64 (map Num xs).

Definition gappy_frame : DataFrame :=
  [("Country Name", mkSeries object [Str "A"; Str "B"; Str "C"; Str "D"]);
   ("1980", mkSeries object [Str ".."; Str "3.5"; Num nan; Str ".."])].

(** A file with two indicators for two countries; its 1980 column holds the [..] token. *)
Definition wdi_csv : DataFrame :=
  [("Series Name", tcol ["CO2"; "GDP"; "CO2"; "GDP"]);
   ("Series Code", tcol ["EN.CO2"; "NY.GDP"; "EN.CO2"; "NY.GDP"]);
   ("Country Name", tcol ["Aruba"; "Aruba"; "Benin"; "Benin"]);
   ("Country Code", tcol ["ABW"; "ABW"; "BEN"; "BEN"]);
   ("1980", mkSeries object [Str ".."; Str "2.5"; Str "3"; Str ".."]);
   ("1985", fcol [2; 20; 3; 40]%float);
   ("1990", fcol [3; 30; 4; 60]%float);
   ("1995", fcol [4; 40; 5; 80]%float);
   ("2000", fcol [5; 50; 6; 100]%float);
   ("2005", fcol [6; 60; 7; 120]%float);
   ("2010", fcol [7; 70; 8; 140]%float);
   ("2015", fcol [8; 80; 9; 160]%float);
   ("2020", fcol [9; 90; 10; 180]%float)].

(** The same file without its [Country Code] column. *)
Definition csv_without_country_code : DataFrame :=
  [("Series Name", tcol ["CO2"; "GDP"; "CO2"; "GDP"]);
   ("Series Code", tcol ["EN.CO2"; "NY.GDP"; "EN.CO2"; "NY.GDP"]);
   ("Country Name", tcol ["Aruba"; "Aruba"; "Benin"; "Benin"]);
   ("1980", mkSeries object [Str ".."; Str "2.5"; Str "3"; Str ".."]);
   ("1985", fcol [2; 20; 3; 40]%float);
   ("1990", fcol [3; 30; 4; 60]%float);
   ("1995", fcol [4; 40; 5; 80]%float);
   ("2000", fcol [5; 50; 6; 100]%float);
   ("2005", fcol [6; 60; 7; 120]%float);
   ("2010", fcol [7; 70; 8; 140]%float);
   ("2015", fcol [8; 80; 9; 160]%float);
   ("2020", fcol [9; 90; 10; 180]%float)].

(** The same file with an empty 1980 column, which [read_csv] loads as NaN. *)
Definition csv_empty_1980 : DataFrame :=
  [("Series Name", tcol ["CO2"; "GDP"; "CO2"; "GDP"]);
   ("Series Code", tcol ["EN.CO2"; "NY.GDP"; "EN.CO2"; "NY.GDP"]);
   ("Country Name", tcol ["Aruba"; "Aruba"; "Benin"; "Benin"]);
   ("Country Code", tcol ["ABW"; "ABW"; "BEN"; "BEN"]);
   ("1980", fcol [nan; nan; nan; nan]);
   ("1985", fcol [2; 20; 3; 40]%float);
   ("1990", fcol [3; 30; 4; 60]%float);
   ("1995", fcol [4; 40; 5; 80]%float);
   ("2000", fcol [5; 50; 6; 100]%float);
   ("2005", fcol [6; 60; 7; 120]%float);
   ("2010", fcol [7; 70; 8; 140]%float);
   ("2015", fcol [8; 80; 9; 160]%float);
   ("2020", fcol [9; 90; 10; 180]%float)].

(** What [read_data] returns for [wdi_csv], with decimal literals for
    [float(str)]: the cleaned table and the pivoted table. *)
Definition loaded_tables : DataFrame * DataFrame :=
  Eval vm_compute in
    match read_data (H := decimal_builtins) (Ok wdi_csv) with
    | Ok tables => tables
    | Raise _ => ([], [])
    end.

Definition clean_table : DataFrame := Eval vm_compute in loaded_tables.1.
Definition clean_wide : DataFrame := Eval vm_compute in loaded_tables.2.

Definition clean_long : DataFrame :=
  Eval vm_compute in
    match melt ["Series Name"; "Country Name"] "Year" "Value" clean_table with
    | Ok long => long
    | Raise _ => []
    end.

(** A pivoted table of indicators per year and country. *)
Definition indicators_frame : DataFrame :=
  [("Year", tcol ["2020"; "2020"; "2015"; "2020"]);
   ("Country Name", tcol ["Aruba"; "Benin"; "Aruba"; "Chad"]);
   ("CO2 (kt)", fcol [1; 5; 2; 3]%float);
   ("GDP", fcol [10; 0; 7; 7]%float)].

(** A frame in which the last two rows are equal. *)
Definition repeated_rows_frame : DataFrame :=
  [("Country Name", tcol ["Aruba"; "Benin"; "Chad"]);
   ("CO2 (kt)", fcol [0; 4; 4]%float)].

(** Two sessions that hold the same frame under different references, with
    different states of the global generator. *)
Definition session : world (H := lloyd_estimator) :=
  World (H := lloyd_estimator) {[ 1%positive := indicators_frame ]} 42%Z [].

Definition later_session : world (H := lloyd_estimator) :=
  World (H := lloyd_estimator)
        {[ 1%positive := repeated_rows_frame; 2%positive := indicators_frame ]} 7%Z
        [mkBarPlot "Top 10 Countries: GDP" "GDP" "Country Name" [] []].

Definition repeated_rows_session : world (H := lloyd_estimator) :=
  World (H := lloyd_estimator) {[ 1%positive := repeated_rows_frame ]} 42%Z [].

Definition sample_years : list float := [1980; 1985; 1990; 1995]%float.
Definition sample_emissions : list float := [1; 2; 2.5; 4.5]%float.

(** The file of [wdi_csv] with nothing but the [..] token in its 1980
    column. *)
Definition csv_unfilled_1980 : DataFrame :=
  setitem "1980" (mkSeries object [Str ".."; Str ".."; Str ".."; Str ".."]) wdi_csv.

(** A table whose second and fourth rows repeat the first. *)
Definition duplicated_rows_frame : DataFrame :=
  [("Country Name", tcol ["Aruba"; "Aruba"; "Benin"; "Aruba"]);
   ("1980", fcol [1; 1; 2; 1]%float)].



End Samples.
Import Samples.
(** * Properties *)

(** ** Forward and backward fill *)

Section fill.
Implicit Types (c v val : cell) (l col : list cell).

Lemma pad_length val l : length (pad val l) = length l.
Proof.
  revert val. induction l as [|c l IH]; intros val; simpl; [done|].
  destruct (isna c); simpl; by rewrite IH.
Qed.

Lemma ffill_length l : length (ffill l) = length l.
Proof. destruct l; [done|]. apply pad_length. Qed.

Lemma bfill_length l : length (bfill l) = length l.
Proof. unfold bfill. by rewrite length_reverse, ffill_length, length_reverse. Qed.

(** A valid cell is never overwritten by the scan. *)
Lemma pad_lookup_valid val l i c :
  l !! i = Some c → notna c → pad val l !! i = Some c.
Proof.
  unfold notna. revert val i. induction l as [|a l IH]; intros val i Hi Hc; [done|].
  destruct i as [|i]; simpl in *.
  - simplify_eq. destruct (isna c); [done|]. done.
  - destruct (isna a); simpl; eauto.
Qed.

(** Inside a run of missing cells the scan writes the value it carries. *)
Lemma pad_lookup_gap val l i :
  i < length l →
  (∀ k m, k ≤ i → l !! k = Some m → isna m) →
  pad val l !! i = Some val.
Proof.
  revert val i. induction l as [|a l IH]; intros val i Hi Hgap; simpl in *; [lia|].
  assert (isna a) as Ha by (apply (Hgap 0); [lia|done]).
  destruct (isna a); [|done].
  destruct i as [|i]; simpl; [done|].
  apply IH; [lia|]. intros k m Hk Hm. apply (Hgap (S k)); [lia|done].
Qed.

(** The scan gives every cell the last valid value at or above it. *)
Lemma pad_lookup_last_valid val l i j v :
  l !! j = Some v → notna v → j ≤ i → i < length l →
  (∀ k m, j < k ≤ i → l !! k = Some m → isna m) →
  pad val l !! i = Some v.
Proof.
  revert val i j. induction l as [|a l IH]; intros val i j Hj Hv Hji Hi Hgap; [done|].
  destruct j as [|j].
  - simpl in Hj. simplify_eq. simpl. unfold notna in Hv.
    destruct (isna v) eqn:E; [done|].
    destruct i as [|i]; simpl; [done|].
    apply pad_lookup_gap; [simpl in Hi; lia|].
    intros k m Hk Hm. apply (Hgap (S k)); [lia|done].
  - destruct i as [|i]; [lia|]. simpl in *.
    assert (∀ val', pad val' l !! i = Some v) as Hrec.
    { intros val'. apply (IH val' i j); [done|done|lia|lia|].
      intros k m Hk Hm. apply (Hgap (S k)); [lia|done]. }
    destruct (isna a); simpl; apply Hrec.
Qed.

(** Ahead of the first valid value the scan leaves missing cells missing. *)
Lemma pad_leading_gap val l j :
  isna val →
  (∀ k m, k < j → l !! k = Some m → isna m) →
  ∀ k m, k < j → pad val l !! k = Some m → isna m.
Proof.
  revert val j. induction l as [|a l IH]; intros val j Hval Hgap k m Hk Hm; [done|].
  simpl in Hm. destruct (isna a) eqn:Ea.
  - destruct k as [|k]; simpl in Hm; [by simplify_eq|].
    destruct j as [|j]; [lia|].
    apply (IH val j Hval) with k; [|lia|done].
    intros k' m' Hk' Hm'. apply (Hgap (S k')); [lia|done].
  - exfalso. assert (isna a) as Ha by (apply (Hgap 0); [lia|done]).
    by rewrite Ea in Ha.
Qed.

Lemma ffill_lookup_valid l i c : l !! i = Some c → notna c → ffill l !! i = Some c.
Proof. destruct l; [done|]. apply pad_lookup_valid. Qed.

Lemma ffill_lookup_last_valid l i j v :
  l !! j = Some v → notna v → j ≤ i → i < length l →
  (∀ k m, j < k ≤ i → l !! k = Some m → isna m) →
  ffill l !! i = Some v.
Proof. destruct l; [done|]. apply pad_lookup_last_valid. Qed.

Lemma ffill_leading_gap l j :
  (∀ k m, k < j → l !! k = Some m → isna m) →
  ∀ k m, k < j → ffill l !! k = Some m → isna m.
Proof.
  destruct l as [|a l]; [done|]. intros Hgap k m Hk.
  apply pad_leading_gap with j; [|done|done].
  apply (Hgap 0); [lia|done].
Qed.

Lemma bfill_lookup_valid l i c : l !! i = Some c → notna c → bfill l !! i = Some c.
Proof.
  intros Hi Hc. pose proof (lookup_lt_Some _ _ _ Hi) as Hlt.
  unfold bfill. rewrite reverse_lookup by (rewrite ffill_length, length_reverse; lia).
  rewrite ffill_length, length_reverse.
  apply ffill_lookup_valid; [|done].
  rewrite reverse_lookup by lia.
  replace (length l - S (length l - S i)) with i by lia. done.
Qed.

(** The backward scan gives the cells of a leading gap the first valid
    value. *)
Lemma bfill_lookup_first_valid l i j v :
  l !! j = Some v → notna v → i ≤ j →
  (∀ k m, k < j → l !! k = Some m → isna m) →
  bfill l !! i = Some v.
Proof.
  intros Hj Hv Hij Hgap. pose proof (lookup_lt_Some _ _ _ Hj) as Hlt.
  unfold bfill. rewrite reverse_lookup by (rewrite ffill_length, length_reverse; lia).
  rewrite ffill_length, length_reverse.
  apply ffill_lookup_last_valid with (length l - S j); [|done|lia|rewrite length_reverse; lia|].
  - rewrite reverse_lookup by lia.
    replace (length l - S (length l - S j)) with j by lia. done.
  - intros k m Hk. rewrite reverse_lookup by lia.
    apply Hgap. lia.
Qed.

End fill.

Section fill_missing.

Lemma lookup_col_map_columns f name df :
  lookup_col name (map_columns f df)
  = (λ s, mkSeries (dt s) (f (vals s))) <$> lookup_col name df.
Proof.
  induction df as [|[n s] df IH]; simpl; [done|].
  destruct (bool_decide (n = name)); [done|]. apply IH.
Qed.

Lemma labels_map_columns f df : labels (map_columns f df) = labels df.
Proof. unfold labels, map_columns. rewrite <-list_fmap_compose. done. Qed.

Lemma replace_as_columns old new df :
  replace old new df
  = map_columns (map (λ c, match c with
                           | Str s => if bool_decide (s = old) then new else c
                           | _ => c
                           end)) df.
Proof. done. Qed.

Lemma mark_missing c :
  isna (match c with
        | Str s => if bool_decide (s = "..") then NA else c
        | _ => c
        end) = is_missing c
  ∧ (is_missing c = false →
     match c with
     | Str s => if bool_decide (s = "..") then NA else c
     | _ => c
     end = c).
Proof.
  unfold is_missing, eq_scalar. destruct c as [|s|x|n]; simpl; try done.
  - destruct (bool_decide (s = "..")); done.
  - by rewrite orb_false_r.
Qed.

(** The two scans on one column, after the sentinel has been marked. *)
Lemma fill_column col i j v :
  col !! j = Some v → notna v →
  (j ≤ i < length col ∧ ∀ k m, j < k ≤ i → col !! k = Some m → isna m)
  ∨ (i ≤ j ∧ ∀ k m, k < j → col !! k = Some m → isna m) →
  bfill (ffill col) !! i = Some v.
Proof.
  intros Hj Hv [[[Hji Hi] Hgap]|[Hij Hgap]].
  - apply bfill_lookup_valid; [|done].
    by apply ffill_lookup_last_valid with j.
  - apply bfill_lookup_first_valid with j; [|done|done|].
    + by apply ffill_lookup_valid.
    + by apply ffill_leading_gap.
Qed.

(** C3. Missing-value fill policy of [read_data] (lines 35-38).  In every
    column, a cell [i] takes the value [v] of cell [j] when [v] is not
    missing and either [j] is the last such cell at or above [i] (forward
    fill; [j = i] says that a present value is kept), or [i] lies in the
    leading run of missing cells and [j] is the first present cell
    (backward fill of what the forward fill left). *)
Theorem fill_missing_policy (df : DataFrame) (name : string) (s : Series)
    (i j : nat) (v : cell) :
  lookup_col name df = Some s →
  vals s !! j = Some v →
  is_missing v = false →
  (j ≤ i < length (vals s)
     ∧ ∀ k m, j < k ≤ i → vals s !! k = Some m → is_missing m = true)
  ∨ (i ≤ j ∧ ∀ k m, k < j → vals s !! k = Some m → is_missing m = true) →
  ∃ s', lookup_col name (fill_missing df) = Some s' ∧ vals s' !! i = Some v.
Proof.
  intros Hs Hj Hv Hcase. unfold fill_missing, fillna_bfill, fillna_ffill.
  rewrite replace_as_columns, !lookup_col_map_columns, Hs. simpl.
  eexists; split; [done|]. simpl.
  set (r := λ c, match c with
                 | Str s0 => if bool_decide (s0 = "..") then NA else c
                 | _ => c
                 end).
  assert (∀ c, isna (r c) = is_missing c) as Hr1 by (intros c; apply mark_missing).
  assert (∀ c, is_missing c = false → r c = c) as Hr2
    by (intros c; apply mark_missing).
  assert (∀ k m, map r (vals s) !! k = Some m →
                 ∃ m0, vals s !! k = Some m0 ∧ isna m = is_missing m0) as Hr.
  { intros k m Hk. rewrite list_lookup_fmap in Hk.
    destruct (vals s !! k) as [m0|]; [|done]. simpl in Hk. simplify_eq.
    exists m0. split; [done|]. apply Hr1. }
  apply fill_column with j.
  - rewrite list_lookup_fmap, Hj. simpl. f_equal. by apply Hr2.
  - unfold notna.
    unfold is_missing in Hv. apply orb_false_elim in Hv as [-> _]. done.
  - rewrite length_map.
    destruct Hcase as [[Hji Hgap]|[Hij Hgap]]; [left|right]; (split; [done|]).
    + intros k m Hk Hm. destruct (Hr k m Hm) as (m0 & Hm0 & ->).
      by rewrite (Hgap k m0 Hk Hm0).
    + intros k m Hk Hm. destruct (Hr k m Hm) as (m0 & Hm0 & ->).
      by rewrite (Hgap k m0 Hk Hm0).
Qed.

End fill_missing.

(** ** The errors of [read_data] *)

Lemma bind_Ok {A B} (a : A) (f : A → result B) : (Ok a ≫= f) = f a.
Proof. done. Qed.

Lemma bind_Raise {A B} (e : exn) (f : A → result B) : (Raise e ≫= f) = Raise e.
Proof. done. Qed.

Section loader_errors.
Context `{Builtins}.

Lemma lookup_col_None name df : lookup_col name df = None ↔ name ∉ labels df.
Proof.
  unfold labels. induction df as [|[n s] df IH]; simpl.
  - split; [intros _; apply not_elem_of_nil|done].
  - rewrite not_elem_of_cons. case_bool_decide as E.
    + split; [done|]. intros [? _]. by subst.
    + rewrite IH. split; [|tauto]. intros ?. split; [congruence|done].
Qed.

Lemma getitem_missing name df : name ∉ labels df → getitem name df = Raise (KeyError name).
Proof. intros Hn. unfold getitem. apply lookup_col_None in Hn. by rewrite Hn. Qed.

Lemma getitem_present name df : name ∈ labels df → ∃ s, getitem name df = Ok s.
Proof.
  intros Hn. unfold getitem. destruct (lookup_col name df) as [s|] eqn:E; [by exists s|].
  apply lookup_col_None in E. done.
Qed.

(** Selecting several columns raises [KeyError] as soon as one is absent. *)
Lemma getitems_missing names df n :
  n ∈ names → n ∉ labels df → raised (getitems names df) "KeyError".
Proof.
  unfold getitems. induction names as [|m names IH]; intros Hin Hn.
  - by apply elem_of_nil in Hin.
  - simpl. destruct (decide (m ∈ labels df)) as [Hm|Hm].
    + destruct (getitem_present m df Hm) as [s ->]. simpl.
      apply elem_of_cons in Hin as [->|Hin]; [done|].
      destruct (IH Hin Hn) as [a Ha]. exists a.
      change (traverse _ names) with (traverse (λ n0, s0 ← getitem n0 df; Ok (n0, s0)) names).
      by rewrite Ha.
    + rewrite (getitem_missing m df Hm). by exists m.
Qed.

Lemma drop_columns_missing names df n :
  n ∈ names → n ∉ labels df → raised (drop_columns names df) "KeyError".
Proof.
  intros Hin Hn. unfold drop_columns.
  destruct (filter (λ n0, n0 ∉ labels df) names) as [|m ms] eqn:E.
  - assert (n ∈ filter (λ n0, n0 ∉ labels df) names) as Hf
      by (apply list_elem_of_filter; done).
    rewrite E in Hf. by apply elem_of_nil in Hf.
  - by exists m.
Qed.

Lemma drop_columns_labels names df df' n :
  drop_columns names df = Ok df' → n ∉ labels df → n ∉ labels df'.
Proof.
  unfold drop_columns. destruct (filter _ names); [|done].
  intros [= <-] Hn Hin. apply Hn. unfold labels in *.
  apply list_elem_of_fmap in Hin as ([m s] & -> & Hin).
  apply list_elem_of_filter in Hin as [_ Hin].
  apply list_elem_of_fmap. by exists (m, s).
Qed.

Lemma labels_map_cells f df : labels (map_cells f df) = labels df.
Proof. unfold labels, map_cells. rewrite <-list_fmap_compose. done. Qed.

Lemma labels_fill_missing df : labels (fill_missing df) = labels df.
Proof.
  unfold fill_missing, fillna_bfill, fillna_ffill, replace.
  by rewrite !labels_map_columns, labels_map_cells.
Qed.

Lemma labels_cleaning_rows df :
  labels (drop_rows_from 1519 (drop_duplicates (fill_missing df))) = labels df.
Proof.
  unfold drop_rows_from, drop_duplicates, filter_rows.
  by rewrite !labels_map_columns, labels_fill_missing.
Qed.

Lemma traverse_raise {A B} (f : A → result B) l e :
  traverse f l = Raise e → ∃ a, a ∈ l ∧ f a = Raise e.
Proof.
  induction l as [|a l IH]; simpl; [done|].
  destruct (f a) as [b|e'] eqn:Ea; simpl.
  - destruct (traverse f l) as [bs|e'] eqn:El; simpl; [done|].
    intros [= ->]. destruct (IH eq_refl) as (a' & Ha' & Hf).
    exists a'. split; [by apply elem_of_cons; right|done].
  - intros [= ->]. exists a. split; [apply elem_of_cons; by left|done].
Qed.

Lemma to_float_raise c e :
  to_float c = Raise e → exn_class e = "ValueError" ∨ exn_class e = "TypeError".
Proof.
  destruct c as [|s|x|n]; simpl; try done.
  - intros [= <-]. by right.
  - destruct (float_of_str s); [done|]. intros [= <-]. by left.
Qed.

(** The float conversion raises nothing but [ValueError] and [TypeError]. *)
Lemma astype_float_raise df e :
  astype_float df = Raise e → exn_class e = "ValueError" ∨ exn_class e = "TypeError".
Proof.
  unfold astype_float. intros Hr.
  apply traverse_raise in Hr as ([n s] & _ & Hr). simpl in Hr.
  destruct (traverse to_float (vals s)) as [cs|e'] eqn:E; simpl in Hr; [done|].
  simplify_eq. apply traverse_raise in E as (c & _ & Hc).
  by apply to_float_raise in Hc.
Qed.

Lemma labels_setitem name s df n :
  n ≠ name → n ∉ labels df → n ∉ labels (setitem name s df).
Proof.
  unfold labels. intros Hne. induction df as [|[m t] df IH]; simpl.
  - intros _. rewrite not_elem_of_cons. split; [done|apply not_elem_of_nil].
  - rewrite not_elem_of_cons. intros [Hm Hn].
    case_bool_decide; simpl; rewrite not_elem_of_cons; split; auto.
Qed.

Lemma labels_setitems cols df n :
  n ∉ labels cols → n ∉ labels df → n ∉ labels (setitems cols df).
Proof.
  unfold setitems. revert df. induction cols as [|[m s] cols IH]; intros df Hc Hd; [done|].
  simpl. unfold labels in Hc. simpl in Hc. apply not_elem_of_cons in Hc as [Hne Hc].
  apply IH; [done|]. by apply labels_setitem.
Qed.

Lemma traverse_labels {A} (f : string * A → result (list cell)) (df : list (string * A))
    (df' : DataFrame) (g : string → list cell → string * Series) :
  (∀ n cs, (g n cs).1 = n) →
  traverse (λ p, cs ← f p; Ok (g p.1 cs)) df = Ok df' → df'.*1 = df.*1.
Proof.
  intros Hg. revert df'. induction df as [|[n a] df IH]; intros df'; simpl.
  - by intros [= <-].
  - destruct (f (n, a)) as [cs|]; simpl; [|done].
    destruct (traverse _ df) as [r|] eqn:E; simpl; [|done].
    intros [= <-]. simpl. rewrite Hg. f_equal. by apply IH.
Qed.

Lemma astype_float_labels df df' : astype_float df = Ok df' → labels df' = labels df.
Proof.
  unfold astype_float, labels. intros Hr.
  apply (traverse_labels (λ p, traverse to_float (vals p.2)) df df'
           (λ n cs, (n, mkSeries float64 cs))); done.
Qed.

Lemma getitems_labels names df df' : getitems names df = Ok df' → labels df' = names.
Proof.
  unfold getitems, labels. revert df'. induction names as [|n names IH]; intros df'; simpl.
  - by intros [= <-].
  - destruct (getitem n df) as [s|]; simpl; [|done].
    destruct (traverse _ names) as [r|] eqn:E; simpl; [|done].
    intros [= <-]. simpl. f_equal. by apply IH.
Qed.

Lemma melt_missing ids var value df n :
  n ∈ ids → n ∉ labels df → raised (melt ids var value df) "KeyError".
Proof.
  intros Hin Hn. unfold melt.
  destruct (getitems_missing ids df n Hin Hn) as [a ->]. by exists a.
Qed.

(** C4 (as the code has it).  An error of [pd.read_csv] (a malformed or
    absent file) leaves [read_data] as it is.  When the loaded table lacks
    an expected column, [read_data] fails with the exception pandas raises
    for the missing label: a [KeyError].  Only when a name column is the
    missing one can the float conversion of the year columns, which runs
    earlier, fail first, with its [ValueError] or [TypeError]. *)
Theorem read_data_missing_column (e0 : exn) (df : DataFrame) (n : string) :
  read_data (Raise e0) = Raise e0
  ∧ (n ∈ code_columns ++ year_columns ++ name_columns →
     n ∉ labels df →
     ∃ e, read_data (Ok df) = Raise e
          ∧ (exn_class e = "KeyError"
             ∨ (n ∈ name_columns
                ∧ (exn_class e = "ValueError" ∨ exn_class e = "TypeError")))).
Proof.
  split; [done|].
  intros Hin Hn. unfold read_data, clean. cbn [mbind result_bind].
  fold code_columns.
  set (d0 := drop_rows_from 1519 (drop_duplicates (fill_missing df))).
  assert (n ∉ labels d0) as Hn0 by (unfold d0; by rewrite labels_cleaning_rows).
  destruct (drop_columns code_columns d0) as [d1|e1] eqn:E1; rewrite ?bind_Ok, ?bind_Raise.
  2:{ exists e1. split; [done|]. left.
      unfold drop_columns in E1. repeat case_match; simplify_eq; try reflexivity. }
  assert (n ∉ code_columns) as Hcode.
  { intros Hc. destruct (drop_columns_missing _ d0 n Hc Hn0) as [a Ha]. congruence. }
  apply elem_of_app in Hin as [Hin|Hin]; [done|].
  assert (n ∉ labels d1) as Hn1 by (by apply (drop_columns_labels _ _ _ _ E1)).
  destruct (getitems year_columns d1) as [ys|e2] eqn:E2; rewrite ?bind_Ok, ?bind_Raise.
  2:{ exists e2. split; [done|]. left.
      unfold getitems in E2. apply traverse_raise in E2 as (m & _ & Hr).
      unfold getitem in Hr. destruct (lookup_col m d1); simpl in Hr; simplify_eq.
      reflexivity. }
  assert (n ∉ year_columns) as Hyear.
  { intros Hc. destruct (getitems_missing _ d1 n Hc Hn1) as [a Ha]. congruence. }
  apply elem_of_app in Hin as [Hin|Hin]; [done|].
  destruct (astype_float ys) as [ys'|e3] eqn:E3; rewrite ?bind_Ok, ?bind_Raise.
  2:{ exists e3. split; [done|]. right. split; [done|]. by apply astype_float_raise in E3. }
  assert (n ∉ labels (setitems ys' d1)) as Hn2.
  { apply labels_setitems; [|done].
    by rewrite (astype_float_labels _ _ E3), (getitems_labels _ _ _ E2). }
  unfold reshape. fold name_columns.
  destruct (melt_missing name_columns "Year" "Value" _ n Hin Hn2) as [a Ha].
  rewrite Ha, !bind_Raise. eexists. split; [done|]. by left.
Qed.

End loader_errors.

(** ** The shape of the pivoted table *)

Section pivot_shape.

Lemma observed_notna r o : observed r = Some o → notna (obs_value o).
Proof.
  unfold observed. intros Ho. repeat case_match; simplify_eq.
  unfold obs_value, notna. simpl. by destruct (isna (l_value r)).
Qed.

Lemma first_value_Some k os v :
  first_value k os = Some v → (k, v) ∈ os.
Proof.
  induction os as [|[k' v'] os IH]; simpl; [done|].
  unfold obs_key, obs_value. simpl. case_bool_decide as E.
  - intros [= <-]. subst. apply elem_of_cons. by left.
  - intros Hf. apply elem_of_cons. right. by apply IH.
Qed.

Lemma first_value_is_Some k os :
  k ∈ map obs_key os → is_Some (first_value k os).
Proof.
  induction os as [|o os IH]; simpl.
  - intros Hin. by apply elem_of_nil in Hin.
  - intros Hin. case_bool_decide as E; [done|].
    apply elem_of_cons in Hin as [->|Hin]; [done|]. by apply IH.
Qed.

Lemma filter_all {A} (P : A → Prop) `{∀ x, Decision (P x)} (l : list A) :
  (∀ x, x ∈ l → P x) → filter P l = l.
Proof.
  induction l as [|x l IH]; intros Hl; [done|].
  rewrite filter_cons_True by (apply Hl, elem_of_cons; by left).
  f_equal. apply IH. intros y Hy. apply Hl, elem_of_cons. by right.
Qed.

(** A column for a series that was observed holds one of its values, so the
    final [dropna] of [pivot_table] removes nothing. *)
Lemma pivot_columns_kept (os : list obs) (idx : list (string * string))
    (names : list string) :
  Forall (λ o, notna (obs_value o)) os →
  (∀ o, o ∈ os → obs_index o ∈ idx) →
  (∀ s, s ∈ names → ∃ o, o ∈ os ∧ obs_series o = s) →
  filter (λ s, Is_true (existsb notna (pivot_cells os idx s))) names = names.
Proof.
  intros Hval Hidx Hnames. apply filter_all. intros s Hs.
  destruct (Hnames s Hs) as (o & Ho & <-).
  apply Is_true_true, existsb_exists.
  exists (pivot_cell (obs_index o, obs_series o) os). split.
  - unfold pivot_cells. apply in_map_iff. exists (obs_index o).
    split; [done|]. apply list_elem_of_In. by apply Hidx.
  - unfold pivot_cell.
    destruct (first_value_is_Some (obs_index o, obs_series o) os) as [v Hv].
    { apply list_elem_of_fmap. exists o. split; [|done]. by destruct o as [[[??]?]?]. }
    rewrite Hv. apply first_value_Some in Hv.
    rewrite Forall_forall in Hval. apply Is_true_true. by apply (Hval _ Hv).
Qed.

Lemma observations_notna a b c v :
  Forall (λ o, notna (obs_value o)) (observations a b c v).
Proof.
  apply Forall_forall. intros o Ho. unfold observations in Ho.
  apply list_elem_of_omap in Ho as (r & _ & Hr). by apply observed_notna in Hr.
Qed.

Lemma nrows_reset_index p df :
  reset_index p = Ok df → nrows df = length (p_index p) ∧ length df = 2 + length (p_columns p).
Proof.
  unfold reset_index. repeat case_bool_decide; try done.
  intros [= <-]. simpl. by rewrite length_map.
Qed.

Lemma getitem_Ok name df s : getitem name df = Ok s ↔ lookup_col name df = Some s.
Proof. unfold getitem. destruct (lookup_col name df); split; congruence. Qed.

(** What [pivot_table] returns, in terms of the observations of the frame. *)
Lemma pivot_table_Ok (long : DataFrame) (p : Pivot) :
  pivot_table "Year" "Country Name" "Series Name" "Value" long = Ok p →
  ∃ v, lookup_col "Value" long = Some v
  ∧ p_names p = ("Year", "Country Name")
  ∧ p_index p = merge_sort index_le (remove_dups (map obs_index (long_observations long)))
  ∧ p_columns p
    = map (λ s, (s, unstack_column (dt v)
                      (pivot_cells (long_observations long) (p_index p) s)))
        (merge_sort str_le (remove_dups (map obs_series (long_observations long)))).
Proof.
  unfold pivot_table, long_observations, long_table.
  destruct (getitem "Value" long) as [v|] eqn:Ev; [|done].
  destruct (getitem "Year" long) as [a|] eqn:Ea; [|done].
  destruct (getitem "Country Name" long) as [b|] eqn:Eb; [|done].
  destruct (getitem "Series Name" long) as [c|] eqn:Ec; [|done].
  apply getitem_Ok in Ev, Ea, Eb, Ec. rewrite Ev, Ea, Eb, Ec.
  rewrite !bind_Ok. intros [= <-]. simpl. exists v.
  split; [done|]. split; [done|]. split; [done|].
  fold (observations a b c v). rewrite pivot_columns_kept; [done|..].
  - apply observations_notna.
  - intros o Ho. rewrite merge_sort_Permutation. apply elem_of_remove_dups.
    apply list_elem_of_fmap. by exists o.
  - intros s. rewrite merge_sort_Permutation. rewrite elem_of_remove_dups.
    intros Hs. apply list_elem_of_fmap in Hs as (o & -> & Ho). by exists o.
Qed.

Lemma read_data_Ok `{Builtins} (read_csv : result DataFrame) (wdi_data wide : DataFrame) :
  read_data read_csv = Ok (wdi_data, wide) →
  ∃ df, read_csv = Ok df ∧ clean df = Ok wdi_data ∧ reshape wdi_data = Ok wide.
Proof.
  unfold read_data. destruct read_csv as [df|]; [|done]. rewrite bind_Ok.
  destruct (clean df) as [d|] eqn:Ec; [|done]. rewrite bind_Ok.
  destruct (reshape d) as [t|] eqn:E; [|done]. rewrite bind_Ok.
  intros [= <- <-]. by exists df.
Qed.

(** C2 (as the code has it).  When the name columns of the first table that
    [read_data] returns hold text, the second table has one row per distinct
    (year, country) pair that carries a value among the melted rows of the
    first, and one column per distinct indicator name that carries a value,
    next to the two key columns. *)
Theorem reshape_shape `{Builtins} (read_csv : result DataFrame)
    (wdi_data long wide : DataFrame) :
  read_data read_csv = Ok (wdi_data, wide) →
  text_names wdi_data →
  melt ["Series Name"; "Country Name"] "Year" "Value" wdi_data = Ok long →
  nrows wide = length (remove_dups (map obs_index (long_observations long)))
  ∧ length wide = 2 + length (remove_dups (map obs_series (long_observations long))).
Proof.
  intros Hread _ Hmelt. apply read_data_Ok in Hread as (df & _ & _ & Hreshape).
  unfold reshape in Hreshape. rewrite Hmelt, bind_Ok in Hreshape.
  destruct (pivot_table _ _ _ _ long) as [p|] eqn:Hp; [|done].
  rewrite bind_Ok in Hreshape.
  apply nrows_reset_index in Hreshape as [-> ->].
  apply pivot_table_Ok in Hp as (v & _ & _ & Hidx & Hcols).
  rewrite Hcols, length_map, Hidx.
  split; [|f_equal]; apply Permutation_length, merge_sort_Permutation.
Qed.

End pivot_shape.

Section complete_tables.

Lemma omap_observed_index (l : list long_row) :
  Forall (λ r, is_Some (observed r)) l →
  map obs_index (omap observed l) = omap row_index l
  ∧ map obs_series (omap observed l) = omap row_series l.
Proof.
  induction 1 as [|r l [o Ho] _ [IH1 IH2]]; simpl; [done|].
  rewrite Ho. unfold observed in Ho. unfold row_index, row_series.
  destruct (l_year r), (l_country r), (l_series r); try done.
  destruct (isna (l_value r)); [done|]. injection Ho as <-. simpl.
  split; f_equal; [apply IH1|apply IH2].
Qed.

(** When every melted row carries a value, the rows of the pivoted table are
    the distinct (year, country) pairs of the input and its columns the
    distinct indicator names, next to the two key columns. *)
Lemma reshape_shape_complete (wdi_data long wide : DataFrame) :
  melt ["Series Name"; "Country Name"] "Year" "Value" wdi_data = Ok long →
  reshape wdi_data = Ok wide →
  Forall (λ r, is_Some (observed r)) (long_table long) →
  nrows wide = length (remove_dups (index_pairs long))
  ∧ length wide = 2 + length (remove_dups (series_names long)).
Proof.
  intros Hmelt Hreshape Hall. unfold reshape in Hreshape.
  rewrite Hmelt, bind_Ok in Hreshape.
  destruct (pivot_table _ _ _ _ long) as [p|] eqn:Hp; [|done].
  rewrite bind_Ok in Hreshape. apply nrows_reset_index in Hreshape as [-> ->].
  apply pivot_table_Ok in Hp as (v & _ & _ & Hidx & Hcols).
  destruct (omap_observed_index _ Hall) as [Hi Hs].
  unfold index_pairs, series_names. rewrite <-Hi, <-Hs.
  rewrite Hcols, length_map, Hidx.
  split; [|f_equal]; apply Permutation_length, merge_sort_Permutation.
Qed.

End complete_tables.

(** ** Melting the pivoted table back *)

Section round_trip.

Lemma lookup_col_here name s df : lookup_col name ((name, s) :: df) = Some s.
Proof. simpl. by rewrite bool_decide_eq_true_2. Qed.

Lemma lookup_col_next name n s df :
  n ≠ name → lookup_col name ((n, s) :: df) = lookup_col name df.
Proof. intros Hne. simpl. by rewrite bool_decide_eq_false_2. Qed.

Lemma long_rows_length a b c v :
  length b = length a → length c = length a → length v = length a →
  length (long_rows a b c v) = length a.
Proof. intros Hb Hc Hv. unfold long_rows. rewrite !length_zip_with. lia. Qed.

Lemma long_rows_app a1 a2 b1 b2 c1 c2 v1 v2 :
  length b1 = length a1 → length c1 = length a1 → length v1 = length a1 →
  long_rows (a1 ++ a2) (b1 ++ b2) (c1 ++ c2) (v1 ++ v2)
  = long_rows a1 b1 c1 v1 ++ long_rows a2 b2 c2 v2.
Proof.
  intros Hb Hc Hv. unfold long_rows.
  rewrite (zip_with_app LongRow a1 a2 b1 b2) by done.
  rewrite zip_with_app by (rewrite length_zip_with; lia).
  rewrite zip_with_app by (rewrite !length_zip_with; lia).
  done.
Qed.

Lemma long_rows_fmap {A} (f g h : A → cell) (c : cell) (l : list A) :
  long_rows (map f l) (map g l) (replicate (length l) c) (map h l)
  = map (λ i, LongRow (f i) (g i) c (h i)) l.
Proof. unfold long_rows. induction l as [|x l IH]; simpl; [done|]. by rewrite <-IH. Qed.

(** The rows of a melted frame come in blocks, one per unpivoted column. *)
Lemma long_rows_blocks (Y C : list cell) (u : cell → cell) (cols : DataFrame) :
  length C = length Y →
  Forall (λ p, length (vals p.2) = length Y) cols →
  long_rows (mjoin (replicate (length cols) Y)) (mjoin (replicate (length cols) C))
            (mjoin (map (λ p, replicate (length Y) (Str p.1)) cols))
            (map u (mjoin (map (λ p, vals p.2) cols)))
  = mjoin (map (λ p, long_rows Y C (replicate (length Y) (Str p.1)) (map u (vals p.2)))
               cols).
Proof.
  intros HC. induction 1 as [|p cols Hp _ IH]; simpl; [done|].
  rewrite map_app, long_rows_app, IH; [reflexivity|done|..].
  - by rewrite length_replicate.
  - by rewrite length_map.
Qed.

Lemma forallb_replicate {A} (f : A → bool) (n : nat) (x : A) :
  f x = true → forallb f (replicate n x) = true.
Proof. intros Hx. induction n as [|n IH]; simpl; [done|]. by rewrite Hx, IH. Qed.

Lemma common_dtype_same (d : dtype) (n : nat) :
  d ≠ int64 → n ≠ 0 → common_dtype (replicate n d) = d.
Proof.
  intros Hd Hn. destruct n as [|n]; [done|]. unfold common_dtype. simpl.
  rewrite bool_decide_eq_false_2 by done. simpl.
  destruct d; simpl; try done.
  by rewrite forallb_replicate.
Qed.

Lemma map_const_replicate {A B} (b : B) (l : list A) :
  map (λ _, b) l = replicate (length l) b.
Proof. induction l as [|a l IH]; simpl; [done|]. by rewrite IH. Qed.

Lemma upcast_idemp d c : upcast d (upcast d c) = upcast d c.
Proof. by destruct d, c. Qed.

Lemma upcast_object c : upcast object c = c.
Proof. done. Qed.

Lemma unstack_column_other d cs : d ≠ int64 → unstack_column d cs = mkSeries d cs.
Proof. by destruct d. Qed.

(** Melting the table that [reset_index] returns: one block of rows per
    indicator column, one row per index entry. *)
Lemma melt_reset_index (p : Pivot) (wide : DataFrame) (d : dtype) (os : list obs)
    (names : list string) :
  p_names p = ("Year", "Country Name") →
  p_columns p = map (λ s, (s, mkSeries d (pivot_cells os (p_index p) s))) names →
  reset_index p = Ok wide →
  ∃ back,
    melt ["Year"; "Country Name"] "Series Name" "Value" wide = Ok back
    ∧ long_table back
      = mjoin (map (λ s, map (λ i, LongRow (Str i.1) (Str i.2) (Str s)
                                     (upcast (common_dtype (replicate (length names) d))
                                             (pivot_cell (i, s) os)))
                             (p_index p)) names).
Proof.
  intros Hnames Hcols. unfold reset_index. rewrite Hnames. simpl.
  case_bool_decide as Hc; [done|]. case_bool_decide as Hy; [done|].
  intros [= <-].
  set (Y := mkSeries object (map (λ i : string * string, Str i.1) (p_index p))).
  set (C := mkSeries object (map (λ i : string * string, Str i.2) (p_index p))).
  unfold melt, getitems. cbn [traverse]. unfold getitem.
  rewrite lookup_col_here, (lookup_col_next "Country Name" "Year") by done.
  rewrite lookup_col_here, !bind_Ok.
  match goal with
  | |- context [@filter ?A ?B ?F ?P ?D ?l] =>
      assert (@filter A B F P D l = p_columns p) as ->
  end.
  { change (filter (λ q : string * Series, q.1 ∉ ["Year"; "Country Name"])
              (("Year", Y) :: ("Country Name", C) :: p_columns p) = p_columns p).
    rewrite filter_cons_False by (simpl; set_solver).
    rewrite filter_cons_False by (simpl; set_solver).
    apply filter_all. intros [n s] Hn. simpl. intros Hin.
    assert (n ∈ labels (p_columns p)) as Hl
      by (unfold labels; apply list_elem_of_fmap; by exists (n, s)).
    apply elem_of_cons in Hin as [->|Hin]; [done|].
    apply elem_of_cons in Hin as [->|Hin]; [done|]. by apply elem_of_nil in Hin. }
  eexists. split; [reflexivity|]. unfold long_table.
  cbn [map app fst snd].
  rewrite lookup_col_here.
  rewrite (lookup_col_next "Country Name" "Year") by done. rewrite lookup_col_here.
  rewrite (lookup_col_next "Series Name" "Year") by done.
  rewrite (lookup_col_next "Series Name" "Country Name") by done. rewrite lookup_col_here.
  rewrite (lookup_col_next "Value" "Year") by done.
  rewrite (lookup_col_next "Value" "Country Name") by done.
  rewrite (lookup_col_next "Value" "Series Name") by done. rewrite lookup_col_here.
  cbn [vals snd fst nrows].
  replace (length (vals Y)) with (length (map (λ i : string * string, Str i.1) (p_index p)))
    by done.
  rewrite long_rows_blocks.
  - rewrite Hcols, !length_map, !map_map. simpl.
    rewrite map_const_replicate. f_equal. apply map_ext. intros s.
    unfold pivot_cells. rewrite map_map.
    by rewrite <-(long_rows_fmap (λ i, Str i.1) (λ i, Str i.2)).
  - simpl. by rewrite !length_map.
  - rewrite Hcols. apply Forall_forall. intros q Hq.
    apply list_elem_of_fmap in Hq as (s & -> & _). simpl.
    unfold pivot_cells. by rewrite !length_map.
Qed.

Lemma grid_fmap {B} (f : string * string * string → B) idx names :
  mjoin (map (λ s, map (λ i, f (i, s)) idx) names) = map f (grid idx names).
Proof.
  unfold grid. induction names as [|s names IH]; simpl; [done|].
  by rewrite map_app, IH, map_map.
Qed.

Lemma elem_of_grid idx names k : k ∈ grid idx names ↔ k.1 ∈ idx ∧ k.2 ∈ names.
Proof.
  unfold grid. rewrite list_elem_of_join. split.
  - intros (l & Hk & Hl). apply list_elem_of_fmap in Hl as (s & -> & Hs).
    apply list_elem_of_fmap in Hk as (i & -> & Hi). done.
  - intros [Hi Hs]. exists (map (λ i, (i, k.2)) idx). split.
    + apply list_elem_of_fmap. exists k.1. split; [by destruct k|done].
    + apply list_elem_of_fmap. by exists k.2.
Qed.

Lemma NoDup_grid idx names : NoDup idx → NoDup names → NoDup (grid idx names).
Proof.
  intros Hidx. unfold grid. induction 1 as [|s names Hs _ IH]; simpl; [constructor|].
  apply NoDup_app. split; [|split; [|done]].
  - apply (NoDup_fmap_2 _). done.
  - intros k Hk Hk'. apply list_elem_of_fmap in Hk as (i & -> & _).
    apply (elem_of_grid idx names) in Hk' as [_ Hk']. done.
Qed.

Lemma NoDup_omap_key {A B} (h : A → option B) (key : B → A) (l : list A) :
  (∀ x o, h x = Some o → key o = x) → NoDup l → NoDup (omap h l).
Proof.
  intros Hkey. induction 1 as [|x l Hx _ IH]; simpl; [constructor|].
  destruct (h x) as [o|] eqn:E; [|done]. constructor; [|done].
  intros Ho. apply list_elem_of_omap in Ho as (x' & Hx' & Ho).
  apply Hkey in E, Ho. congruence.
Qed.

Lemma omap_fmap {A B C} (f : A → B) (g : B → option C) (l : list A) :
  omap g (map f l) = omap (λ x, g (f x)) l.
Proof.
  induction l as [|x l IH]; simpl; [done|].
  destruct (g (f x)); [f_equal|]; apply IH.
Qed.

Lemma omap_all {A B} (f : A → option B) (l : list A) :
  Forall (λ x, is_Some (f x)) l → Some <$> omap f l = f <$> l.
Proof.
  induction 1 as [|x l [y Hy] _ IH]; simpl; [done|].
  rewrite Hy. simpl. f_equal. apply IH.
Qed.

Lemma first_value_NoDup os o :
  NoDup (map obs_key os) → o ∈ os → first_value (obs_key o) os = Some (obs_value o).
Proof.
  induction os as [|o' os IH]; simpl; intros Hnd Ho.
  - by apply elem_of_nil in Ho.
  - apply NoDup_cons in Hnd as [Hnot Hnd]. case_bool_decide as E.
    + apply elem_of_cons in Ho as [->|Ho]; [done|].
      exfalso. apply Hnot. rewrite E. apply list_elem_of_fmap. by exists o.
    + apply elem_of_cons in Ho as [->|Ho]; [done|]. by apply IH.
Qed.

Lemma long_rows_values (P : cell → Prop) a b c v :
  Forall P v → Forall (λ r, P (l_value r)) (long_rows a b c v).
Proof.
  unfold long_rows. intros Hv. revert a b c.
  induction Hv as [|x v Hx _ IH]; intros a b c.
  - destruct a, b, c; constructor.
  - destruct a, b, c; simpl; try constructor; [done|]. apply IH.
Qed.

(** The values that [melt] stacks are already upcast to the common dtype. *)
Lemma melt_value_upcast (wdi long : DataFrame) (v : Series) :
  melt ["Series Name"; "Country Name"] "Year" "Value" wdi = Ok long →
  lookup_col "Value" long = Some v →
  Forall (λ c, upcast (dt v) c = c) (vals v).
Proof.
  unfold melt. destruct (getitems _ wdi) as [ids|] eqn:E; [|done]. rewrite bind_Ok.
  apply getitems_labels in E. unfold labels in E.
  destruct ids as [|[n1 s1] [|[n2 s2] [|]]]; simplify_eq/=.
  intros [= <-]. cbn [map app fst snd].
  rewrite (lookup_col_next "Value" "Series Name") by done.
  rewrite (lookup_col_next "Value" "Country Name") by done.
  rewrite (lookup_col_next "Value" "Year") by done. rewrite lookup_col_here.
  intros [= <-]. simpl. apply Forall_forall. intros c Hc.
  apply list_elem_of_fmap in Hc as (c0 & -> & _). apply upcast_idemp.
Qed.

(** Round trip on the long form: for a valid long table, melting the pivoted
    table back gives the same (year, country, indicator, value) rows, each
    exactly once; and these are all the rows of the long table. *)
Lemma pivot_round_trip (wdi_data long wide : DataFrame) :
  melt ["Series Name"; "Country Name"] "Year" "Value" wdi_data = Ok long →
  reshape wdi_data = Ok wide →
  valid_long long →
  ∃ back,
    melt ["Year"; "Country Name"] "Series Name" "Value" wide = Ok back
    ∧ long_observations back ≡ₚ long_observations long
    ∧ (Some <$> long_observations long) = (observed <$> long_table long).
Proof.
  intros Hmelt Hreshape (Hall & Hkeys & Hdt).
  unfold reshape in Hreshape. rewrite Hmelt, bind_Ok in Hreshape.
  destruct (pivot_table _ _ _ _ long) as [p|] eqn:Hp; [|done].
  rewrite bind_Ok in Hreshape.
  apply pivot_table_Ok in Hp as (v & Hv & Hnames & Hidx & Hcols).
  pose proof (Hdt v Hv) as Hd.
  pose proof (melt_value_upcast _ _ _ Hmelt Hv) as Hup.
  set (os := long_observations long) in *.
  set (names := merge_sort str_le (remove_dups (map obs_series os))) in *.
  assert (p_columns p = map (λ s, (s, mkSeries (dt v) (pivot_cells os (p_index p) s))) names)
    as Hcols'.
  { rewrite Hcols. apply map_ext. intros s. by rewrite unstack_column_other. }
  destruct (melt_reset_index p wide (dt v) os names Hnames Hcols' Hreshape)
    as (back & Hback & Htable).
  exists back. split; [done|]. split; [|by apply omap_all].
  unfold long_observations at 1. rewrite Htable.
  set (d' := common_dtype (replicate (length names) (dt v))).
  rewrite (grid_fmap (λ k, LongRow (Str k.1.1) (Str k.1.2) (Str k.2)
                             (upcast d' (pivot_cell k os)))).
  rewrite omap_fmap.
  assert (NoDup (p_index p)) as Hnd_idx.
  { rewrite Hidx, merge_sort_Permutation. apply NoDup_remove_dups. }
  assert (NoDup names) as Hnd_names.
  { unfold names. rewrite merge_sort_Permutation. apply NoDup_remove_dups. }
  assert (∀ o, o ∈ os → upcast (dt v) (obs_value o) = obs_value o ∧ notna (obs_value o))
    as Hos.
  { intros o Ho. unfold os, long_observations in Ho.
    apply list_elem_of_omap in Ho as (r & Hr & Hobs).
    split; [|by apply observed_notna in Hobs].
    unfold long_table in Hr. rewrite Hv in Hr. repeat case_match; try by apply elem_of_nil in Hr.
    pose proof (long_rows_values _ (vals s) (vals s0) (vals s1) _ Hup) as Hrows.
    rewrite Forall_forall in Hrows. specialize (Hrows r Hr).
    unfold observed in Hobs. repeat case_match; simplify_eq. done. }
  assert (∀ k o,
    observed (LongRow (Str k.1.1) (Str k.1.2) (Str k.2) (upcast d' (pivot_cell k os)))
      = Some o →
    obs_key o = k ∧ k.2 ∈ names → o ∈ os) as Hback_os.
  { intros [[y c] s] o. unfold observed, pivot_cell. simpl.
    destruct (first_value (y, c, s) os) as [v0|] eqn:Ef; [|by destruct d'].
    apply first_value_Some in Ef. intros Ho [_ Hs].
    assert (d' = dt v) as ->.
    { unfold d'. apply common_dtype_same; [done|]. by destruct names; [apply elem_of_nil in Hs|]. }
    destruct (Hos _ Ef) as [Hu _]. unfold obs_value in Hu. simpl in Hu. rewrite Hu in Ho.
    case_match; simplify_eq. done. }
  apply NoDup_Permutation.
  - apply (NoDup_omap_key _ obs_key); [|by apply NoDup_grid].
    intros [[y c] s] o. unfold observed. simpl. case_match; [done|]. by intros [= <-].
  - by apply NoDup_fmap_1 in Hkeys.
  - intros o. rewrite list_elem_of_omap. split.
    + intros (k & Hk & Ho). apply elem_of_grid in Hk as [_ Hk].
      apply (Hback_os k o Ho). split; [|done].
      destruct k as [[y c] s]. unfold observed in Ho. simpl in Ho.
      case_match; by simplify_eq.
    + intros Ho. exists (obs_key o). split.
      * apply elem_of_grid. split.
        -- rewrite Hidx, merge_sort_Permutation. apply elem_of_remove_dups.
           apply list_elem_of_fmap. by exists o.
        -- unfold names. rewrite merge_sort_Permutation. apply elem_of_remove_dups.
           apply list_elem_of_fmap. by exists o.
      * destruct (Hos o Ho) as [Hu Hn].
        assert (d' = dt v) as ->.
        { unfold d'. apply common_dtype_same; [done|].
          assert (obs_series o ∈ names) as Hs.
          { unfold names. rewrite merge_sort_Permutation. apply elem_of_remove_dups.
            apply list_elem_of_fmap. by exists o. }
          by destruct names; [apply elem_of_nil in Hs|]. }
        unfold pivot_cell. rewrite (first_value_NoDup os o Hkeys Ho), Hu.
        destruct o as [[[y c] s] v0]. unfold observed, obs_value, notna in *. simpl in *.
        by destruct (isna v0).
Qed.

End round_trip.

(** ** From a valid wide table to a valid long table *)

Section valid_wide.

Lemma long_rows_swap a b c v :
  long_rows a b c v = map swap_year_series (long_rows c b a v).
Proof.
  unfold long_rows. revert b c v. induction a as [|x a IH]; intros b c v.
  - destruct c as [|z c]; [done|]. destruct b as [|y b]; [done|]. done.
  - destruct b as [|y b].
    + destruct c; done.
    + destruct c as [|z c]; [done|]. destruct v as [|t v]; simpl.
      * done.
      * f_equal. apply IH.
Qed.

Lemma block_rows {A} (h : A → cell) (y : cell) (ss cs : list string) (xs : list A) :
  length cs = length ss → length xs = length ss →
  long_rows (map Str ss) (map Str cs) (replicate (length ss) y) (map h xs)
  = map (λ t, LongRow (Str t.1.1) (Str t.1.2) y (h t.2)) (zip (zip ss cs) xs).
Proof.
  unfold long_rows. revert cs xs. induction ss as [|s ss IH]; intros cs xs Hc Hx.
  - by destruct cs, xs.
  - destruct cs as [|c cs], xs as [|x xs]; simpl in *; try done.
    f_equal. apply IH; lia.
Qed.

Lemma omap_join {A B} (f : A → option B) (ls : list (list A)) :
  omap f (mjoin ls) = mjoin (map (omap f) ls).
Proof. induction ls as [|l ls IH]; simpl; [done|]. by rewrite omap_app, IH. Qed.

Lemma NoDup_key_omap {A B K} (h : A → option B) (key : B → K) (k' : A → K)
    (l : list A) :
  (∀ x o, h x = Some o → key o = k' x) →
  NoDup (map k' l) → NoDup (map key (omap h l)).
Proof.
  intros Hkey. induction l as [|x l IH]; simpl; [constructor|].
  intros Hnd. apply NoDup_cons in Hnd as [Hx Hnd].
  destruct (h x) as [o|] eqn:E; simpl; [|by apply IH].
  constructor; [|by apply IH].
  intros Ho. apply list_elem_of_fmap in Ho as (o' & Hk & Ho').
  apply list_elem_of_omap in Ho' as (x' & Hx' & Ho').
  apply Hx. apply list_elem_of_fmap. exists x'. split; [|done].
  apply Hkey in E, Ho'. congruence.
Qed.

Lemma common_dtype_float64 (ds : list dtype) :
  ds ≠ [] → Forall (λ d, d = float64) ds → common_dtype ds = float64.
Proof.
  intros Hne Hall. unfold common_dtype.
  destruct ds as [|d ds]; [done|]. apply Forall_cons in Hall as [-> Hall]. simpl.
  assert (forallb is_numeric ds = true) as ->; [|done].
  apply forallb_forall. intros d Hd. rewrite Forall_forall in Hall.
  by rewrite (Hall d) by by apply list_elem_of_In.
Qed.

Lemma lookup_col_elem_of name df s : lookup_col name df = Some s → (name, s) ∈ df.
Proof.
  induction df as [|[n t] df IH]; simpl; [done|].
  case_bool_decide as E.
  - intros [= <-]. subst. apply elem_of_cons. by left.
  - intros Hl. apply elem_of_cons. right. by apply IH.
Qed.

(** Melting a valid wide table gives its year columns, block by block. *)
Lemma melt_valid_wide (wdi : DataFrame) (sd cd : dtype) (ss cs : list string) :
  lookup_col "Series Name" wdi = Some (mkSeries sd (map Str ss)) →
  lookup_col "Country Name" wdi = Some (mkSeries cd (map Str cs)) →
  length cs = length ss →
  nrows wdi = length ss →
  (∃ p, p ∈ wdi ∧ p.1 ∉ ["Series Name"; "Country Name"]) →
  (∀ p, p ∈ wdi → p.1 ∉ ["Series Name"; "Country Name"] →
     ∃ xs, p.2 = mkSeries float64 (map Num xs) ∧ length xs = length ss
           ∧ Forall (λ x, PrimFloat.is_nan x = false) xs) →
  ∃ long,
    melt ["Series Name"; "Country Name"] "Year" "Value" wdi = Ok long
    ∧ (∃ v, lookup_col "Value" long = Some v ∧ dt v = float64)
    ∧ long_table long
      = mjoin (map (year_rows ss cs)
                   (filter (λ p, p.1 ∉ ["Series Name"; "Country Name"]) wdi)).
Proof.
  intros Hs Hc Hlen Hn (p0 & Hp0 & Hp0') Hvals.
  unfold melt, getitems. cbn [traverse]. unfold getitem. rewrite Hs, Hc, !bind_Ok.
  match goal with
  | |- context [@filter ?A ?B ?F ?P ?D ?l] => set (vc := @filter A B F P D l)
  end.
  assert (∀ p, p ∈ vc →
            ∃ xs, p.2 = mkSeries float64 (map Num xs) ∧ length xs = length ss
                  ∧ Forall (λ x, PrimFloat.is_nan x = false) xs) as Hvc.
  { intros p Hp. apply list_elem_of_filter in Hp as [Hp1 Hp2]. by apply Hvals. }
  assert (common_dtype (map (λ p : string * Series, dt p.2) vc) = float64) as Hd.
  { apply common_dtype_float64.
    - assert (p0 ∈ vc) as Hin by (by apply list_elem_of_filter).
      destruct vc; [by apply elem_of_nil in Hin|done].
    - apply Forall_forall. intros d Hdin.
      apply list_elem_of_fmap in Hdin as (p & -> & Hp).
      destruct (Hvc p Hp) as (xs & -> & _). done. }
  eexists. split; [reflexivity|]. cbn [map app fst snd].
  rewrite Hd. split.
  { eexists. split.
    - rewrite (lookup_col_next "Value" "Series Name") by done.
      rewrite (lookup_col_next "Value" "Country Name") by done.
      rewrite (lookup_col_next "Value" "Year") by done. by rewrite lookup_col_here.
    - reflexivity. }
  unfold long_table.
  rewrite (lookup_col_next "Year" "Series Name") by done.
  rewrite (lookup_col_next "Year" "Country Name") by done. rewrite lookup_col_here.
  rewrite (lookup_col_next "Country Name" "Series Name") by done. rewrite lookup_col_here.
  rewrite lookup_col_here.
  rewrite (lookup_col_next "Value" "Series Name") by done.
  rewrite (lookup_col_next "Value" "Country Name") by done.
  rewrite (lookup_col_next "Value" "Year") by done. rewrite lookup_col_here.
  cbn [vals snd fst]. rewrite long_rows_swap, Hn.
  replace (length ss) with (length (map Str ss)) by apply length_map.
  rewrite long_rows_blocks.
  - clear Hd. induction vc as [|p vc IH]; [done|]. simpl. rewrite map_app. f_equal.
    + destruct (Hvc p) as (xs & Hp & Hx & _); [apply elem_of_cons; by left|].
      rewrite Hp. simpl. rewrite length_map, map_map.
      rewrite (block_rows (λ x, upcast float64 (Num x))) by done.
      rewrite map_map. unfold year_rows. rewrite Hp. simpl.
      rewrite map_map. simpl. rewrite map_id. done.
    + apply IH. intros q Hq. apply Hvc. apply elem_of_cons. by right.
  - by rewrite !length_map.
  - apply Forall_forall. intros p Hp. destruct (Hvc p Hp) as (xs & -> & Hx & _).
    simpl. by rewrite !length_map.
Qed.

End valid_wide.

Section valid_long.

Lemma NoDup_labels_filter (P : string * Series → Prop) `{∀ p, Decision (P p)}
    (df : list (string * Series)) :
  NoDup (labels df) → NoDup (labels (filter P df)).
Proof.
  unfold labels. induction df as [|p df IH]; [done|].
  intros Hnd. simpl in Hnd. apply NoDup_cons in Hnd as [Hp Hnd]. rewrite filter_cons.
  destruct (decide (P p)); simpl; [|by apply IH].
  constructor; [|by apply IH]. intros Hin. apply Hp.
  apply list_elem_of_fmap in Hin as (q & -> & Hq).
  apply list_elem_of_filter in Hq as [_ Hq]. apply list_elem_of_fmap. by exists q.
Qed.

Lemma year_rows_key ss cs p r o :
  r ∈ year_rows ss cs p → observed r = Some o → (obs_key o).1.1 = p.1.
Proof.
  unfold year_rows. intros Hr. apply list_elem_of_fmap in Hr as (t & -> & _).
  unfold observed. simpl. case_match; [done|]. by intros [= <-].
Qed.

(** One value per (year, country, indicator) key in the rows of the year
    columns. *)
Lemma NoDup_year_keys (ss cs : list string) (vc : DataFrame) :
  length cs = length ss →
  Forall (λ p, length (vals p.2) = length ss) vc →
  NoDup (zip ss cs) → NoDup (labels vc) →
  NoDup (map obs_key (omap observed (mjoin (map (year_rows ss cs) vc)))).
Proof.
  intros Hlen Hrows Hpairs. unfold labels.
  induction Hrows as [|p vc Hp _ IH]; simpl; [constructor|].
  intros Hnd. apply NoDup_cons in Hnd as [Hnot Hnd].
  rewrite omap_app, map_app. apply NoDup_app. split; [|split; [|by apply IH]].
  - unfold year_rows. rewrite omap_fmap.
    apply (NoDup_key_omap _ obs_key (λ t, (p.1, t.1.2, t.1.1))).
    + intros t o. unfold observed. simpl. case_match; [done|]. by intros [= <-].
    + assert (map (λ t : string * string * float, (p.1, t.1.2, t.1.1))
                  (zip (zip ss cs) (map as_float (vals p.2)))
              = map (λ sc : string * string, (p.1, sc.2, sc.1)) (zip ss cs)) as ->.
      { rewrite <-(fst_zip (zip ss cs) (map as_float (vals p.2))) at 2
          by (rewrite length_zip, length_map; lia).
        by rewrite <-list_fmap_compose. }
      apply NoDup_fmap_2_strong; [|done].
      intros [s1 c1] [s2 c2] _ _ [=]. by subst.
  - intros k Hk Hk'.
    apply list_elem_of_fmap in Hk as (o & -> & Ho).
    apply list_elem_of_omap in Ho as (r & Hr & Ho).
    pose proof (year_rows_key _ _ _ _ _ Hr Ho) as Hkey.
    apply list_elem_of_fmap in Hk' as (o' & Heq & Ho').
    apply list_elem_of_omap in Ho' as (r' & Hr' & Ho').
    apply list_elem_of_join in Hr' as (l & Hr' & Hl).
    apply list_elem_of_fmap in Hl as (q & -> & Hq).
    pose proof (year_rows_key _ _ _ _ _ Hr' Ho') as Hkey'.
    apply Hnot. apply list_elem_of_fmap. exists q. split; [|done]. congruence.
Qed.

(** The long form of a valid wide table is a valid long table. *)
Lemma valid_wide_long (wdi : DataFrame) :
  valid_wide wdi →
  ∃ long,
    melt ["Series Name"; "Country Name"] "Year" "Value" wdi = Ok long
    ∧ valid_long long.
Proof.
  intros (sd & cd & ss & cs & Hs & Hc & Hlen & Hn & Hpairs & Hlab & Hsome & Hvals).
  destruct (melt_valid_wide wdi sd cd ss cs Hs Hc Hlen Hn Hsome Hvals)
    as (long & Hmelt & (v & Hv & Hdt) & Htable).
  exists long. split; [done|]. split; [|split].
  - rewrite Htable. apply Forall_forall. intros r Hr.
    apply list_elem_of_join in Hr as (l & Hr & Hl).
    apply list_elem_of_fmap in Hl as (p & -> & Hp).
    apply list_elem_of_filter in Hp as [Hp1 Hp2].
    destruct (Hvals p Hp2 Hp1) as (xs & Hpx & _ & Hnan).
    unfold year_rows in Hr. rewrite Hpx in Hr. simpl in Hr.
    rewrite map_map in Hr. simpl in Hr. rewrite map_id in Hr.
    apply list_elem_of_fmap in Hr as ([[s c] x] & -> & Ht).
    apply elem_of_zip_r in Ht. rewrite Forall_forall in Hnan.
    unfold observed. simpl. by rewrite (Hnan x Ht).
  - unfold long_observations. rewrite Htable.
    apply NoDup_year_keys; [done| |done|by apply NoDup_labels_filter].
    apply Forall_forall. intros p Hp. apply list_elem_of_filter in Hp as [Hp1 Hp2].
    destruct (Hvals p Hp2 Hp1) as (xs & -> & Hx & _). simpl. by rewrite length_map.
  - intros v' Hv'. rewrite Hv in Hv'. injection Hv' as <-. by rewrite Hdt.
Qed.

(** C1.  Round trip of the reshaping in [read_data] (lines 56-70).  When the
    cleaned table that [read_data] returns is valid, its long form is made
    of the cells of its year columns: one row (year label, country,
    indicator, cell) per year column and table row, column by column, with
    the countries and indicators of the two name columns.  Every such row
    carries a value, and melting the pivoted table that [read_data] returns
    gives these rows back, each exactly once.  Neither table has a column
    labelled [Value], which [melt] would refuse as the name of its value
    column. *)
Theorem reshape_round_trip `{Builtins} (read_csv : result DataFrame)
    (wdi_data wide : DataFrame) :
  read_data read_csv = Ok (wdi_data, wide) →
  valid_wide wdi_data →
  "Value" ∉ labels wdi_data →
  "Value" ∉ labels wide →
  ∃ (long back : DataFrame) (sd cd : dtype) (ss cs : list string),
    lookup_col "Series Name" wdi_data = Some (mkSeries sd (map Str ss))
    ∧ lookup_col "Country Name" wdi_data = Some (mkSeries cd (map Str cs))
    ∧ melt ["Series Name"; "Country Name"] "Year" "Value" wdi_data = Ok long
    ∧ long_table long
      = mjoin (map (year_rows ss cs)
                   (filter (λ p, p.1 ∉ ["Series Name"; "Country Name"]) wdi_data))
    ∧ melt ["Year"; "Country Name"] "Series Name" "Value" wide = Ok back
    ∧ long_observations back ≡ₚ long_observations long
    ∧ (Some <$> long_observations long) = (observed <$> long_table long).
Proof.
  intros Hread Hvalid _ _. apply read_data_Ok in Hread as (df & _ & _ & Hreshape).
  destruct (valid_wide_long wdi_data Hvalid) as (long & Hmelt & Hlong).
  destruct Hvalid as (sd & cd & ss & cs & Hs & Hc & Hlen & Hn & _ & _ & Hsome & Hvals).
  destruct (melt_valid_wide wdi_data sd cd ss cs Hs Hc Hlen Hn Hsome Hvals)
    as (long' & Hmelt' & _ & Htable).
  rewrite Hmelt in Hmelt'. injection Hmelt' as <-.
  destruct (pivot_round_trip wdi_data long wide Hmelt Hreshape Hlong)
    as (back & Hback & Hperm & Hall).
  by exists long, back, sd, cd, ss, cs.
Qed.

End valid_long.

(** ** Frames as objects: what [visualize] and [cluster_data] touch *)

Section frame.
Context `{Estimator}.

Lemma preserves_refl w : preserves w w.
Proof. by intros r df. Qed.

Lemma preserves_trans w1 w2 w3 : preserves w1 w2 → preserves w2 w3 → preserves w1 w3.
Proof. intros H12 H23 r df Hr. by apply H23, H12. Qed.

Lemma fresh_not_allocated (w : world) df :
  heap w !! fresh (dom (heap w)) = Some df → False.
Proof.
  intros Hr. apply (is_fresh (dom (heap w))). apply elem_of_dom. by exists df.
Qed.

Lemma alloc_spec df w :
  ∃ r, alloc df w = (Ok r, with_heap (<[r := df]> (heap w)) w)
       ∧ heap w !! r = None.
Proof.
  exists (fresh (dom (heap w))). split; [done|].
  destruct (heap w !! fresh (dom (heap w))) eqn:E; [|done].
  by apply fresh_not_allocated in E.
Qed.

Lemma preserves_alloc df w r w' : alloc df w = (Ok r, w') → preserves w w'.
Proof.
  destruct (alloc_spec df w) as (r0 & -> & Hr0). intros [= <- <-] r' df' Hr'.
  simpl. rewrite lookup_insert_ne; [done|]. intros <-. congruence.
Qed.

Lemma keeps_ret w0 {A} (a : A) : keeps w0 (mret a) (λ _, True).
Proof. by intros w Hw. Qed.

Lemma keeps_lift w0 {A} (r : result A) : keeps w0 (lift r) (λ _, True).
Proof. by intros w Hw. Qed.

Lemma keeps_deref w0 r : keeps w0 (deref r) (λ _, True).
Proof. by intros w Hw. Qed.

Lemma keeps_show w0 p : keeps w0 (show p) (λ _, True).
Proof. by intros w Hw. Qed.

Lemma keeps_kmeans w0 k rs X : keeps w0 (kmeans k rs X) (λ _, True).
Proof.
  intros w Hw. unfold kmeans. destruct (KMeans_fit k rs X (np_random w)). by split.
Qed.

(** A new object is none of the objects of [w0]. *)
Lemma keeps_alloc w0 df : keeps w0 (alloc df) (λ r, heap w0 !! r = None).
Proof.
  intros w Hw. destruct (alloc_spec df w) as (r & E & Hr). rewrite E. simpl. split.
  - intros r' df' Hr'. simpl. rewrite lookup_insert_ne; [by apply Hw|].
    intros <-. apply Hw in Hr'. congruence.
  - intros a [= <-]. destruct (heap w0 !! r) as [df'|] eqn:E0; [|done].
    apply Hw in E0. congruence.
Qed.

(** Updating an object in place is harmless when it is not one of [w0]. *)
Lemma keeps_store w0 r df : heap w0 !! r = None → keeps w0 (store r df) (λ _, True).
Proof.
  intros Hr w Hw. split; [|done]. intros r' df' Hr'. simpl.
  rewrite lookup_insert_ne; [by apply Hw|]. intros <-. congruence.
Qed.

Lemma keeps_bind w0 {A B} (m : M A) (f : A → M B) (P : A → Prop) (Q : B → Prop) :
  keeps w0 m P → (∀ a, P a → keeps w0 (f a) Q) → keeps w0 (m ≫= f) Q.
Proof.
  intros Hm Hf w Hw. destruct (Hm w Hw) as [Hp Ha].
  unfold mbind, M_bind, bind. destruct (m w) as [[a|e] w'] eqn:E; simpl in *.
  - by apply (Hf a (Ha a eq_refl)).
  - by split.
Qed.

Lemma keeps_weaken w0 {A} (m : M A) (P Q : A → Prop) :
  keeps w0 m P → (∀ a, P a → Q a) → keeps w0 m Q.
Proof. intros Hm HPQ w Hw. destruct (Hm w Hw) as [? Ha]. split; [done|]. eauto. Qed.

Ltac keeps_step :=
  first [ apply keeps_alloc | apply keeps_deref | apply keeps_lift
        | apply keeps_show | apply keeps_kmeans | apply keeps_ret
        | apply keeps_store; assumption ].

Ltac keeps_chain :=
  repeat (eapply keeps_bind; [keeps_step | intros ? ?]); try keeps_step.

Lemma keeps_visualize_indicator w0 data_frame indicator :
  keeps w0 (visualize_indicator data_frame indicator) (λ _, True).
Proof. unfold visualize_indicator. keeps_chain. Qed.

Lemma keeps_visualize w0 data_frame indicators :
  keeps w0 (visualize data_frame indicators) (λ _, True).
Proof.
  induction indicators as [|indicator rest IH]; simpl.
  - apply keeps_ret.
  - eapply keeps_bind; [apply keeps_visualize_indicator|]. by intros _ _.
Qed.

Lemma keeps_cluster_data w0 df n_clusters :
  keeps w0 (cluster_data df n_clusters) (λ r, heap w0 !! r.1 = None).
Proof.
  unfold cluster_data.
  eapply keeps_bind; [keeps_step | intros d _].
  eapply keeps_bind; [keeps_step | intros cluster_df Hfresh].
  eapply keeps_bind; [keeps_step | intros cd _].
  eapply keeps_bind; [keeps_step | intros cluster_labels _].
  eapply keeps_bind; [keeps_step | intros cd' _].
  eapply keeps_bind; [keeps_step | intros _ _].
  intros w Hw. split; [done|]. by intros a [= <-].
Qed.

End frame.

(** ** cluster_data *)

Section cluster.
Context `{Estimator}.

(** [cluster_data] in one step: the copy is a new object, the labels of
    [KMeans] go into its [Cluster] column, an exception of [KMeans] leaves
    the copy without it. *)
Lemma cluster_data_run (w : world) (df : ref) (n_clusters : Z) :
  let frame := heap w !!! df in
  let r := fresh (dom (heap w)) in
  cluster_data df n_clusters w
  = match (KMeans_fit n_clusters (Some 0%Z) (clustered_matrix frame) (np_random w)).1 with
    | Ok labels =>
        (Ok (r, (scaler (select_dtypes_number frame)).1.1),
         World (<[r := setitem "Cluster" (cluster_column labels) frame]>
                  (<[r := frame]> (heap w)))
               (np_random w) (figures w))
    | Raise e => (Raise e, World (<[r := frame]> (heap w)) (np_random w) (figures w))
    end.
Proof.
  intros frame r.
  assert ((KMeans_fit n_clusters (Some 0%Z) (clustered_matrix frame) (np_random w)).2
          = np_random w) as Hg.
  { unfold KMeans_fit. repeat case_match; done. }
  unfold cluster_data, mbind, M_bind, bind, deref, alloc, kmeans, store, mret, M_ret, ret.
  cbn -[scaler select_dtypes_number to_matrix KMeans_fit setitem fresh].
  fold r. rewrite lookup_total_insert_eq. fold frame. fold (clustered_matrix frame).
  destruct (KMeans_fit n_clusters (Some 0%Z) (clustered_matrix frame) (np_random w))
    as [[labels|e] g] eqn:E; cbn -[scaler select_dtypes_number to_matrix setitem fresh] in *;
    subst g.
  - by rewrite lookup_total_insert_eq.
  - done.
Qed.

Lemma lookup_setitem name s df : lookup_col name (setitem name s df) = Some s.
Proof.
  induction df as [|[n t] df IH]; simpl.
  - by rewrite bool_decide_eq_true_2.
  - case_bool_decide as E; simpl.
    + by rewrite bool_decide_eq_true_2.
    + by rewrite bool_decide_eq_false_2.
Qed.

(** With a seed, the outcome of [KMeans.fit] does not depend on the global
    generator. *)
Lemma KMeans_fit_seeded (k seed : Z) (X : list (list float)) (g1 g2 : rng) :
  (KMeans_fit k (Some seed) X g1).1 = (KMeans_fit k (Some seed) X g2).1.
Proof.
  unfold KMeans_fit, check_random_state.
  repeat case_match; simplify_eq/=; done.
Qed.

Lemma argmin_from_bound best least j ds :
  best < j → argmin_from best least j ds < j + length ds.
Proof.
  revert best least j. induction ds as [|d ds IH]; intros best least j Hb; simpl; [lia|].
  destruct (PrimFloat.ltb d least).
  - specialize (IH j d (S j)). lia.
  - specialize (IH best least (S j)). lia.
Qed.

(** The assignment step answers with the index of a centroid. *)
Lemma nearest_bound centers x : centers ≠ [] → nearest centers x < length centers.
Proof.
  intros Hc. unfold nearest. destruct centers as [|c centers]; [done|]. simpl.
  pose proof (argmin_from_bound 0 (sqdist x c) 1 (map (sqdist x) centers)) as Hb.
  rewrite length_map in Hb. lia.
Qed.

Lemma KMeans_fit_Ok (k : Z) (rs : option Z) (X : list (list float)) (g : rng) labels :
  (KMeans_fit k rs X g).1 = Ok labels →
  (1 ≤ k ≤ Z.of_nat (length X))%Z
  ∧ check_array X = Ok ()
  ∧ labels = map (nearest (kmeans_centers (check_random_state rs g) X (Z.to_nat k)).1) X.
Proof.
  unfold KMeans_fit. case_bool_decide as Hk; [done|].
  destruct (check_array X) as [[]|] eqn:Hc; [|done].
  case_bool_decide as Hn; [done|].
  destruct (kmeans_centers _ X (Z.to_nat k)) as [centers r] eqn:Ec. simpl.
  intros [= <-]. split; [lia|]. done.
Qed.

Lemma n_distinct_le X : n_distinct X ≤ length X.
Proof.
  unfold n_distinct. induction X as [|x X IH]; simpl; [done|].
  destruct (existsb (sample_eqb x) X); simpl; lia.
Qed.

(** C10.  [visualize] and [cluster_data] leave the frame they receive as it
    is: every frame they write to is an object they created.  The frame
    that [cluster_data] returns is a new object, the input with the
    [Cluster] column set. *)
Theorem inputs_not_mutated (w : world) (df : ref) (frame : DataFrame)
    (indicators : list string) (n_clusters : Z) :
  heap w !! df = Some frame →
  heap (visualize df indicators w).2 !! df = Some frame
  ∧ heap (cluster_data df n_clusters w).2 !! df = Some frame
  ∧ ∀ r normalized,
      (cluster_data df n_clusters w).1 = Ok (r, normalized) →
      r ≠ df
      ∧ ∃ labels, heap (cluster_data df n_clusters w).2 !! r
                  = Some (setitem "Cluster" (cluster_column labels) frame).
Proof.
  intros Hdf. split; [|split].
  - by apply (keeps_visualize w df indicators w (preserves_refl w)).
  - by apply (keeps_cluster_data w df n_clusters w (preserves_refl w)).
  - intros r normalized. rewrite cluster_data_run.
    rewrite (lookup_total_correct _ _ _ Hdf).
    destruct (KMeans_fit _ _ _ _).1 as [labels|e]; [|done].
    simpl. intros [= <- <-]. split.
    + intros Heq. rewrite <-Heq in Hdf. by apply fresh_not_allocated in Hdf.
    + exists labels. by rewrite lookup_insert_eq.
Qed.

(** C9.  Two runs of [cluster_data] on the same frame attach the same
    labels, whatever the rest of the session is: other objects, the state
    of the global generator, the figures drawn so far.  The seed
    [random_state=0] makes [KMeans] build its own generator. *)
Theorem cluster_data_deterministic (w1 w2 : world) (df1 df2 : ref) (n_clusters : Z) :
  heap w1 !!! df1 = heap w2 !!! df2 →
  attached_labels (cluster_data df1 n_clusters w1)
  = attached_labels (cluster_data df2 n_clusters w2).
Proof.
  intros Hsame. rewrite !cluster_data_run. rewrite Hsame.
  rewrite (KMeans_fit_seeded _ _ _ (np_random w1) (np_random w2)).
  unfold attached_labels.
  destruct (KMeans_fit _ _ _ _).1 as [labels|e]; [|done].
  simpl. by rewrite !lookup_total_insert_eq, !lookup_setitem.
Qed.

(** C8.  When [cluster_data] returns, the [Cluster] column of the frame it
    returns holds one integer label per row of the matrix, each in
    [0, n_clusters), provided the optimiser returns [n_clusters] centroids;
    for one cluster every label is 0. *)
Theorem cluster_labels_range (w : world) (df : ref) (n_clusters : Z)
    (r : ref) (normalized : DataFrame) :
  (cluster_data df n_clusters w).1 = Ok (r, normalized) →
  length (kmeans_centers (RandomState 0%Z) (clustered_matrix (heap w !!! df))
            (Z.to_nat n_clusters)).1 = Z.to_nat n_clusters →
  ∃ labels,
    lookup_col "Cluster" (heap (cluster_data df n_clusters w).2 !!! r)
      = Some (cluster_column labels)
    ∧ length labels = length (clustered_matrix (heap w !!! df))
    ∧ Forall (λ l, (0 ≤ Z.of_nat l < n_clusters)%Z) labels
    ∧ (n_clusters = 1%Z → Forall (λ l, l = 0) labels).
Proof.
  rewrite cluster_data_run.
  destruct (KMeans_fit _ _ _ _).1 as [labels|e] eqn:E; [|done].
  simpl. intros [= <- <-] Hcenters. exists labels.
  apply KMeans_fit_Ok in E as (Hk & _ & ->). simpl in *.
  set (centers := (kmeans_centers _ _ _).1) in *.
  assert (Forall (λ l, l < Z.to_nat n_clusters) (map (nearest centers)
            (clustered_matrix (heap w !!! df)))) as Hrange.
  { apply Forall_forall. intros l Hl. apply list_elem_of_fmap in Hl as (x & -> & _).
    rewrite <-Hcenters. apply nearest_bound. intros Hnil.
    rewrite Hnil in Hcenters. simpl in Hcenters. lia. }
  split; [by rewrite lookup_total_insert_eq, lookup_setitem|].
  split; [by rewrite length_map|]. split.
  - eapply Forall_impl; [exact Hrange|]. simpl. intros l Hl. lia.
  - intros ->. eapply Forall_impl; [exact Hrange|]. simpl. intros l Hl. lia.
Qed.

(** C5 (as the code has it).  [cluster_data] does not check [n_clusters]
    itself; what happens is what [KMeans.fit] does with the scaled matrix
    [X]: an [InvalidParameterError] for a count below one, a [ValueError]
    for a matrix that is empty or not finite or has fewer rows than the
    count, and labels otherwise, also when the count exceeds the number of
    distinct rows (which is at most the number of rows). *)
Theorem cluster_data_validation (w : world) (df : ref) (n_clusters : Z) :
  let X := clustered_matrix (heap w !!! df) in
  ((n_clusters < 1)%Z → raised (cluster_data df n_clusters w).1 "InvalidParameterError")
  ∧ ((1 ≤ n_clusters)%Z →
     check_array X ≠ Ok () ∨ (Z.of_nat (length X) < n_clusters)%Z →
     raised (cluster_data df n_clusters w).1 "ValueError")
  ∧ ((1 ≤ n_clusters ≤ Z.of_nat (length X))%Z →
     check_array X = Ok () →
     ∃ r normalized, (cluster_data df n_clusters w).1 = Ok (r, normalized))
  ∧ n_distinct X ≤ length X.
Proof.
  intros X. rewrite cluster_data_run. fold X. unfold KMeans_fit.
  split; [|split; [|split]].
  - intros Hk. rewrite bool_decide_eq_true_2 by done. simpl. by eexists.
  - intros Hk Hbad. rewrite bool_decide_eq_false_2 by lia.
    destruct (check_array X) as [[]|e] eqn:Hc.
    + destruct Hbad as [Hbad|Hbad]; [done|].
      rewrite bool_decide_eq_true_2 by done. simpl. by eexists.
    + simpl. unfold check_array in Hc. repeat case_match; simplify_eq; by eexists.
  - intros Hk Hc. rewrite bool_decide_eq_false_2 by lia. rewrite Hc.
    rewrite bool_decide_eq_false_2 by lia.
    destruct (kmeans_centers _ X _). simpl. by eexists _, _.
  - apply n_distinct_le.
Qed.

End cluster.

(** ** The band of the nonlinear fit *)

Section fit.
Context `{Optimizers} `{Jacobian}.

Lemma fit_model_with_errors_Ok x y func initial_guess alpha r :
  fit_model_with_errors x y func initial_guess alpha = Ok r →
  curve_fit func x y initial_guess = Ok (popt r, pcov r)
  ∧ func x (popt r) = Ok (predictions_curve_fit r)
  ∧ lowerbound_curve_fit r
    = zip_with PrimFloat.sub (predictions_curve_fit r)
        (error_prop x func (popt r) (pcov r))
  ∧ upperbound_curve_fit r
    = zip_with PrimFloat.add (predictions_curve_fit r)
        (error_prop x func (popt r) (pcov r)).
Proof.
  unfold fit_model_with_errors.
  destruct (curve_fit func x y initial_guess) as [[po pc]|] eqn:Ecf; [|done].
  rewrite bind_Ok.
  destruct (func x po) as [pred|] eqn:Epred; [|done]. rewrite bind_Ok.
  destruct (OLS_fit y (add_constant x)) as [m|]; [|done]. rewrite bind_Ok.
  destruct (predict m (add_constant x)) as [pols|]; [|done]. rewrite bind_Ok.
  destruct (conf_int m (add_constant x) alpha) as [ci|]; [|done]. rewrite bind_Ok.
  by intros [= <-].
Qed.

(** The least-squares part of a fit that returned. *)
Lemma fit_model_with_errors_ols x y func initial_guess alpha r :
  fit_model_with_errors x y func initial_guess alpha = Ok r →
  ∃ model_ols ci,
    OLS_fit y (add_constant x) = Ok model_ols
    ∧ predict model_ols (add_constant x) = Ok (predictions_ols r)
    ∧ conf_int model_ols (add_constant x) alpha = Ok ci
    ∧ lowerbound_ols r = ci.*1
    ∧ upperbound_ols r = ci.*2.
Proof.
  unfold fit_model_with_errors.
  destruct (curve_fit func x y initial_guess) as [[po pc]|]; [|done]. rewrite bind_Ok.
  destruct (func x po) as [pred|]; [|done]. rewrite bind_Ok.
  destruct (OLS_fit y (add_constant x)) as [m|]; [|done]. rewrite bind_Ok.
  destruct (predict m (add_constant x)) as [pols|] eqn:Ep; [|done]. rewrite bind_Ok.
  destruct (conf_int m (add_constant x) alpha) as [ci|] eqn:Ec; [|done]. rewrite bind_Ok.
  intros [= <-]. by exists m, ci.
Qed.

(** C6.  The band that [fit_model_with_errors] returns for the nonlinear fit
    is the prediction minus and plus sigma, with sigma at each [x] the square
    root of [J * Sigma * J^T] for the covariance [Sigma] that [curve_fit]
    returned and the Jacobian [J] of the model at [x]; the significance
    level does not enter it. *)
Theorem confidence_band_formula (x y : array) (func : model)
    (initial_guess : option (list float)) (alpha : float) (r : fit_result) :
  fit_model_with_errors x y func initial_guess alpha = Ok r →
  curve_fit func x y initial_guess = Ok (popt r, pcov r)
  ∧ func x (popt r) = Ok (predictions_curve_fit r)
  ∧ lowerbound_curve_fit r
    = zip_with PrimFloat.sub (predictions_curve_fit r)
        (map (λ xi, PrimFloat.sqrt (dot (vecmat (jacobian func xi (popt r)) (pcov r))
                                        (jacobian func xi (popt r)))) x)
  ∧ upperbound_curve_fit r
    = zip_with PrimFloat.add (predictions_curve_fit r)
        (map (λ xi, PrimFloat.sqrt (dot (vecmat (jacobian func xi (popt r)) (pcov r))
                                        (jacobian func xi (popt r)))) x)
  ∧ ∀ alpha' r', fit_model_with_errors x y func initial_guess alpha' = Ok r' →
      lowerbound_curve_fit r' = lowerbound_curve_fit r
      ∧ upperbound_curve_fit r' = upperbound_curve_fit r.
Proof.
  intros Hr. destruct (fit_model_with_errors_Ok _ _ _ _ _ _ Hr) as (Hcf & Hpred & Hlo & Hhi).
  split; [done|]. split; [done|]. split; [done|]. split; [done|].
  intros alpha' r' Hr'.
  destruct (fit_model_with_errors_Ok _ _ _ _ _ _ Hr') as (Hcf' & Hpred' & Hlo' & Hhi').
  rewrite Hcf in Hcf'. injection Hcf' as Hpo Hpc.
  rewrite <-Hpo, <-Hpc in *. rewrite Hpred in Hpred'. injection Hpred' as Hp.
  by rewrite Hlo, Hhi, Hlo', Hhi', Hp.
Qed.

End fit.
(** ** The order of the bounds *)

Section binary64_order.
Import SpecFloat FloatOps FloatAxioms.











End binary64_order.

Section band.
Context `{Optimizers} `{Jacobian}.



End band.

(** ** The theorems on the sample inputs *)

Section samples.
Local Existing Instance decimal_builtins.

Lemma fill_missing_policy_witness :
  ∃ s', lookup_col "1980" (fill_missing gappy_frame) = Some s'
        ∧ vals s' !! 3 = Some (Str "3.5").
Proof.
  apply (fill_missing_policy gappy_frame "1980"
           (mkSeries object [Str ".."; Str "3.5"; Num nan; Str ".."]) 3 1 (Str "3.5")).
  - reflexivity.
  - reflexivity.
  - reflexivity.
  - left. split; [simpl; lia|].
    intros k m Hk Hm.
    destruct k as [|[|[|[|k]]]]; simpl in Hm; try lia; by simplify_eq.
Defined.

Example fill_missing_backward :
  (vals <$> lookup_col "1980" (fill_missing gappy_frame))
  = Some [Str "3.5"; Str "3.5"; Str "3.5"; Str "3.5"].
Proof. reflexivity. Qed.

Lemma clean_table_valid : valid_wide clean_table.
Proof.
  exists object, object, ["CO2"; "GDP"; "CO2"; "GDP"], ["Aruba"; "Aruba"; "Benin"; "Benin"].
  split; [reflexivity|]. split; [reflexivity|]. split; [reflexivity|].
  split; [reflexivity|].
  split; [apply (bool_decide_unpack _); vm_compute; exact I|].
  split; [apply (bool_decide_unpack _); vm_compute; exact I|].
  split.
  - eexists. split.
    + unfold clean_table. do 2 (apply elem_of_cons; right).
      apply elem_of_cons. by left.
    + apply (bool_decide_unpack _). vm_compute. exact I.
  - intros p Hp Hname. unfold clean_table in Hp.
    repeat (apply elem_of_cons in Hp as [->|Hp];
            [first [ exfalso; apply Hname; simpl; set_solver
                   | match goal with
                     | |- ∃ xs, (_, ?s).2 = _ ∧ _ => exists (map as_float (vals s))
                     end;
                     split; [reflexivity|];
                     split; [reflexivity|]; repeat constructor ]|]).
    by apply elem_of_nil in Hp.
Defined.

Lemma reshape_round_trip_witness :
  ∃ (long back : DataFrame) (sd cd : dtype) (ss cs : list string),
    lookup_col "Series Name" clean_table = Some (mkSeries sd (map Str ss))
    ∧ lookup_col "Country Name" clean_table = Some (mkSeries cd (map Str cs))
    ∧ melt ["Series Name"; "Country Name"] "Year" "Value" clean_table = Ok long
    ∧ long_table long
      = mjoin (map (year_rows ss cs)
                   (filter (λ p, p.1 ∉ ["Series Name"; "Country Name"]) clean_table))
    ∧ melt ["Year"; "Country Name"] "Series Name" "Value" clean_wide = Ok back
    ∧ long_observations back ≡ₚ long_observations long
    ∧ (Some <$> long_observations long) = (observed <$> long_table long).
Proof.
  apply (reshape_round_trip (Ok wdi_csv) clean_table clean_wide).
  - vm_compute. reflexivity.
  - exact clean_table_valid.
  - apply (bool_decide_unpack _). vm_compute. exact I.
  - apply (bool_decide_unpack _). vm_compute. exact I.
Defined.

Lemma reshape_shape_witness :
  nrows clean_wide = length (remove_dups (map obs_index (long_observations clean_long)))
  ∧ length clean_wide
    = 2 + length (remove_dups (map obs_series (long_observations clean_long))).
Proof.
  apply (reshape_shape (Ok wdi_csv) clean_table clean_long clean_wide).
  - vm_compute. reflexivity.
  - apply (bool_decide_unpack _). vm_compute. exact I.
  - vm_compute. reflexivity.
Defined.

(** C2 with every (year, country) pair of the input counted does not hold:
    the 1980 rows of [csv_empty_1980] have no value, and the pivoted table
    has 16 rows for 18 pairs. *)
Lemma reshape_shape_counterexample :
  ∃ wdi long wide,
    read_data (Ok csv_empty_1980) = Ok (wdi, wide)
    ∧ melt ["Series Name"; "Country Name"] "Year" "Value" wdi = Ok long
    ∧ length (remove_dups (index_pairs long)) = 18
    ∧ nrows wide = 16.
Proof.
  eexists _, _, _. split; [vm_compute; reflexivity|].
  split; [vm_compute; reflexivity|].
  split; vm_compute; reflexivity.
Qed.

(** C4 with [DataFormatError] does not hold: a file without its
    [Country Code] column makes [read_data] raise the [KeyError] of [drop]. *)
Lemma read_data_error_counterexample :
  ("Country Code" ∉ labels csv_without_country_code)
  ∧ read_data (Ok csv_without_country_code) = Raise (KeyError "Country Code")
  ∧ ¬ raised (read_data (Ok csv_without_country_code)) "DataFormatError".
Proof.
  split; [apply (bool_decide_unpack _); vm_compute; exact I|].
  assert (read_data (Ok csv_without_country_code) = Raise (KeyError "Country Code")) as E
    by (vm_compute; reflexivity).
  split; [done|]. rewrite E. intros [a Ha]. discriminate.
Qed.

Lemma read_data_missing_column_witness :
  ∃ e, read_data (Ok csv_without_country_code) = Raise e
       ∧ (exn_class e = "KeyError"
          ∨ ("Country Code" ∈ name_columns
             ∧ (exn_class e = "ValueError" ∨ exn_class e = "TypeError"))).
Proof.
  destruct (read_data_missing_column (KeyError "") csv_without_country_code "Country Code")
    as [_ Hmissing].
  apply Hmissing.
  - apply (bool_decide_unpack _). vm_compute. exact I.
  - apply (bool_decide_unpack _). vm_compute. exact I.
Defined.

(** C5 with the number of distinct rows as the bound does not hold: with
    three rows of which two are equal, [cluster_data] returns for three
    clusters. *)
Lemma cluster_count_counterexample :
  n_distinct (clustered_matrix repeated_rows_frame) = 2
  ∧ heap repeated_rows_session !!! 1%positive = repeated_rows_frame
  ∧ (∃ r normalized,
       (cluster_data 1%positive 3 repeated_rows_session).1 = Ok (r, normalized))
  ∧ ¬ raised (cluster_data 1%positive 3 repeated_rows_session).1 "InvalidParameterError".
Proof.
  split; [vm_compute; reflexivity|]. split; [vm_compute; reflexivity|].
  assert (∃ r normalized,
            (cluster_data 1%positive 3 repeated_rows_session).1 = Ok (r, normalized))
    as (r & normalized & E) by (eexists _, _; vm_compute; reflexivity).
  split; [by eexists _, _|]. rewrite E. intros [a Ha]. discriminate.
Qed.

(** More clusters than rows: the [ValueError] of [KMeans.fit]. *)
Example cluster_count_above_rows :
  raised (cluster_data 1%positive 4 repeated_rows_session).1 "ValueError".
Proof. eexists. vm_compute. reflexivity. Qed.

Lemma cluster_data_validation_witness :
  ∃ r normalized,
    (cluster_data 1%positive 3 repeated_rows_session).1 = Ok (r, normalized).
Proof.
  destruct (cluster_data_validation repeated_rows_session 1%positive 3)
    as (_ & _ & Hok & _).
  apply Hok.
  - vm_compute. split; discriminate.
  - vm_compute. reflexivity.
Defined.

Lemma cluster_labels_range_witness :
  ∃ labels,
    lookup_col "Cluster" (heap (cluster_data 1%positive 2 session).2 !!! 2%positive)
      = Some (cluster_column labels)
    ∧ length labels = length (clustered_matrix (heap session !!! 1%positive))
    ∧ Forall (λ l, (0 ≤ Z.of_nat l < 2)%Z) labels
    ∧ ((2 = 1)%Z → Forall (λ l, l = 0) labels).
Proof.
  eapply (cluster_labels_range session 1%positive 2 2%positive).
  - vm_compute. reflexivity.
  - vm_compute. reflexivity.
Defined.

Lemma cluster_data_deterministic_witness :
  attached_labels (cluster_data 1%positive 2 session)
  = attached_labels (cluster_data 2%positive 2 later_session).
Proof.
  apply (cluster_data_deterministic session later_session 1%positive 2%positive 2).
  vm_compute. reflexivity.
Defined.

(** Without a seed the labels follow the global generator: the seed in
    [cluster_data] is what the two-run property rests on. *)
Example unseeded_labels_follow_generator :
  (KMeans_fit (H := lloyd_estimator) 2 None [[0]; [1]]%float 0%Z).1
  ≠ (KMeans_fit (H := lloyd_estimator) 2 None [[0]; [1]]%float 1%Z).1.
Proof. vm_compute. discriminate. Qed.

Lemma inputs_not_mutated_witness :
  heap (visualize 1%positive ["CO2 (kt)"; "GDP"] session).2 !! 1%positive
    = Some indicators_frame
  ∧ heap (cluster_data 1%positive 2 session).2 !! 1%positive = Some indicators_frame
  ∧ ∀ r normalized,
      (cluster_data 1%positive 2 session).1 = Ok (r, normalized) →
      r ≠ 1%positive
      ∧ ∃ labels, heap (cluster_data 1%positive 2 session).2 !! r
                  = Some (setitem "Cluster" (cluster_column labels) indicators_frame).
Proof.
  apply (inputs_not_mutated session 1%positive indicators_frame ["CO2 (kt)"; "GDP"] 2).
  vm_compute. reflexivity.
Defined.

Local Existing Instance line_optimizers.
Local Existing Instance line_jacobian.

Lemma confidence_band_formula_witness :
  ∃ r,
    fit_model_with_errors sample_years sample_emissions linear_function None default_alpha
      = Ok r
    ∧ lowerbound_curve_fit r
      = zip_with PrimFloat.sub (predictions_curve_fit r)
          (map (λ xi, PrimFloat.sqrt
                        (dot (vecmat (jacobian linear_function xi (popt r)) (pcov r))
                             (jacobian linear_function xi (popt r)))) sample_years)
    ∧ upperbound_curve_fit r
      = zip_with PrimFloat.add (predictions_curve_fit r)
          (map (λ xi, PrimFloat.sqrt
                        (dot (vecmat (jacobian linear_function xi (popt r)) (pcov r))
                             (jacobian linear_function xi (popt r)))) sample_years).
Proof.
  eexists. split; [vm_compute; reflexivity|].
  match goal with
  | |- lowerbound_curve_fit ?r = _ ∧ _ =>
      destruct (confidence_band_formula sample_years sample_emissions linear_function
                  None default_alpha r) as (_ & _ & Hlo & Hhi & _)
  end.
  - vm_compute. reflexivity.
  - split; assumption.
Defined.

(** On the sample series the band does not move with [alpha]. *)
Example band_ignores_alpha :
  (lowerbound_curve_fit <$>
     fit_model_with_errors sample_years sample_emissions linear_function None 0.5%float)
  = (lowerbound_curve_fit <$>
       fit_model_with_errors sample_years sample_emissions linear_function None
         default_alpha).
Proof. vm_compute. reflexivity. Qed.

End samples.

Section undetermined_covariance.
Local Existing Instance scipy_line_optimizers.
Local Existing Instance line_jacobian.



End undetermined_covariance.

(** ** The filled columns as a whole *)

Section filled_columns.
Implicit Types (c v val : cell) (l gap rest : list cell).

Lemma pad_Forall (P : cell → Prop) val l : P val → Forall P l → Forall P (pad val l).
Proof.
  intros Hval Hl. revert val Hval. induction Hl as [|c l Hc Hl IH]; intros val Hval; simpl.
  - constructor.
  - destruct (isna c); constructor; auto.
Qed.

Lemma ffill_Forall (P : cell → Prop) l : Forall P l → Forall P (ffill l).
Proof.
  destruct l as [|c l]; [done|]. intros Hl. apply pad_Forall; [|done].
  by apply Forall_cons_1 in Hl as [? _].
Qed.

Lemma bfill_Forall (P : cell → Prop) l : Forall P l → Forall P (bfill l).
Proof.
  intros Hl. unfold bfill. apply Forall_reverse, ffill_Forall. by apply Forall_reverse.
Qed.

Lemma pad_missing val l : Forall (λ c, isna c) l → pad val l = replicate (length l) val.
Proof.
  induction 1 as [|c l Hc Hl IH]; simpl; [done|].
  destruct (isna c); [|done]. by rewrite IH.
Qed.

Lemma pad_valid val l : Forall (λ c, notna c) l → pad val l = l.
Proof.
  intros Hl. revert val. induction Hl as [|c l Hc Hl IH]; intros val; simpl; [done|].
  unfold notna in Hc. destruct (isna c); [done|]. by rewrite IH.
Qed.

Lemma pad_keeps_valid val l : notna val → Forall (λ c, notna c) (pad val l).
Proof.
  revert val. induction l as [|c l IH]; intros val Hval; simpl; [constructor|].
  destruct (isna c) eqn:E.
  - constructor; [done|]. by apply IH.
  - assert (notna c) as Hc by (unfold notna; by rewrite E).
    constructor; [done|]. by apply IH.
Qed.

Lemma pad_app_missing val gap rest :
  Forall (λ c, isna c) gap →
  pad val (gap ++ rest) = replicate (length gap) val ++ pad val rest.
Proof.
  induction 1 as [|c l Hc Hl IH]; simpl; [done|].
  destruct (isna c); [|done]. by rewrite IH.
Qed.

(** Past a run of valid cells the scan carries the last of them. *)
Lemma pad_snoc_valid val l v rest :
  Forall (λ c, notna c) l → notna v →
  pad val (l ++ v :: rest) = l ++ v :: pad v rest.
Proof.
  intros Hl Hv. revert val. induction Hl as [|c l Hc Hl IH]; intros val; simpl.
  - unfold notna in Hv. by destruct (isna v).
  - unfold notna in Hc. destruct (isna c); [done|]. by rewrite IH.
Qed.

Lemma ffill_app_missing gap v rest :
  Forall (λ c, isna c) gap → notna v →
  ∃ c0, ffill (gap ++ v :: rest) = replicate (length gap) c0 ++ v :: pad v rest
        ∧ (gap ≠ [] → isna c0).
Proof.
  intros Hgap Hv. destruct gap as [|g gap].
  - exists v. split; [|done]. simpl. unfold notna in Hv. by destruct (isna v).
  - exists g. split.
    + change (ffill ((g :: gap) ++ v :: rest)) with (pad g ((g :: gap) ++ v :: rest)).
      rewrite pad_app_missing by done. do 2 f_equal.
      simpl. unfold notna in Hv. by destruct (isna v).
    + intros _. by apply Forall_cons_1 in Hgap as [? _].
Qed.

Lemma ffill_missing l :
  Forall (λ c, isna c) l → ffill l = replicate (length l) (default NA (head l)).
Proof. destruct l as [|c l]; [done|]. intros Hl. by apply pad_missing. Qed.

Lemma ffill_valid l : Forall (λ c, notna c) l → ffill l = l.
Proof. destruct l as [|c l]; [done|]. apply pad_valid. Qed.

Lemma bfill_valid l : Forall (λ c, notna c) l → bfill l = l.
Proof.
  intros Hl. unfold bfill. rewrite ffill_valid by by apply Forall_reverse.
  apply reverse_involutive.
Qed.

Lemma reverse_replicate {A} (n : nat) (x : A) : reverse (replicate n x) = replicate n x.
Proof.
  induction n as [|n IH]; [done|]. simpl. rewrite reverse_cons, IH.
  clear IH. induction n as [|n IH]; [done|]. simpl. by rewrite IH.
Qed.

Lemma Forall_replicate_iff {A} (P : A → Prop) (n : nat) (x : A) :
  P x → Forall P (replicate n x).
Proof. intros Hx. induction n; simpl; by constructor. Qed.

(** A column splits at its first valid cell, when it has one. *)
Lemma first_valid_split l :
  Forall (λ c, isna c) l
  ∨ ∃ gap v rest, l = gap ++ v :: rest ∧ Forall (λ c, isna c) gap ∧ notna v.
Proof.
  induction l as [|c l IH]; [left; constructor|].
  destruct (isna c) eqn:E.
  - destruct IH as [IH|(gap & v & rest & -> & Hgap & Hv)].
    + left. constructor; [by rewrite E|done].
    + right. exists (c :: gap), v, rest. split; [done|]. split; [|done].
      constructor; [by rewrite E|done].
  - right. exists [], c, l. split; [done|]. split; [constructor|].
    unfold notna. by rewrite E.
Qed.

(** The two scans on a column with a valid cell: the leading gap takes the
    first valid value, the rest is the forward scan. *)
Lemma fill_from_first_valid gap v rest :
  Forall (λ c, isna c) gap → notna v →
  bfill (ffill (gap ++ v :: rest)) = replicate (length gap) v ++ v :: pad v rest.
Proof.
  intros Hgap Hv.
  destruct (ffill_app_missing gap v rest Hgap Hv) as (c0 & -> & Hc0).
  assert (Forall (λ c, notna c) (v :: pad v rest)) as Htail
    by (constructor; [done|by apply pad_keeps_valid]).
  destruct gap as [|g gap].
  { simpl. by apply bfill_valid. }
  specialize (Hc0 ltac:(done)).
  generalize (length (g :: gap)). intros n.
  unfold bfill. rewrite reverse_app, reverse_replicate.
  destruct (reverse (v :: pad v rest)) as [|t ts] eqn:Ets.
  { apply (f_equal length) in Ets. rewrite length_reverse in Ets. done. }
  assert (Forall (λ c, notna c) (t :: ts)) as Hts
    by (rewrite <-Ets; by apply Forall_reverse).
  assert (∃ ts', t :: ts = ts' ++ [v]) as [ts' Hts'].
  { exists (reverse (pad v rest)). by rewrite <-Ets, reverse_cons. }
  change (ffill ((t :: ts) ++ replicate n c0))
    with (pad t ((t :: ts) ++ replicate n c0)).
  rewrite Hts', <-app_assoc. change ([v] ++ replicate n c0) with (v :: replicate n c0).
  rewrite pad_snoc_valid; [|rewrite Hts' in Hts; by apply Forall_app in Hts as [? _]|done].
  rewrite pad_missing by by apply Forall_replicate_iff.
  rewrite length_replicate.
  change (ts' ++ v :: replicate n v) with (ts' ++ [v] ++ replicate n v).
  rewrite app_assoc, <-Hts', <-Ets.
  by rewrite reverse_app, reverse_replicate, reverse_involutive.
Qed.

(** On a column without a valid cell the scans spread its first cell. *)
Lemma fill_all_missing l :
  Forall (λ c, isna c) l →
  bfill (ffill l) = replicate (length l) (default NA (head l)).
Proof.
  intros Hl. rewrite (ffill_missing l Hl). unfold bfill.
  rewrite reverse_replicate.
  destruct l as [|c l]; [done|]. simpl default.
  assert (isna c) as Hc by by apply Forall_cons_1 in Hl as [? _].
  rewrite ffill_missing by by apply Forall_replicate_iff.
  by rewrite length_replicate, reverse_replicate.
Qed.

Lemma fill_twice l : bfill (ffill (bfill (ffill l))) = bfill (ffill l).
Proof.
  destruct (first_valid_split l) as [Hl|(gap & v & rest & -> & Hgap & Hv)].
  - rewrite (fill_all_missing l Hl). destruct l as [|c l]; [done|].
    assert (isna c) as Hc by by apply Forall_cons_1 in Hl as [? _].
    rewrite fill_all_missing by by apply Forall_replicate_iff.
    by rewrite length_replicate.
  - rewrite fill_from_first_valid by done.
    assert (Forall (λ c, notna c) (replicate (length gap) v ++ v :: pad v rest)) as Hall.
    { apply Forall_app. split; [by apply Forall_replicate_iff|].
      constructor; [done|by apply pad_keeps_valid]. }
    rewrite ffill_valid by done. by apply bfill_valid.
Qed.

End filled_columns.

Section filled_frames.

Lemma map_columns_compose f g df :
  map_columns f (map_columns g df) = map_columns (λ l, f (g l)) df.
Proof.
  unfold map_columns. rewrite map_map. apply map_ext. by intros [n s].
Qed.

Lemma map_columns_ext f g df :
  (∀ l, f l = g l) → map_columns f df = map_columns g df.
Proof.
  intros Hfg. unfold map_columns. apply map_ext. intros [n s]. simpl. by rewrite Hfg.
Qed.

(** Lines 35-38 column by column. *)
Lemma fill_missing_columns df :
  fill_missing df = map_columns (λ l, bfill (ffill (map mark_sentinel l))) df.
Proof.
  unfold fill_missing, fillna_bfill, fillna_ffill. rewrite replace_as_columns.
  by rewrite !map_columns_compose.
Qed.

Lemma mark_sentinel_missing c :
  isna (mark_sentinel c) = is_missing c ∧ (is_missing c = false → mark_sentinel c = c).
Proof. apply mark_missing. Qed.

Lemma mark_sentinel_idemp c : mark_sentinel (mark_sentinel c) = mark_sentinel c.
Proof.
  destruct c as [|s|x|n]; simpl; try done.
  case_bool_decide as E; simpl; [done|]. by rewrite bool_decide_eq_false_2.
Qed.

Lemma fill_marked_fixed l :
  Forall (λ c, mark_sentinel c = c) (bfill (ffill (map mark_sentinel l))).
Proof.
  apply bfill_Forall, ffill_Forall, Forall_forall. intros c Hc.
  apply list_elem_of_fmap in Hc as (c0 & -> & _). apply mark_sentinel_idemp.
Qed.

(** X1.  After the fill of [read_data] (lines 35-38) a column that had at
    least one value has no missing cell left: each of its cells holds a
    value that the column held before.  A column without any value stays
    without one.  The fill does not change the length of a column. *)
Theorem fill_missing_complete (df : DataFrame) (name : string) (s : Series) :
  lookup_col name df = Some s →
  ∃ s', lookup_col name (fill_missing df) = Some s'
        ∧ length (vals s') = length (vals s)
        ∧ ((∃ v, v ∈ vals s ∧ is_missing v = false) →
           Forall (λ c, is_missing c = false ∧ c ∈ vals s) (vals s'))
        ∧ (Forall (λ c, is_missing c = true) (vals s) →
           Forall (λ c, is_missing c = true) (vals s')).
Proof.
  intros Hs. rewrite fill_missing_columns, lookup_col_map_columns, Hs. simpl.
  eexists. split; [done|]. simpl.
  split; [by rewrite bfill_length, ffill_length, length_map|].
  set (l := map mark_sentinel (vals s)).
  assert (Forall (λ c, c ∈ l) (bfill (ffill l))) as Hin.
  { apply bfill_Forall, ffill_Forall, Forall_forall. by intros c Hc. }
  split.
  - intros (v & Hv & Hmiss).
    assert (Forall (λ c, notna c) (bfill (ffill l))) as Hvalid.
    { destruct (first_valid_split l) as [Hl|(gap & v' & rest & Hl & Hgap & Hv')].
      - exfalso. rewrite Forall_forall in Hl.
        assert (isna (mark_sentinel v)) as Hna.
        { apply Hl. unfold l. apply list_elem_of_fmap. by exists v. }
        destruct (mark_sentinel_missing v) as [Hm _]. rewrite Hm, Hmiss in Hna. done.
      - rewrite Hl, fill_from_first_valid by done.
        apply Forall_app. split; [by apply Forall_replicate_iff|].
        constructor; [done|by apply pad_keeps_valid]. }
    rewrite Forall_forall in Hin, Hvalid. apply Forall_forall. intros c Hc.
    specialize (Hin c Hc). specialize (Hvalid c Hc).
    unfold l in Hin. apply list_elem_of_fmap in Hin as (c0 & -> & Hc0).
    destruct (mark_sentinel_missing c0) as [Hm Hfix].
    unfold notna in Hvalid. rewrite Hm in Hvalid.
    destruct (is_missing c0) eqn:E; [done|]. rewrite (Hfix eq_refl). done.
  - intros Hall. rewrite Forall_forall in Hall, Hin. apply Forall_forall. intros c Hc.
    specialize (Hin c Hc). unfold l in Hin.
    apply list_elem_of_fmap in Hin as (c0 & -> & Hc0).
    destruct (mark_sentinel_missing c0) as [Hm _].
    unfold is_missing. rewrite Hm, (Hall c0 Hc0). done.
Qed.

(** X2.  Filling a table that has been filled changes nothing: the fill of
    [read_data] (lines 35-38) is idempotent. *)
Theorem fill_missing_idempotent (df : DataFrame) :
  fill_missing (fill_missing df) = fill_missing df.
Proof.
  rewrite !fill_missing_columns, map_columns_compose. apply map_columns_ext. intros l.
  replace (map mark_sentinel (bfill (ffill (map mark_sentinel l))))
    with (bfill (ffill (map mark_sentinel l))).
  - apply fill_twice.
  - pose proof (fill_marked_fixed l) as Hfix.
    induction Hfix as [|c cs Hc Hcs IH]; simpl; [done|]. by rewrite Hc, <-IH.
Qed.

End filled_frames.

(** ** What the cleaning returns *)

Section cleaning.
Context `{Builtins}.

Lemma traverse_Forall2 {A B} (f : A → result B) (l : list A) (l' : list B) :
  traverse f l = Ok l' → Forall2 (λ a b, f a = Ok b) l l'.
Proof.
  revert l'. induction l as [|a l IH]; intros l'; simpl.
  - intros [= <-]. constructor.
  - destruct (f a) as [b|] eqn:Ea; [|done]. rewrite bind_Ok.
    destruct (traverse f l) as [bs|]; [|done]. rewrite bind_Ok.
    intros [= <-]. constructor; [done|]. by apply IH.
Qed.

Lemma to_float_Ok c c' : to_float c = Ok c' → ∃ x, c' = Num x.
Proof.
  destruct c as [|s|x|n]; simpl; try done.
  - destruct (float_of_str s) as [x|]; [|done]. intros [= <-]. by exists x.
  - intros [= <-]. by exists x.
  - intros [= <-]. by eexists.
Qed.

Lemma lookup_col_filter (P : string → Prop) `{∀ n, Decision (P n)}
    (df : list (string * Series)) (n : string) :
  lookup_col n (filter (λ p, P p.1) df) = if decide (P n) then lookup_col n df else None.
Proof.
  induction df as [|[m s] df IH]; simpl.
  - by destruct (decide (P n)).
  - destruct (decide (P m)) as [Hm|Hm].
    + rewrite filter_cons_True by done. simpl. case_bool_decide as E; [|done].
      subst. by destruct (decide (P n)).
    + rewrite filter_cons_False by done. rewrite IH. case_bool_decide as E; [|done].
      subst. by destruct (decide (P n)).
Qed.

Lemma drop_columns_lookup names df df' n :
  drop_columns names df = Ok df' →
  lookup_col n df' = if decide (n ∈ names) then None else lookup_col n df.
Proof.
  unfold drop_columns. destruct (filter _ names); [|done]. intros [= <-].
  pose proof (lookup_col_filter (λ m, m ∉ names) df n) as Hf. cbv beta in Hf.
  unfold DataFrame in *. rewrite Hf.
  destruct (decide (n ∈ names)), (decide (n ∉ names)); tauto || done.
Qed.

Lemma drop_columns_Ok_labels names df df' :
  drop_columns names df = Ok df' → labels df' = filter (λ n, n ∉ names) (labels df).
Proof.
  unfold drop_columns. destruct (filter _ names); [|done]. intros [= <-].
  unfold labels, DataFrame in *. induction df as [|[m s] df IH]; [done|].
  rewrite fmap_cons. simpl fst.
  destruct (decide (m ∉ names)) as [Hm|Hm].
  - rewrite !filter_cons_True by done. rewrite fmap_cons. simpl. by rewrite IH.
  - rewrite !filter_cons_False by done. done.
Qed.

Lemma labels_setitem_present name s df :
  name ∈ labels df → labels (setitem name s df) = labels df.
Proof.
  unfold labels. induction df as [|[m t] df IH]; simpl.
  - intros Hin. by apply elem_of_nil in Hin.
  - intros Hin. case_bool_decide as E; simpl; [by subst|].
    f_equal. apply IH. apply elem_of_cons in Hin as [->|Hin]; done.
Qed.

Lemma labels_setitems_present cols df :
  Forall (λ n, n ∈ labels df) (labels cols) → labels (setitems cols df) = labels df.
Proof.
  unfold setitems. revert df. induction cols as [|[m s] cols IH]; intros df Hc; [done|].
  simpl. apply Forall_cons_1 in Hc as [Hm Hc]. simpl in Hm.
  rewrite IH; [by apply labels_setitem_present|].
  by rewrite labels_setitem_present.
Qed.

Lemma lookup_setitem_ne name n s df :
  n ≠ name → lookup_col n (setitem name s df) = lookup_col n df.
Proof.
  intros Hne. induction df as [|[m t] df IH]; simpl.
  - by rewrite bool_decide_eq_false_2 by done.
  - case_bool_decide as E; simpl.
    + subst. by rewrite !bool_decide_eq_false_2 by done.
    + by rewrite IH.
Qed.

Lemma lookup_setitems_other cols df n :
  n ∉ labels cols → lookup_col n (setitems cols df) = lookup_col n df.
Proof.
  unfold setitems. revert df. induction cols as [|[m s] cols IH]; intros df Hn; [done|].
  simpl. unfold labels in Hn. simpl in Hn. apply not_elem_of_cons in Hn as [Hne Hn].
  rewrite IH by done. by apply lookup_setitem_ne.
Qed.

Lemma lookup_setitems cols df n s :
  NoDup (labels cols) → (n, s) ∈ cols → lookup_col n (setitems cols df) = Some s.
Proof.
  unfold setitems. revert df. induction cols as [|[m t] cols IH]; intros df Hnd Hin.
  - by apply elem_of_nil in Hin.
  - simpl. unfold labels in Hnd. simpl in Hnd. apply NoDup_cons in Hnd as [Hm Hnd].
    apply elem_of_cons in Hin as [[= -> ->]|Hin].
    + fold (setitems cols (setitem m t df)).
      rewrite lookup_setitems_other by done. apply lookup_setitem.
    + by apply IH.
Qed.

(** The rows that the cleaning keeps, column by column. *)
Lemma kept_rows_lookup df n :
  lookup_col n (kept_rows df)
  = (λ s, mkSeries (dt s)
            (take 1519 (select_mask (first_occurrences [] (rows (fill_missing df)))
                          (bfill (ffill (map mark_sentinel (vals s)))))))
    <$> lookup_col n df.
Proof.
  unfold kept_rows, drop_rows_from, drop_duplicates, filter_rows.
  rewrite !lookup_col_map_columns, fill_missing_columns at 1.
  rewrite lookup_col_map_columns. by destruct (lookup_col n df).
Qed.

Lemma NoDup_year_columns : NoDup year_columns.
Proof. by apply (bool_decide_unpack _). Qed.

(** The steps of [clean] when it succeeds: the year columns of the kept
    rows are converted cell by cell and put back under their labels. *)
Lemma clean_Ok df wdi :
  clean df = Ok wdi →
  ∃ base years,
    drop_columns ["Country Code"; "Series Code"] (kept_rows df) = Ok base
    ∧ labels years = year_columns
    ∧ Forall (λ p, ∃ s0, lookup_col p.1 base = Some s0
                         ∧ dt p.2 = float64
                         ∧ Forall2 (λ c c', to_float c = Ok c') (vals s0) (vals p.2)) years
    ∧ wdi = setitems years base.
Proof.
  unfold clean. fold (kept_rows df).
  destruct (drop_columns _ (kept_rows df)) as [base|] eqn:Eb; [|done]. rewrite bind_Ok.
  destruct (getitems year_columns base) as [ycols|] eqn:Ey; [|done]. rewrite bind_Ok.
  destruct (astype_float ycols) as [years|] eqn:Ea; [|done]. rewrite bind_Ok.
  intros [= <-]. exists base, years. split; [done|].
  split; [by rewrite (astype_float_labels _ _ Ea), (getitems_labels _ _ _ Ey)|].
  split; [|done].
  apply traverse_Forall2 in Ey. apply traverse_Forall2 in Ea.
  apply Forall_forall. intros p Hp.
  apply list_elem_of_lookup in Hp as [i Hi].
  destruct (Forall2_lookup_r _ _ _ _ _ Ea Hi) as ([m s0] & Hi0 & Hconv).
  destruct (Forall2_lookup_r _ _ _ _ _ Ey Hi0) as (y & _ & Hget).
  simpl in Hconv.
  destruct (traverse to_float (vals s0)) as [cs|] eqn:Ecs; [|done].
  rewrite bind_Ok in Hconv. injection Hconv as <-. simpl.
  destruct (getitem y base) as [s1|] eqn:Eg; [|done]. rewrite bind_Ok in Hget.
  injection Hget as -> ->. exists s0. split; [by apply getitem_Ok|].
  split; [done|]. by apply traverse_Forall2.
Qed.

Lemma Forall2_to_float l l' :
  Forall2 (λ c c', to_float c = Ok c') l l' →
  l' = map Num (map as_float l')
  ∧ Forall2 (λ c x, to_float c = Ok (Num x)) l (map as_float l').
Proof.
  induction 1 as [|c c' l l' Hc Hl [IH1 IH2]]; simpl; [by split; [|constructor]|].
  destruct (to_float_Ok c c' Hc) as [x ->]. simpl. split.
  - f_equal. exact IH1.
  - constructor; [done|exact IH2].
Qed.

Lemma year_not_code y : y ∈ year_columns → y ∉ code_columns.
Proof.
  intros Hy Hc. unfold year_columns in Hy. unfold code_columns in Hc.
  repeat (apply elem_of_cons in Hy as [->|Hy];
          [repeat (apply elem_of_cons in Hc as [Hc|Hc]; [discriminate|]);
           by apply elem_of_nil in Hc|]).
  by apply elem_of_nil in Hy.
Qed.

(** Where a column of the cleaned table comes from. *)
Lemma clean_lookup df wdi n s :
  clean df = Ok wdi → lookup_col n wdi = Some s →
  (n ∉ code_columns)
  ∧ ∃ s0, lookup_col n (kept_rows df) = Some s0
          ∧ ((n ∈ year_columns ∧ dt s = float64
              ∧ Forall2 (λ c c', to_float c = Ok c') (vals s0) (vals s))
             ∨ ((n ∉ year_columns) ∧ s = s0)).
Proof.
  intros Hc Hs. apply clean_Ok in Hc as (base & years & Hbase & Hlab & Hyears & ->).
  pose proof (drop_columns_lookup _ _ _ n Hbase) as Hlk. fold code_columns in Hlk.
  destruct (decide (n ∈ year_columns)) as [Hy|Hy].
  - rewrite <-Hlab in Hy. unfold labels in Hy.
    apply list_elem_of_fmap in Hy as ([m t] & -> & Hin). simpl in *.
    rewrite (lookup_setitems years base m t) in Hs;
      [|rewrite Hlab; apply NoDup_year_columns|done].
    injection Hs as ->. rewrite Forall_forall in Hyears.
    destruct (Hyears _ Hin) as (s0 & Hs0 & Hdt & Hconv). simpl in *.
    rewrite Hs0 in Hlk. destruct (decide (m ∈ code_columns)) as [|Hcode]; [done|].
    split; [done|]. exists s0. split; [done|]. left.
    split; [|done]. rewrite <-Hlab. apply list_elem_of_fmap. by exists (m, s).
  - rewrite lookup_setitems_other in Hs by by rewrite Hlab.
    rewrite Hs in Hlk. destruct (decide (n ∈ code_columns)) as [|Hcode]; [done|].
    split; [done|]. exists s. split; [done|]. by right.
Qed.

Lemma clean_lookup_year df wdi y :
  clean df = Ok wdi → y ∈ year_columns →
  ∃ s0 s, lookup_col y (kept_rows df) = Some s0
          ∧ lookup_col y wdi = Some s
          ∧ dt s = float64
          ∧ Forall2 (λ c c', to_float c = Ok c') (vals s0) (vals s).
Proof.
  intros Hc Hy. pose proof Hc as Hc'.
  apply clean_Ok in Hc as (base & years & Hbase & Hlab & Hyears & ->).
  rewrite <-Hlab in Hy. unfold labels in Hy.
  apply list_elem_of_fmap in Hy as ([m t] & -> & Hin). simpl.
  assert (lookup_col m (setitems years base) = Some t) as Ht.
  { apply lookup_setitems; [rewrite Hlab; apply NoDup_year_columns|done]. }
  destruct (clean_lookup df _ m t Hc' Ht) as (_ & s0 & Hs0 & [(_ & Hdt & Hconv)|[Hno _]]).
  - by exists s0, t.
  - exfalso. apply Hno. rewrite <-Hlab. apply list_elem_of_fmap. by exists (m, t).
Qed.

Lemma select_mask_length {A} (mask : list bool) (l : list A) :
  length (select_mask mask l) ≤ length l.
Proof.
  revert l. induction mask as [|b mask IH]; intros [|a l]; simpl; try lia.
  specialize (IH l). destruct b; simpl; lia.
Qed.

Lemma select_mask_Forall {A} (P : A → Prop) (mask : list bool) (l : list A) :
  Forall P l → Forall P (select_mask mask l).
Proof.
  intros Hl. revert mask. induction Hl as [|a l Ha Hl IH]; intros [|b mask]; simpl;
    try constructor.
  destruct b; [constructor; [done|]|]; apply IH.
Qed.

(** X3.  The first table that [read_data] returns has the columns of the
    file in their order, without the two code columns (line 47); converting
    the year columns in place (lines 50-52) adds none. *)
Theorem read_data_columns (read_csv : result DataFrame) (wdi_data wide : DataFrame) :
  read_data read_csv = Ok (wdi_data, wide) →
  ∃ df, read_csv = Ok df
        ∧ labels wdi_data = filter (λ n, n ∉ code_columns) (labels df).
Proof.
  intros Hread. apply read_data_Ok in Hread as (df & -> & Hclean & _).
  exists df. split; [done|].
  apply clean_Ok in Hclean as (base & years & Hbase & Hlab & Hyears & ->).
  rewrite labels_setitems_present.
  - rewrite (drop_columns_Ok_labels _ _ _ Hbase). unfold kept_rows.
    by rewrite labels_cleaning_rows.
  - rewrite Forall_forall in Hyears. apply Forall_forall. intros y Hy.
    unfold labels in Hy. apply list_elem_of_fmap in Hy as (p & -> & Hp).
    destruct (Hyears p Hp) as (s0 & Hs0 & _).
    destruct (decide (p.1 ∈ labels base)) as [|Hno]; [done|].
    apply lookup_col_None in Hno. congruence.
Qed.

(** X4.  In the first table that [read_data] returns each of the nine year
    columns is a float64 column: its cells are the [float(..)] of the cells
    that the fill, the removal of repeated rows and the cut at row 1519
    left.  Every other column is the one those steps left. *)
Theorem read_data_year_columns (read_csv : result DataFrame) (wdi_data wide : DataFrame) :
  read_data read_csv = Ok (wdi_data, wide) →
  ∃ df, read_csv = Ok df
        ∧ (∀ y, y ∈ year_columns →
             ∃ s0 xs, lookup_col y (kept_rows df) = Some s0
                      ∧ lookup_col y wdi_data = Some (mkSeries float64 (map Num xs))
                      ∧ Forall2 (λ c x, to_float c = Ok (Num x)) (vals s0) xs)
        ∧ (∀ n, n ∉ year_columns → n ∉ code_columns →
             lookup_col n wdi_data = lookup_col n (kept_rows df)).
Proof.
  intros Hread. apply read_data_Ok in Hread as (df & -> & Hclean & _).
  exists df. split; [done|]. split.
  - intros y Hy.
    destruct (clean_lookup_year df wdi_data y Hclean Hy) as (s0 & s & Hs0 & Hs & Hdt & Hconv).
    apply Forall2_to_float in Hconv as [Hvals Hconv].
    exists s0, (map as_float (vals s)). split; [done|]. split; [|done].
    rewrite Hs. f_equal. destruct s as [d cs]. simpl in *. by rewrite Hdt, <-Hvals.
  - intros n Hy Hcode.
    apply clean_Ok in Hclean as (base & years & Hbase & Hlab & _ & ->).
    rewrite lookup_setitems_other by by rewrite Hlab.
    rewrite (drop_columns_lookup _ _ _ n Hbase). fold code_columns.
    by destruct (decide (n ∈ code_columns)).
Qed.

(** X5.  No column of the first table that [read_data] returns has more
    than 1519 cells (line 44), nor more cells than the column of the file
    it comes from: the cleaning only removes rows. *)
Theorem read_data_row_cap (read_csv : result DataFrame) (wdi_data wide : DataFrame)
    (n : string) (s : Series) :
  read_data read_csv = Ok (wdi_data, wide) →
  lookup_col n wdi_data = Some s →
  ∃ df s0, read_csv = Ok df
           ∧ lookup_col n df = Some s0
           ∧ length (vals s) ≤ length (vals s0)
           ∧ length (vals s) ≤ 1519.
Proof.
  intros Hread Hs. apply read_data_Ok in Hread as (df & -> & Hclean & _).
  destruct (clean_lookup df wdi_data n s Hclean Hs) as (_ & k & Hk & Hcase).
  rewrite kept_rows_lookup in Hk.
  destruct (lookup_col n df) as [s0|] eqn:E0; [|done]. injection Hk as <-.
  exists df, s0. split; [done|]. split; [done|].
  assert (length (vals s) = length (take 1519 (select_mask
            (first_occurrences [] (rows (fill_missing df)))
            (bfill (ffill (map mark_sentinel (vals s0))))))) as ->.
  { destruct Hcase as [(_ & _ & Hconv)|[_ ->]]; [|done].
    symmetry. by apply Forall2_length in Hconv. }
  rewrite length_take.
  pose proof (select_mask_length (first_occurrences [] (rows (fill_missing df)))
                (bfill (ffill (map mark_sentinel (vals s0))))) as Hle.
  rewrite bfill_length, ffill_length, length_map in Hle. lia.
Qed.

(** X6.  The [..] token of the file never reaches the first table that
    [read_data] returns: no cell of any of its columns holds it. *)
Theorem read_data_no_sentinel (read_csv : result DataFrame) (wdi_data wide : DataFrame)
    (n : string) (s : Series) :
  read_data read_csv = Ok (wdi_data, wide) →
  lookup_col n wdi_data = Some s →
  Str ".." ∉ vals s.
Proof.
  intros Hread Hs. apply read_data_Ok in Hread as (df & -> & Hclean & _).
  destruct (clean_lookup df wdi_data n s Hclean Hs) as (_ & k & Hk & Hcase).
  destruct Hcase as [(_ & _ & Hconv)|[_ ->]].
  - intros Hin. apply list_elem_of_lookup in Hin as [i Hi].
    destruct (Forall2_lookup_r _ _ _ _ _ Hconv Hi) as (c & _ & Hc).
    by apply to_float_Ok in Hc as [x Hx].
  - rewrite kept_rows_lookup in Hk. destruct (lookup_col n df) as [s0|]; [|done].
    injection Hk as <-. simpl.
    assert (Forall (λ c, c ≠ Str "..")
              (take 1519 (select_mask (first_occurrences [] (rows (fill_missing df)))
                            (bfill (ffill (map mark_sentinel (vals s0))))))) as Hall.
    { apply Forall_take, select_mask_Forall, bfill_Forall, ffill_Forall, Forall_forall.
      intros c Hc. apply list_elem_of_fmap in Hc as (c0 & -> & _).
      destruct c0 as [|t|x|z]; simpl; try done.
      case_bool_decide as E; [done|]. intros [= ->]. done. }
    rewrite Forall_forall in Hall. intros Hin. by apply (Hall _ Hin).
Qed.

End cleaning.

(** ** The layout of the pivoted table *)

Section string_order.

Lemma compare_Lt_trans a b c :
  String.compare a b = Lt → String.compare b c = Lt → String.compare a c = Lt.
Proof.
  intros Hab Hbc. apply OrderedTypeEx.String_as_OT.cmp_lt.
  apply OrderedTypeEx.String_as_OT.cmp_lt in Hab, Hbc.
  by apply OrderedTypeEx.String_as_OT.lt_trans with b.
Qed.

Lemma compare_Gt_Lt a b : String.compare a b = Gt → String.compare b a = Lt.
Proof. intros Hab. rewrite String.compare_antisym, Hab. done. Qed.

Lemma compare_refl a : String.compare a a = Eq.
Proof. by apply OrderedTypeEx.String_as_OT.cmp_eq. Qed.

Global Instance str_le_total : Total str_le.
Proof.
  intros a b. unfold str_le.
  destruct (String.leb_total a b) as [->| ->]; [by left|by right].
Qed.

Global Instance str_le_trans : Transitive str_le.
Proof.
  intros a b c. unfold str_le, String.leb.
  destruct (String.compare a b) eqn:Eab; [| |done].
  - apply String.compare_eq_iff in Eab as ->. done.
  - destruct (String.compare b c) eqn:Ebc; [| |done].
    + apply String.compare_eq_iff in Ebc as ->. by rewrite Eab.
    + by rewrite (compare_Lt_trans a b c).
Qed.

Global Instance index_le_total : Total index_le.
Proof.
  intros [a1 a2] [b1 b2]. unfold index_le. simpl.
  rewrite (String.eqb_sym b1 a1).
  destruct (String.eqb_spec a1 b1) as [->|Hne].
  - destruct (String.leb_total a2 b2) as [->| ->]; [by left|by right].
  - unfold String.ltb. destruct (String.compare a1 b1) eqn:E.
    + by apply String.compare_eq_iff in E.
    + by left.
    + right. by rewrite (compare_Gt_Lt a1 b1).
Qed.

Global Instance index_le_trans : Transitive index_le.
Proof.
  intros [a1 a2] [b1 b2] [c1 c2]. unfold index_le. simpl.
  destruct (String.eqb_spec a1 b1) as [->|Hab].
  - destruct (String.eqb_spec b1 c1) as [->|Hbc]; [|done].
    apply str_le_trans.
  - destruct (String.eqb_spec b1 c1) as [->|Hbc].
    + intros Hlt _. destruct (String.eqb_spec a1 c1) as [->|]; done.
    + unfold String.ltb.
      destruct (String.compare a1 b1) eqn:Eab; try done.
      destruct (String.compare b1 c1) eqn:Ebc; try done.
      intros _ _. pose proof (compare_Lt_trans _ _ _ Eab Ebc) as Eac.
      destruct (String.eqb_spec a1 c1) as [->|]; [|by rewrite Eac].
      by rewrite compare_refl in Eac.
Qed.

End string_order.

Section wide_layout.
Context `{Builtins}.

Lemma unstack_column_length d cs : length (vals (unstack_column d cs)) = length cs.
Proof.
  unfold unstack_column. destruct d; try done.
  destruct (forallb notna cs); simpl; [done|]. by rewrite length_map.
Qed.

(** The table that [reshape] returns, from the observations of the melted
    table: two text columns with the sorted index entries, then one column
    per sorted indicator name. *)
Lemma reshape_Ok (wdi_data wide : DataFrame) :
  reshape wdi_data = Ok wide →
  ∃ long v,
    melt ["Series Name"; "Country Name"] "Year" "Value" wdi_data = Ok long
    ∧ lookup_col "Value" long = Some v
    ∧ let os := long_observations long in
      let idx := merge_sort index_le (remove_dups (map obs_index os)) in
      let names := merge_sort str_le (remove_dups (map obs_series os)) in
      wide = ("Year", mkSeries object (map (λ i, Str i.1) idx))
             :: ("Country Name", mkSeries object (map (λ i, Str i.2) idx))
             :: map (λ s, (s, unstack_column (dt v) (pivot_cells os idx s))) names
      ∧ ("Year" ∉ names) ∧ ("Country Name" ∉ names).
Proof.
  unfold reshape.
  destruct (melt _ _ _ wdi_data) as [long|] eqn:Hmelt; [|done]. rewrite bind_Ok.
  destruct (pivot_table _ _ _ _ long) as [p|] eqn:Hp; [|done]. rewrite bind_Ok.
  apply pivot_table_Ok in Hp as (v & Hv & Hnames & Hidx & Hcols).
  intros Hreset. exists long, v. split; [done|]. split; [done|]. simpl.
  unfold reset_index in Hreset. rewrite Hnames in Hreset. simpl in Hreset.
  assert (labels (p_columns p)
          = merge_sort str_le (remove_dups (map obs_series (long_observations long))))
    as Hlabels.
  { rewrite Hcols. unfold labels. rewrite <-list_fmap_compose. apply list_fmap_id. }
  rewrite Hlabels in Hreset.
  case_bool_decide as E1; [done|]. case_bool_decide as E2; [done|].
  injection Hreset as <-. rewrite Hcols, Hidx. done.
Qed.

(** X7.  When the name columns of the first table that [read_data] returns
    hold text, the second table starts with the columns [Year] and
    [Country Name]; the indicator columns follow in ascending order of their
    names, each name once, and none of them is called [Year] or
    [Country Name]. *)
Theorem wide_columns_sorted (read_csv : result DataFrame) (wdi_data wide : DataFrame) :
  read_data read_csv = Ok (wdi_data, wide) →
  text_names wdi_data →
  ∃ names, labels wide = "Year" :: "Country Name" :: names
           ∧ StronglySorted str_le names
           ∧ NoDup names
           ∧ ("Year" ∉ names) ∧ ("Country Name" ∉ names).
Proof.
  intros Hread _. apply read_data_Ok in Hread as (df & _ & _ & Hreshape).
  apply reshape_Ok in Hreshape as (long & v & _ & _ & -> & Hy & Hc).
  exists (merge_sort str_le (remove_dups (map obs_series (long_observations long)))).
  split.
  - unfold labels. simpl. do 2 f_equal.
    rewrite <-list_fmap_compose. apply list_fmap_id.
  - split; [apply (StronglySorted_merge_sort _)|].
    split; [|done]. rewrite merge_sort_Permutation. apply NoDup_remove_dups.
Qed.

(** X8.  When the name columns of the first table that [read_data] returns
    hold text, the rows of the second table are keyed by (year, country)
    pairs that are pairwise distinct and in ascending order, by year and
    then by country; the two key columns are text columns, and every column
    has one cell per pair. *)
Theorem wide_rows_sorted (read_csv : result DataFrame) (wdi_data wide : DataFrame) :
  read_data read_csv = Ok (wdi_data, wide) →
  text_names wdi_data →
  ∃ idx, lookup_col "Year" wide = Some (mkSeries object (map (λ i, Str i.1) idx))
         ∧ lookup_col "Country Name" wide = Some (mkSeries object (map (λ i, Str i.2) idx))
         ∧ StronglySorted index_le idx
         ∧ NoDup idx
         ∧ nrows wide = length idx
         ∧ aligned wide.
Proof.
  intros Hread _. apply read_data_Ok in Hread as (df & _ & _ & Hreshape).
  apply reshape_Ok in Hreshape as (long & v & _ & _ & -> & Hy & Hc).
  eexists. split; [reflexivity|]. split; [reflexivity|].
  split; [apply (StronglySorted_merge_sort _)|].
  split; [rewrite merge_sort_Permutation; apply NoDup_remove_dups|].
  split; [simpl; by rewrite length_map|].
  unfold aligned. cbn [nrows vals]. rewrite !length_map.
  constructor; [simpl; by rewrite length_map|].
  constructor; [simpl; by rewrite length_map|].
  apply Forall_forall. intros p Hp. apply list_elem_of_fmap in Hp as (s & -> & _).
  simpl. unfold pivot_cells. by rewrite unstack_column_length, length_map.
Qed.

Lemma long_rows_elem r a b c v :
  r ∈ long_rows a b c v →
  l_year r ∈ a ∧ l_country r ∈ b ∧ l_series r ∈ c ∧ l_value r ∈ v.
Proof.
  unfold long_rows. intros Hr. apply list_elem_of_lookup in Hr as [i Hi].
  apply lookup_zip_with_Some in Hi as (f3 & x & -> & Hf3 & Hx).
  apply lookup_zip_with_Some in Hf3 as (f2 & y & -> & Hf2 & Hy).
  apply lookup_zip_with_Some in Hf2 as (z & w & -> & Hz & Hw).
  simpl. repeat split; by eapply list_elem_of_lookup_2.
Qed.

Lemma elem_of_join_replicate {A} (k : nat) (l : list A) (x : A) :
  x ∈ mjoin (replicate k l) → x ∈ l.
Proof.
  intros Hx. apply list_elem_of_join in Hx as (l' & Hx & Hl').
  apply elem_of_replicate in Hl' as [-> _]. done.
Qed.

(** The rows of the melted table: the year of a row is the label of a value
    column, its names are cells of the name columns. *)
Lemma melt_rows (wdi long : DataFrame) (r : long_row) :
  melt ["Series Name"; "Country Name"] "Year" "Value" wdi = Ok long →
  r ∈ long_table long →
  ∃ sn cn, lookup_col "Series Name" wdi = Some sn
           ∧ lookup_col "Country Name" wdi = Some cn
           ∧ l_series r ∈ vals sn
           ∧ l_country r ∈ vals cn
           ∧ ∃ y, l_year r = Str y ∧ y ∈ labels wdi ∧ y ∉ name_columns.
Proof.
  unfold melt, getitems. simpl.
  destruct (getitem "Series Name" wdi) as [sn|] eqn:Esn; [|done]. rewrite bind_Ok.
  destruct (getitem "Country Name" wdi) as [cn|] eqn:Ecn; [|done]. rewrite !bind_Ok.
  apply getitem_Ok in Esn, Ecn. intros [= <-]. unfold long_table. simpl.
  intros Hr. apply long_rows_elem in Hr as (Hy & Hc & Hs & _).
  exists sn, cn. split; [done|]. split; [done|].
  split; [by apply elem_of_join_replicate in Hs|].
  split; [by apply elem_of_join_replicate in Hc|].
  apply list_elem_of_join in Hy as (l & Hy & Hl).
  apply list_elem_of_fmap in Hl as (p & -> & Hp).
  apply elem_of_replicate in Hy as [-> _].
  apply list_elem_of_filter in Hp as [Hname Hp].
  exists p.1. split; [done|]. split; [|done].
  unfold labels. apply list_elem_of_fmap. by exists p.
Qed.

Lemma observation_row (long : DataFrame) (o : obs) :
  o ∈ long_observations long →
  ∃ r, r ∈ long_table long
       ∧ l_year r = Str (obs_index o).1
       ∧ l_country r = Str (obs_index o).2
       ∧ l_series r = Str (obs_series o).
Proof.
  unfold long_observations. intros Ho.
  apply list_elem_of_omap in Ho as (r & Hr & Hobs). exists r. split; [done|].
  unfold observed in Hobs.
  destruct (l_year r), (l_country r), (l_series r); try done.
  destruct (isna (l_value r)); [done|]. by injection Hobs as <-.
Qed.

(** X9.  When the name columns of the first table that [read_data] returns
    hold text, the second table invents no key: every cell of its [Year]
    column is the label of a column of the first table other than the two
    name columns, every cell of its [Country Name] column is a cell of the
    [Country Name] column of the first table, and the label of every
    indicator column is a cell of its [Series Name] column. *)
Theorem wide_keys_from_input (read_csv : result DataFrame) (wdi_data wide : DataFrame) :
  read_data read_csv = Ok (wdi_data, wide) →
  text_names wdi_data →
  ∃ years countries sn cn,
    lookup_col "Year" wide = Some years
    ∧ lookup_col "Country Name" wide = Some countries
    ∧ lookup_col "Series Name" wdi_data = Some sn
    ∧ lookup_col "Country Name" wdi_data = Some cn
    ∧ (∀ c, c ∈ vals years → ∃ y, c = Str y ∧ y ∈ labels wdi_data ∧ y ∉ name_columns)
    ∧ (∀ c, c ∈ vals countries → c ∈ vals cn)
    ∧ (∀ n, n ∈ drop 2 (labels wide) → Str n ∈ vals sn).
Proof.
  intros Hread _. apply read_data_Ok in Hread as (df & _ & Hclean & Hreshape).
  pose proof Hreshape as Hreshape'.
  apply reshape_Ok in Hreshape as (long & v & Hmelt & _ & -> & _ & _).
  assert (∃ sn cn, lookup_col "Series Name" wdi_data = Some sn
                   ∧ lookup_col "Country Name" wdi_data = Some cn) as (sn & cn & Hsn & Hcn).
  { revert Hmelt. unfold melt, getitems. simpl.
    destruct (getitem "Series Name" wdi_data) as [sn|] eqn:Esn; [|done]. rewrite bind_Ok.
    destruct (getitem "Country Name" wdi_data) as [cn|] eqn:Ecn; [|done].
    apply getitem_Ok in Esn, Ecn. by exists sn, cn. }
  assert (∀ o, o ∈ long_observations long →
               (obs_index o).1 ∈ labels wdi_data ∧ ((obs_index o).1 ∉ name_columns)
               ∧ Str (obs_index o).2 ∈ vals cn ∧ Str (obs_series o) ∈ vals sn) as Hobs.
  { intros o Ho. destruct (observation_row long o Ho) as (r & Hr & Hy & Hc & Hs).
    destruct (melt_rows wdi_data long r Hmelt Hr)
      as (sn' & cn' & Hsn' & Hcn' & Hs' & Hc' & y & Hy' & Hlab & Hname).
    rewrite Hsn in Hsn'. rewrite Hcn in Hcn'. simplify_eq.
    rewrite Hy in Hy'. injection Hy' as <-. rewrite <-Hc, <-Hs. done. }
  eexists _, _, sn, cn. split; [reflexivity|]. split; [reflexivity|].
  split; [done|]. split; [done|]. simpl.
  split; [|split].
  - intros c Hc. apply list_elem_of_fmap in Hc as (i & -> & Hi).
    rewrite merge_sort_Permutation, elem_of_remove_dups in Hi.
    apply list_elem_of_fmap in Hi as (o & -> & Ho).
    exists (obs_index o).1. split; [done|]. by destruct (Hobs o Ho) as (? & ? & _).
  - intros c Hc. apply list_elem_of_fmap in Hc as (i & -> & Hi).
    rewrite merge_sort_Permutation, elem_of_remove_dups in Hi.
    apply list_elem_of_fmap in Hi as (o & -> & Ho).
    by destruct (Hobs o Ho) as (_ & _ & ? & _).
  - intros n Hn. unfold labels in Hn. rewrite <-list_fmap_compose in Hn.
    apply list_elem_of_fmap in Hn as (s & -> & Hs). simpl.
    rewrite merge_sort_Permutation, elem_of_remove_dups in Hs.
    apply list_elem_of_fmap in Hs as (o & -> & Ho).
    by destruct (Hobs o Ho) as (_ & _ & _ & ?).
Qed.

End wide_layout.

(** ** The charts of [visualize] *)

Section charts.
Context `{Estimator}.

Lemma run_deref {A} (r : ref) (f : DataFrame → M A) (w : world) :
  (deref r ≫= f) w = f (heap w !!! r) w.
Proof. done. Qed.

Lemma run_lift {A B} (x : result A) (f : A → M B) (w : world) :
  (lift x ≫= f) w = match x with
                     | Ok a => f a w
                     | Raise e => (Raise e, w)
                     end.
Proof. by destruct x. Qed.

Lemma run_alloc {A} (df : DataFrame) (f : ref → M A) (w : world) :
  ∃ r, heap w !! r = None
       ∧ (alloc df ≫= f) w = f r (with_heap (<[r := df]> (heap w)) w).
Proof.
  destruct (alloc_spec df w) as (r & E & Hr). exists r. split; [done|].
  unfold mbind, M_bind, bind. by rewrite E.
Qed.

Lemma run_store {A} (r : ref) (df : DataFrame) (f : unit → M A) (w : world) :
  (store r df ≫= f) w = f () (with_heap (<[r := df]> (heap w)) w).
Proof. done. Qed.

Lemma run_bind_Ok {A B} (m : M A) (f : A → M B) (w w' : world) (a : A) :
  m w = (Ok a, w') → (m ≫= f) w = f a w'.
Proof. intros E. unfold mbind, M_bind, bind. by rewrite E. Qed.

Lemma run_bind_Raise {A B} (m : M A) (f : A → M B) (w w' : world) (e : exn) :
  m w = (Raise e, w') → (m ≫= f) w = (Raise e, w').
Proof. intros E. unfold mbind, M_bind, bind. by rewrite E. Qed.

Ltac run_alloc_as r Hr :=
  match goal with
  | |- context [ (alloc ?df ≫= ?f) ?w ] =>
      let E := fresh "E" in
      destruct (run_alloc df f w) as (r & Hr & E); rewrite !E; clear E
  end.

Lemma visualize_indicator_run (w : world) (data_frame : ref) (indicator : string) :
  (visualize_indicator data_frame indicator w).1
  = (top_ten (heap w !!! data_frame) indicator ≫= λ _, Ok ())
  ∧ figures (visualize_indicator data_frame indicator w).2
    = figures w ++ match top_ten (heap w !!! data_frame) indicator with
                   | Ok p => [p]
                   | Raise _ => []
                   end
  ∧ np_random (visualize_indicator data_frame indicator w).2 = np_random w.
Proof.
  unfold visualize_indicator, top_ten.
  rewrite run_deref. set (frame := heap w !!! data_frame). rewrite run_lift.
  destruct (getitem "Year" frame) as [year|e]; rewrite ?bind_Ok, ?bind_Raise;
    [|by rewrite app_nil_r].
  set (sel := filter_rows (map (eq_scalar "2020") (vals year)) frame).
  run_alloc_as r1 Hr1.
  rewrite run_deref. simpl heap. rewrite lookup_total_insert_eq.
  run_alloc_as r2 Hr2. simpl heap in Hr2.
  rewrite run_deref. simpl heap. rewrite lookup_total_insert_eq.
  rewrite run_lift. 
  destruct (getitem indicator sel) as [column|e]; rewrite ?bind_Ok, ?bind_Raise;
    [|by rewrite app_nil_r].
  rewrite run_lift. 
  destruct (rank_descending column) as [rank|e]; rewrite ?bind_Ok, ?bind_Raise;
    [|by rewrite app_nil_r].
  rewrite run_deref. simpl heap. rewrite lookup_total_insert_eq.
  rewrite run_store. simpl heap. rewrite insert_insert_eq.
  rewrite run_deref. simpl heap. rewrite lookup_total_insert_eq.
  rewrite run_lift.
  destruct (sort_values "Rank" (setitem "Rank" rank sel)) as [sorted|e];
    rewrite ?bind_Ok, ?bind_Raise; [|by rewrite app_nil_r].
  run_alloc_as r3 Hr3. simpl heap in Hr3.
  rewrite run_deref. simpl heap. rewrite lookup_total_insert_eq.
  run_alloc_as r4 Hr4. simpl heap in Hr4.
  rewrite run_deref. simpl heap. rewrite lookup_total_insert_eq.
  rewrite run_lift.
  destruct (sort_values "Rank" (head_rows 10 sorted)) as [ordered|e];
    rewrite ?bind_Ok, ?bind_Raise; [|by rewrite app_nil_r].
  run_alloc_as r5 Hr5. simpl heap in Hr5.
  rewrite run_deref. simpl heap. rewrite lookup_total_insert_eq.
  rewrite run_lift.
  destruct (getitem "Country Name" ordered) as [order|e];
    rewrite ?bind_Ok, ?bind_Raise; [|by rewrite app_nil_r].
  rewrite run_deref. simpl heap.
  assert (r4 ≠ r5) as Hne by (intros ->; by rewrite lookup_insert_eq in Hr5).
  rewrite lookup_total_insert_ne by done. rewrite lookup_total_insert_eq.
  rewrite run_lift.
  destruct (getitem indicator (head_rows 10 sorted)) as [col|e];
    rewrite ?bind_Ok, ?bind_Raise; [|by rewrite app_nil_r].
  done.
Qed.

(** The loop, chart by chart: it stops at the first indicator whose chart
    cannot be drawn, with the exception that came up. *)
Lemma visualize_run (w : world) (data_frame : ref) (frame : DataFrame)
    (indicators : list string) :
  heap w !! data_frame = Some frame →
  (visualize data_frame indicators w).1
  = (traverse (top_ten frame) indicators ≫= λ _, Ok ())
  ∧ figures (visualize data_frame indicators w).2 = figures w ++ charts frame indicators
  ∧ np_random (visualize data_frame indicators w).2 = np_random w.
Proof.
  revert w. induction indicators as [|indicator rest IH]; intros w Hframe.
  - simpl. by rewrite app_nil_r.
  - cbn [visualize traverse charts].
    destruct (visualize_indicator_run w data_frame indicator) as (Hres & Hfig & Hrng).
    pose proof (keeps_visualize_indicator w data_frame indicator w (preserves_refl w))
      as [Hkeep _].
    rewrite (lookup_total_correct _ _ _ Hframe) in Hres, Hfig.
    destruct (visualize_indicator data_frame indicator w) as [[[]|e] w'] eqn:E;
      simpl in Hres, Hfig, Hrng, Hkeep.
    + rewrite (run_bind_Ok _ _ _ _ _ E).
      destruct (top_ten frame indicator) as [p|e]; [|done].
      destruct (IH w' (Hkeep _ _ Hframe)) as (IHres & IHfig & IHrng).
      rewrite IHres, IHfig, IHrng, Hfig, Hrng, bind_Ok.
      split; [|by rewrite <-app_assoc].
      by destruct (traverse (top_ten frame) rest).
    + rewrite (run_bind_Raise _ _ _ _ _ E).
      destruct (top_ten frame indicator) as [p|e']; simpl in Hres; [discriminate Hres|].
      injection Hres as ->. rewrite app_nil_r in *. rewrite !bind_Raise. done.
Qed.

Lemma top_ten_Ok (frame : DataFrame) (indicator : string) (p : BarPlot) :
  top_ten frame indicator = Ok p →
  ∃ year column rank sorted ordered order,
    getitem "Year" frame = Ok year
    ∧ getitem indicator (filter_rows (map (eq_scalar "2020") (vals year)) frame) = Ok column
    ∧ rank_descending column = Ok rank
    ∧ sort_values "Rank"
        (setitem "Rank" rank (filter_rows (map (eq_scalar "2020") (vals year)) frame))
      = Ok sorted
    ∧ sort_values "Rank" (head_rows 10 sorted) = Ok ordered
    ∧ getitem "Country Name" ordered = Ok order
    ∧ p = mkBarPlot ("Top 10 Countries: " +:+ before_paren indicator)
            indicator "Country Name" (vals order) (head_rows 10 sorted).
Proof.
  unfold top_ten.
  destruct (getitem "Year" frame) as [year|] eqn:E1; [|done]. rewrite bind_Ok.
  destruct (getitem indicator _) as [column|] eqn:E2; [|done]. rewrite bind_Ok.
  destruct (rank_descending column) as [rank|] eqn:E3; [|done]. rewrite bind_Ok.
  destruct (sort_values "Rank" (setitem _ _ _)) as [sorted|] eqn:E4; [|done].
  rewrite bind_Ok.
  destruct (sort_values "Rank" (head_rows 10 sorted)) as [ordered|] eqn:E5; [|done].
  rewrite bind_Ok.
  destruct (getitem "Country Name" ordered) as [order|] eqn:E6; [|done]. rewrite bind_Ok.
  destruct (getitem indicator (head_rows 10 sorted)) as [col|]; [|done]. rewrite bind_Ok.
  intros [= <-]. by exists year, column, rank, sorted, ordered, order.
Qed.


(** X10.  [visualize] draws one chart per indicator, in the order of the
    list, until an indicator fails: when it returns there are as many new
    charts as indicators, when it raises there are fewer, one for each
    indicator before the failing one.  The chart of an indicator has the
    indicator on its x axis, [Country Name] on its y axis and the title
    [Top 10 Countries: ] followed by the name up to its first parenthesis.
    The global random generator is left as it is. *)
Theorem visualize_charts (w : world) (data_frame : ref) (indicators : list string) :
  ∃ figs,
    figures (visualize data_frame indicators w).2 = figures w ++ figs
    ∧ map bp_x figs = take (length figs) indicators
    ∧ Forall (λ f, bp_title f = "Top 10 Countries: " +:+ before_paren (bp_x f)
                   ∧ bp_y f = "Country Name") figs
    ∧ ((visualize data_frame indicators w).1 = Ok () → length figs = length indicators)
    ∧ (∀ e, (visualize data_frame indicators w).1 = Raise e →
            length figs < length indicators)
    ∧ np_random (visualize data_frame indicators w).2 = np_random w.
Proof.
  revert w. induction indicators as [|indicator rest IH]; intros w.
  - exists []. simpl. rewrite app_nil_r. split; [done|]. split; [done|].
    split; [constructor|]. split; [done|]. split; [|done]. intros e. done.
  - cbn [visualize].
    destruct (visualize_indicator_run w data_frame indicator) as (Hres & Hfig & Hrng).
    destruct (visualize_indicator data_frame indicator w) as [[[]|e] w'] eqn:E;
      simpl in Hres, Hfig, Hrng.
    + rewrite (run_bind_Ok _ _ _ _ _ E).
      destruct (top_ten (heap w !!! data_frame) indicator) as [p|e] eqn:Ep;
        [|discriminate Hres].
      apply top_ten_Ok in Ep as (? & ? & ? & ? & ? & ? & _ & _ & _ & _ & _ & _ & Hp).
      destruct (IH w') as (figs & Hf & Hx & Ht & Hok & Herr & Hr).
      exists (p :: figs). rewrite Hf, Hfig, <-app_assoc. split; [done|].
      split; [simpl; rewrite Hx; by subst p|].
      split; [constructor; [by subst p|done]|].
      split; [intros Hrun; simpl; f_equal; by apply Hok|].
      split; [|congruence]. intros e Hrun. simpl. specialize (Herr e Hrun). lia.
    + rewrite (run_bind_Raise _ _ _ _ _ E).
      destruct (top_ten (heap w !!! data_frame) indicator) as [p|e'] eqn:Ep;
        [discriminate Hres|].
      exists []. simpl. split; [done|]. split; [done|]. split; [constructor|].
      split; [done|]. split; [|done]. intros ? _. lia.
Qed.


Lemma argsort_elem (keys : list cell) (i : nat) : i ∈ argsort keys → i < length keys.
Proof.
  unfold argsort. intros Hi. apply list_elem_of_fmap in Hi as ([k j] & -> & Hin).
  rewrite merge_sort_Permutation in Hin. apply elem_of_zip_r in Hin. simpl in *.
  apply elem_of_seq in Hin. lia.
Qed.

Lemma argsort_length (keys : list cell) : length (argsort keys) = length keys.
Proof.
  unfold argsort. rewrite length_fmap.
  rewrite (Permutation_length (merge_sort_Permutation _ _)).
  rewrite length_zip, length_seq. lia.
Qed.

Lemma sort_values_Ok name df df' :
  sort_values name df = Ok df' →
  ∃ s, lookup_col name df = Some s ∧ df' = take_rows (argsort (vals s)) df.
Proof.
  unfold sort_values. destruct (getitem name df) as [s|] eqn:E; [|done].
  rewrite bind_Ok. intros [= <-]. exists s. split; [by apply getitem_Ok|done].
Qed.

Lemma rank_descending_length s rank :
  rank_descending s = Ok rank → length (vals rank) = length (vals s).
Proof.
  unfold rank_descending. case_match; [|done]. intros [= <-]. simpl. by rewrite length_map.
Qed.

Lemma select_mask_length_eq {A B} (mask : list bool) (l1 : list A) (l2 : list B) :
  length l1 = length l2 → length (select_mask mask l1) = length (select_mask mask l2).
Proof.
  revert l1 l2. induction mask as [|b mask IH]; intros [|a l1] [|c l2] Hlen;
    simpl in *; try done.
  destruct b; simpl; auto.
Qed.

Lemma select_mask_true {A} (f : A → bool) (l : list A) :
  Forall (λ a, f a = true) (select_mask (map f l) l).
Proof.
  induction l as [|a l IH]; simpl; [constructor|].
  destruct (f a) eqn:E; [constructor|]; done.
Qed.

Lemma eq_scalar_true v c : eq_scalar v c = true → c = Str v.
Proof.
  destruct c as [|s|x|n]; simpl; try done. intros Hs.
  apply bool_decide_eq_true in Hs. by subst.
Qed.

Lemma aligned_lookup df name s :
  aligned df → lookup_col name df = Some s → length (vals s) = nrows df.
Proof.
  intros Hal Hs. apply lookup_col_elem_of in Hs. unfold aligned in Hal.
  rewrite Forall_forall in Hal. by apply (Hal _ Hs).
Qed.

(** The table behind a chart: at most ten rows, all of the year 2020. *)
Lemma top_ten_rows (frame : DataFrame) (indicator : string) (p : BarPlot) :
  top_ten frame indicator = Ok p →
  Forall (λ c, length (vals c.2) ≤ 10) (bp_data p)
  ∧ length (bp_order p) ≤ 10
  ∧ (aligned frame →
     ∃ s, lookup_col "Year" (bp_data p) = Some s ∧ Forall (λ c, c = Str "2020") (vals s)).
Proof.
  intros Hp.
  apply top_ten_Ok in Hp
    as (year & column & rank & sorted & ordered & order
        & Hyear & Hcol & Hrank & Hsorted & Hordered & Horder & ->).
  simpl. split; [|split].
  - unfold head_rows, map_columns. apply Forall_forall. intros c Hc.
    apply list_elem_of_fmap in Hc as (c0 & -> & _). simpl. rewrite length_take. lia.
  - apply sort_values_Ok in Hordered as (rk & Hrk & ->).
    apply getitem_Ok in Horder. unfold take_rows in Horder.
    rewrite lookup_col_map_columns in Horder.
    destruct (lookup_col "Country Name" (head_rows 10 sorted)) as [cn|]; [|done].
    injection Horder as <-. simpl. rewrite length_map, argsort_length.
    unfold head_rows in Hrk. rewrite lookup_col_map_columns in Hrk.
    destruct (lookup_col "Rank" sorted) as [rk0|]; [|done]. injection Hrk as <-.
    simpl. rewrite length_take. lia.
  - intros Hal. apply getitem_Ok in Hyear, Hcol.
    apply sort_values_Ok in Hsorted as (rk & Hrk & ->).
    rewrite lookup_setitem in Hrk. injection Hrk as <-.
    unfold filter_rows in Hcol. rewrite lookup_col_map_columns in Hcol.
    destruct (lookup_col indicator frame) as [col|] eqn:Eind; [|done].
    injection Hcol as <-.
    unfold head_rows, take_rows, filter_rows.
    rewrite !lookup_col_map_columns, lookup_setitem_ne by done.
    rewrite lookup_col_map_columns, Hyear. simpl. eexists. split; [done|]. simpl.
    apply Forall_take, Forall_forall. intros c Hc.
    apply list_elem_of_fmap in Hc as (i & -> & Hi). apply argsort_elem in Hi.
    rewrite (rank_descending_length _ _ Hrank) in Hi. simpl in Hi.
    rewrite (select_mask_length_eq _ (vals col) (vals year)) in Hi
      by (by rewrite (aligned_lookup _ _ _ Hal Eind), (aligned_lookup _ _ _ Hal Hyear)).
    pose proof (select_mask_true (eq_scalar "2020") (vals year)) as Hsel.
    rewrite Forall_forall in Hsel. apply eq_scalar_true, Hsel.
    apply list_elem_of_In, nth_In. done.
Qed.

(** X11.  Every chart that [visualize] draws for a frame shows at most ten
    countries, and the table behind it has at most ten rows, all of them
    rows of the year 2020 when the columns of the frame have one cell per
    row. *)
Theorem visualize_top_ten (w : world) (data_frame : ref) (frame : DataFrame)
    (indicators : list string) :
  heap w !! data_frame = Some frame →
  aligned frame →
  ∃ figs,
    figures (visualize data_frame indicators w).2 = figures w ++ figs
    ∧ Forall (λ f, Forall (λ c, length (vals c.2) ≤ 10) (bp_data f)
                   ∧ length (bp_order f) ≤ 10
                   ∧ ∃ s, lookup_col "Year" (bp_data f) = Some s
                          ∧ Forall (λ c, c = Str "2020") (vals s)) figs.
Proof.
  intros Hframe Hal.
  destruct (visualize_run w data_frame frame indicators Hframe) as (_ & Hfig & _).
  exists (charts frame indicators). split; [done|]. clear Hfig.
  induction indicators as [|indicator rest IH]; simpl; [constructor|].
  destruct (top_ten frame indicator) as [p|e] eqn:Ep; [|constructor].
  constructor; [|done].
  destruct (top_ten_rows frame indicator p Ep) as (Hrows & Horder & Hyear).
  split; [done|]. split; [done|]. by apply Hyear.
Qed.

(** X12.  [visualize] raises the [KeyError] of pandas when the frame lacks
    the [Year] column or the column of the first indicator, before it has
    drawn anything. *)
Theorem visualize_missing_column (w : world) (data_frame : ref) (frame : DataFrame)
    (indicator : string) (rest : list string) :
  heap w !! data_frame = Some frame →
  "Year" ∉ labels frame ∨ indicator ∉ labels frame →
  (visualize data_frame (indicator :: rest) w).1
  = Raise (KeyError (if decide ("Year" ∈ labels frame) then indicator else "Year"))
  ∧ figures (visualize data_frame (indicator :: rest) w).2 = figures w.
Proof.
  intros Hframe Hmiss.
  destruct (visualize_run w data_frame frame (indicator :: rest) Hframe) as (-> & -> & _).
  cbn [traverse charts].
  assert (top_ten frame indicator
          = Raise (KeyError (if decide ("Year" ∈ labels frame) then indicator else "Year")))
    as ->.
  { unfold top_ten. destruct (decide ("Year" ∈ labels frame)) as [Hy|Hy].
    - destruct (getitem_present "Year" frame Hy) as [year ->]. rewrite bind_Ok.
      destruct Hmiss as [Hmiss|Hmiss]; [done|].
      rewrite getitem_missing; [done|].
      unfold filter_rows. by rewrite labels_map_columns.
    - by rewrite getitem_missing. }
  rewrite !bind_Raise. by rewrite app_nil_r.
Qed.

End charts.

(** ** From the loaded tables to the charts *)

Section pipeline.
Context `{Builtins} `{Estimator}.










End pipeline.

(** ** What [cluster_data] leaves behind *)

Section cluster_footprint.
Context `{Estimator}.

(** X14.  A call of [cluster_data] shows no figure and leaves the global
    random generator as it is, also when [KMeans] raises.  When it returns,
    the frame it returns is an object that did not exist before the call,
    and the normalized data are the scaled numeric columns of the input,
    whatever the number of clusters. *)
Theorem cluster_data_footprint (w : world) (df : ref) (n_clusters : Z) :
  figures (cluster_data df n_clusters w).2 = figures w
  ∧ np_random (cluster_data df n_clusters w).2 = np_random w
  ∧ ∀ r normalized,
      (cluster_data df n_clusters w).1 = Ok (r, normalized) →
      heap w !! r = None
      ∧ normalized = (scaler (select_dtypes_number (heap w !!! df))).1.1.
Proof.
  rewrite cluster_data_run.
  assert (heap w !! fresh (dom (heap w)) = None) as Hfresh.
  { destruct (heap w !! fresh (dom (heap w))) eqn:E; [|done].
    by apply fresh_not_allocated in E. }
  destruct (KMeans_fit _ _ _ _).1 as [labels|e]; simpl.
  - split; [done|]. split; [done|]. by intros r normalized [= <- <-].
  - split; [done|]. split; [done|]. intros r normalized. done.
Qed.

End cluster_footprint.

(** ** The two fits of [fit_model_with_errors] *)

Section fits.
Context `{Optimizers} `{Jacobian}.

(** X15.  The least-squares results of [fit_model_with_errors] (lines
    226-230 and 240-241) depend on [x], [y] and [alpha] only: two calls that
    return, whatever their model functions and initial guesses, give the
    same least-squares predictions and the same least-squares bounds. *)
Theorem ols_results_independent_of_model (x y : array) (func func' : model)
    (initial_guess initial_guess' : option (list float)) (alpha : float)
    (r r' : fit_result) :
  fit_model_with_errors x y func initial_guess alpha = Ok r →
  fit_model_with_errors x y func' initial_guess' alpha = Ok r' →
  predictions_ols r = predictions_ols r'
  ∧ lowerbound_ols r = lowerbound_ols r'
  ∧ upperbound_ols r = upperbound_ols r'.
Proof.
  intros Hr Hr'.
  apply fit_model_with_errors_ols in Hr as (m & ci & Hm & Hp & Hc & -> & ->).
  apply fit_model_with_errors_ols in Hr' as (m' & ci' & Hm' & Hp' & Hc' & -> & ->).
  rewrite Hm in Hm'. injection Hm' as <-.
  rewrite Hp in Hp'. injection Hp' as <-.
  rewrite Hc in Hc'. injection Hc' as <-. done.
Qed.

(** X16.  With [linear_function] as the model (lines 248-249 and 261), a
    fit that returns has exactly two parameters [a] and [b], its prediction
    at each [x] is [a * x + b], and its two bounds have one entry per [x].
    When [curve_fit] returns another number of parameters, the call
    [func(x, *popt)] raises [TypeError]. *)
Theorem linear_function_fit (x y : array) (initial_guess : option (list float))
    (alpha : float) (params : list float) (cov : matrix) :
  curve_fit linear_function x y initial_guess = Ok (params, cov) →
  (length params ≠ 2 →
   raised (fit_model_with_errors x y linear_function initial_guess alpha) "TypeError")
  ∧ ∀ r, fit_model_with_errors x y linear_function initial_guess alpha = Ok r →
      ∃ a b, popt r = [a; b]
             ∧ predictions_curve_fit r
               = map (λ xi, PrimFloat.add (PrimFloat.mul a xi) b) x
             ∧ length (lowerbound_curve_fit r) = length x
             ∧ length (upperbound_curve_fit r) = length x.
Proof.
  intros Hcf. split.
  - intros Hlen. unfold fit_model_with_errors. rewrite Hcf, bind_Ok.
    destruct params as [|a [|b [|c params]]]; simpl in *; try done; by eexists.
  - intros r Hr.
    destruct (fit_model_with_errors_Ok _ _ _ _ _ _ Hr) as (Hcf' & Hpred & Hlo & Hhi).
    rewrite Hcf in Hcf'. injection Hcf' as Hp Hc.
    destruct (popt r) as [|a [|b [|c ps]]] eqn:Epopt; simpl in Hpred; try done.
    injection Hpred as Hpred. exists a, b. split; [done|]. split; [done|].
    rewrite Hlo, Hhi, !length_zip_with. unfold error_prop.
    rewrite <-Hpred, !length_map. lia.
Qed.

End fits.

(** ** The title of a chart *)

Section titles.

(** X17.  The text that [visualize] puts in a title, [indicator.split('(')[0]]
    (line 102), is the longest prefix of the name without a parenthesis: the
    name is this prefix followed by nothing or by a rest that starts with
    [(], and the prefix holds no [(]. *)
Theorem before_paren_prefix (s : string) :
  ∃ rest, s = before_paren s +:+ rest
          ∧ (rest = "" ∨ ∃ t, rest = String "("%char t)
          ∧ ∀ a, In a (String.list_ascii_of_string (before_paren s)) → a ≠ "("%char.
Proof.
  induction s as [|a s (rest & Hs & Hrest & Hno)]; simpl.
  - exists "". split; [done|]. split; [by left|]. intros a [].
  - case_bool_decide as E.
    + subst a. exists (String "("%char s). split; [done|].
      split; [right; by exists s|]. intros a [].
    + exists rest. split.
      { change (String a (before_paren s) +:+ rest)
          with (String a (before_paren s +:+ rest)). by rewrite <-Hs. }
      split; [done|].
      simpl. intros b [<-|Hb]; [done|]. by apply Hno.
Qed.

End titles.

(** ** When [read_data] returns *)

Section returns.
Context `{Builtins}.

Lemma traverse_succeeds {A B} (f : A → result B) (l : list A) :
  Forall (λ a, ∃ b, f a = Ok b) l → ∃ l', traverse f l = Ok l'.
Proof.
  induction 1 as [|a l [b Hb] _ [l' IH]]; simpl.
  - by exists [].
  - rewrite Hb, bind_Ok, IH, bind_Ok. by eexists.
Qed.

Lemma drop_columns_succeeds names df :
  Forall (λ n, n ∈ labels df) names → ∃ df', drop_columns names df = Ok df'.
Proof.
  intros Hall. unfold drop_columns.
  destruct (filter (λ n, n ∉ labels df) names) as [|n ns] eqn:E; [by eexists|].
  assert (n ∈ filter (λ n, n ∉ labels df) names) as Hn
    by (rewrite E; apply elem_of_cons; by left).
  apply list_elem_of_filter in Hn as [Hno Hn]. rewrite Forall_forall in Hall.
  by destruct (Hno (Hall n Hn)).
Qed.

Lemma elem_of_labels_lookup n df : n ∈ labels df → ∃ s, lookup_col n df = Some s.
Proof.
  intros Hn. destruct (lookup_col n df) as [s|] eqn:E; [by exists s|].
  by apply lookup_col_None in E.
Qed.

Lemma lookup_elem_of_labels n df s : lookup_col n df = Some s → n ∈ labels df.
Proof.
  intros Hs. destruct (decide (n ∈ labels df)) as [|Hno]; [done|].
  apply lookup_col_None in Hno. congruence.
Qed.

Lemma labels_kept_rows df : labels (kept_rows df) = labels df.
Proof. apply labels_cleaning_rows. Qed.

(** The steps of the cleaning up to the conversion, when the code and the
    year columns are there. *)
Lemma clean_steps df :
  Forall (λ n, n ∈ labels df) (code_columns ++ year_columns) →
  ∃ base ycols,
    drop_columns ["Country Code"; "Series Code"] (kept_rows df) = Ok base
    ∧ getitems year_columns base = Ok ycols
    ∧ labels ycols = year_columns
    ∧ ∀ p, p ∈ ycols → lookup_col p.1 (kept_rows df) = Some p.2.
Proof.
  intros Hall. apply Forall_app in Hall as [Hcodes Hyears].
  destruct (drop_columns_succeeds ["Country Code"; "Series Code"] (kept_rows df))
    as [base Hbase]; [by rewrite labels_kept_rows|].
  assert (∀ y, y ∈ year_columns → lookup_col y base = lookup_col y (kept_rows df))
    as Hlk.
  { intros y Hy. rewrite (drop_columns_lookup _ _ _ y Hbase).
    fold code_columns. destruct (decide (y ∈ code_columns)) as [Hc|]; [|done].
    by destruct (year_not_code y Hy). }
  assert (∃ ycols, getitems year_columns base = Ok ycols) as [ycols Hycols].
  { apply traverse_succeeds, Forall_forall. intros y Hy.
    rewrite Forall_forall in Hyears.
    destruct (elem_of_labels_lookup y (kept_rows df)) as [s Hs];
      [rewrite labels_kept_rows; by apply Hyears|].
    rewrite <-(Hlk y Hy) in Hs. apply getitem_Ok in Hs. rewrite Hs, bind_Ok.
    by eexists. }
  exists base, ycols. split; [done|]. split; [done|].
  split; [by apply getitems_labels in Hycols|].
  intros [y s] Hp. apply traverse_Forall2 in Hycols.
  apply list_elem_of_lookup in Hp as [i Hi].
  destruct (Forall2_lookup_r _ _ _ _ _ Hycols Hi) as (y' & Hy' & Hget).
  destruct (getitem y' base) as [s'|] eqn:Eg; [|done]. rewrite bind_Ok in Hget.
  injection Hget as -> ->. simpl. rewrite <-Hlk; [by apply getitem_Ok|].
  by apply list_elem_of_lookup_2 in Hy'.
Qed.

(** X18.  When the file has the code columns and the year columns, and a
    cell of a year column that the cleaning keeps cannot be converted,
    [read_data] raises what [float(..)] raises for it: a [ValueError] for a
    text that is no number, a [TypeError] for a missing value that no fill
    could replace. *)
Theorem read_data_conversion_error (df : DataFrame) (y : string) (s : Series)
    (c : cell) (e : exn) :
  Forall (λ n, n ∈ labels df) (code_columns ++ year_columns) →
  y ∈ year_columns →
  lookup_col y (kept_rows df) = Some s →
  c ∈ vals s →
  to_float c = Raise e →
  ∃ e', read_data (Ok df) = Raise e'
        ∧ (exn_class e' = "ValueError" ∨ exn_class e' = "TypeError").
Proof.
  intros Hall Hy Hs Hc He.
  destruct (clean_steps df Hall) as (base & ycols & Hbase & Hycols & Hlab & Hcols).
  unfold read_data. rewrite bind_Ok. unfold clean. fold (kept_rows df).
  rewrite Hbase, bind_Ok, Hycols, bind_Ok.
  destruct (astype_float ycols) as [years|e'] eqn:Ea.
  - exfalso. apply traverse_Forall2 in Ea.
    rewrite <-Hlab in Hy. unfold labels in Hy.
    apply list_elem_of_fmap in Hy as ([y' s'] & -> & Hin).
    pose proof (Hcols _ Hin) as Hs'. simpl in Hs, Hs'. rewrite Hs in Hs'.
    injection Hs' as <-.
    apply list_elem_of_lookup in Hin as [i Hi].
    destruct (Forall2_lookup_l _ _ _ _ _ Ea Hi) as (p & _ & Hconv). simpl in Hconv.
    destruct (traverse to_float (vals s)) as [cs|] eqn:Ecs; [|done].
    apply traverse_Forall2 in Ecs.
    apply list_elem_of_lookup in Hc as [j Hj].
    destruct (Forall2_lookup_l _ _ _ _ _ Ecs Hj) as (c' & _ & Hc'). congruence.
  - exists e'. rewrite !bind_Raise. split; [done|]. by apply astype_float_raise in Ea.
Qed.

Lemma kept_rows_cells df n s c :
  lookup_col n (kept_rows df) = Some s → c ∈ vals s →
  ∃ s0 c0, lookup_col n df = Some s0 ∧ c0 ∈ vals s0 ∧ c = mark_sentinel c0.
Proof.
  rewrite kept_rows_lookup. destruct (lookup_col n df) as [s0|]; [|done].
  intros [= <-]. simpl. intros Hc.
  assert (Forall (λ c, ∃ c0, c0 ∈ vals s0 ∧ c = mark_sentinel c0)
            (take 1519 (select_mask (first_occurrences [] (rows (fill_missing df)))
                          (bfill (ffill (map mark_sentinel (vals s0))))))) as Hall.
  { apply Forall_take, select_mask_Forall, bfill_Forall, ffill_Forall, Forall_forall.
    intros c' Hc'. apply list_elem_of_fmap in Hc' as (c0 & -> & Hc0). by exists c0. }
  rewrite Forall_forall in Hall. destruct (Hall c Hc) as (c0 & Hc0 & ->).
  by exists s0, c0.
Qed.

(** X19.  [read_data] returns its two tables when the file has the two code
    columns, the nine year columns and the two name columns, but no column
    called [Value] (the name that [melt] is to give to its value column),
    every cell of a year column that the cleaning keeps can be converted to
    a float, and no indicator is called [Year] or [Country Name]. *)
Theorem read_data_returns (df : DataFrame) :
  Forall (λ n, n ∈ labels df) (code_columns ++ year_columns ++ name_columns) →
  "Value" ∉ labels df →
  (∀ y s c, y ∈ year_columns → lookup_col y (kept_rows df) = Some s → c ∈ vals s →
            ∃ x, to_float c = Ok (Num x)) →
  (∀ sn, lookup_col "Series Name" df = Some sn →
         (Str "Year" ∉ vals sn) ∧ (Str "Country Name" ∉ vals sn)) →
  ∃ wdi_data wide, read_data (Ok df) = Ok (wdi_data, wide).
Proof.
  intros Hall _ Hconv Hnames.
  apply Forall_app in Hall as [Hcodes Hall]. apply Forall_app in Hall as [Hyears Hnm].
  destruct (clean_steps df) as (base & ycols & Hbase & Hycols & Hlab & Hcols);
    [by apply Forall_app|].
  assert (∃ years, astype_float ycols = Ok years) as [years Hyrs].
  { apply traverse_succeeds, Forall_forall. intros [y s] Hp.
    pose proof (Hcols _ Hp) as Hs. simpl in *.
    assert (y ∈ year_columns) as Hy
      by (rewrite <-Hlab; apply list_elem_of_fmap; by exists (y, s)).
    destruct (traverse_succeeds to_float (vals s)) as [cs Hcs].
    { apply Forall_forall. intros c Hc. destruct (Hconv y s c Hy Hs Hc) as [x Hx].
      by eexists. }
    rewrite Hcs, bind_Ok. by eexists. }
  assert (clean df = Ok (setitems years base)) as Hclean.
  { unfold clean. fold (kept_rows df). by rewrite Hbase, bind_Ok, Hycols, bind_Ok, Hyrs. }
  set (wdi := setitems years base) in *.
  assert (labels years = year_columns) as Hylab
    by (by rewrite (astype_float_labels _ _ Hyrs)).
  assert (∀ n, n ∈ name_columns → lookup_col n wdi = lookup_col n (kept_rows df)) as Hlk.
  { intros n Hn. unfold wdi. rewrite lookup_setitems_other.
    - rewrite (drop_columns_lookup _ _ _ n Hbase). fold code_columns.
      destruct (decide (n ∈ code_columns)) as [Hc|]; [|done].
      unfold name_columns in Hn. unfold code_columns in Hc.
      repeat (apply elem_of_cons in Hn as [->|Hn];
              [repeat (apply elem_of_cons in Hc as [Hc|Hc]; [discriminate|]);
               by apply elem_of_nil in Hc|]).
      by apply elem_of_nil in Hn.
    - rewrite Hylab. intros Hy. unfold name_columns in Hn. unfold year_columns in Hy.
      repeat (apply elem_of_cons in Hn as [->|Hn];
              [repeat (apply elem_of_cons in Hy as [Hy|Hy]; [discriminate|]);
               by apply elem_of_nil in Hy|]).
      by apply elem_of_nil in Hn. }
  assert (∀ n, n ∈ name_columns → ∃ s, lookup_col n wdi = Some s) as Hpresent.
  { intros n Hn. rewrite (Hlk n Hn). apply elem_of_labels_lookup.
    rewrite labels_kept_rows. rewrite Forall_forall in Hnm. by apply Hnm. }
  destruct (Hpresent "Series Name") as [sn Hsn]; [apply elem_of_cons; by left|].
  destruct (Hpresent "Country Name") as [cn Hcn];
    [apply elem_of_cons; right; apply elem_of_cons; by left|].
  assert (∃ long, melt ["Series Name"; "Country Name"] "Year" "Value" wdi = Ok long)
    as [long Hmelt].
  { unfold melt, getitems. simpl.
    rewrite (proj2 (getitem_Ok _ _ _) Hsn), bind_Ok.
    rewrite (proj2 (getitem_Ok _ _ _) Hcn), !bind_Ok. by eexists. }
  assert (∃ p, pivot_table "Year" "Country Name" "Series Name" "Value" long = Ok p)
    as [p Hp].
  { revert Hmelt. unfold melt, getitems. simpl.
    rewrite (proj2 (getitem_Ok _ _ _) Hsn), bind_Ok.
    rewrite (proj2 (getitem_Ok _ _ _) Hcn), !bind_Ok. intros [= <-].
    unfold pivot_table, getitem. simpl. rewrite ?bind_Ok. by eexists. }
  assert (∃ wide, reset_index p = Ok wide) as [wide Hwide].
  { pose proof Hp as Hp'.
    apply pivot_table_Ok in Hp' as (v & _ & Hpn & _ & Hcols').
    assert (∀ n, n ∈ labels (p_columns p) → Str n ∈ vals sn) as Hin.
    { intros n Hn. rewrite Hcols' in Hn. unfold labels in Hn.
      rewrite <-list_fmap_compose in Hn.
      apply list_elem_of_fmap in Hn as (s & -> & Hs). simpl.
      rewrite merge_sort_Permutation, elem_of_remove_dups in Hs.
      apply list_elem_of_fmap in Hs as (o & -> & Ho).
      destruct (observation_row long o Ho) as (r & Hr & _ & _ & Hser).
      destruct (melt_rows wdi long r Hmelt Hr)
        as (sn' & cn' & Hsn' & _ & Hs' & _).
      rewrite Hsn in Hsn'. injection Hsn' as <-. by rewrite <-Hser. }
    assert (∀ n, n ∈ ["Year"; "Country Name"] → n ∉ labels (p_columns p)) as Hno.
    { intros n Hn Hlabel. apply Hin in Hlabel.
      rewrite (Hlk "Series Name") in Hsn by (apply elem_of_cons; by left).
      destruct (kept_rows_cells df "Series Name" sn (Str n) Hsn Hlabel)
        as (s0 & c0 & Hs0 & Hc0 & Hmark).
      destruct (Hnames s0 Hs0) as [Hy Hc].
      assert (c0 = Str n) as ->.
      { destruct c0 as [|t|x|z]; simpl in Hmark; try done.
        by case_bool_decide. }
      apply elem_of_cons in Hn as [->|Hn]; [done|].
      apply elem_of_cons in Hn as [->|Hn]; [done|]. by apply elem_of_nil in Hn. }
    unfold reset_index. rewrite Hpn. simpl.
    rewrite bool_decide_eq_false_2
      by (apply Hno; apply elem_of_cons; right; apply elem_of_cons; by left).
    rewrite bool_decide_eq_false_2 by (apply Hno; apply elem_of_cons; by left).
    by eexists. }
  exists wdi, wide. unfold read_data. rewrite bind_Ok, Hclean, bind_Ok.
  unfold reshape. by rewrite Hmelt, bind_Ok, Hp, bind_Ok, Hwide, bind_Ok.
Qed.

End returns.

(** ** Removing repeated rows *)

Section duplicates.

(** The rows of a table given by its columns, [n] of them. *)
Lemma rows_columns (df : DataFrame) :
  rows df = map (λ i, map (λ p, nth i (vals p.2) NA) df) (seq 0 (nrows df)).
Proof. done. Qed.

Lemma rows_shift {A} (cols : list (A * list cell)) (n : nat) :
  map (λ i, map (λ p, nth i p.2 NA) cols) (seq 1 n)
  = map (λ i, map (λ p, nth i (tail p.2) NA) cols) (seq 0 n).
Proof.
  rewrite <-fmap_S_seq. rewrite <-list_fmap_compose. apply map_ext. intros i. simpl.
  apply map_ext. intros [a [|c l]]; simpl; [by destruct i|done].
Qed.

Lemma select_mask_count {A} (mask : list bool) (l : list A) :
  length l = length mask →
  length (select_mask mask l) = length (filter (λ b, Is_true b) mask).
Proof.
  revert l. induction mask as [|b mask IH]; intros [|a l] Hlen; simpl in *; try done.
  destruct b.
  - rewrite filter_cons_True by done. simpl. f_equal. apply IH. lia.
  - rewrite filter_cons_False by (by intros ?). apply IH. lia.
Qed.

(** Selecting rows is selecting in each column. *)
Lemma select_mask_rows {A} (mask : list bool) (cols : list (A * list cell)) :
  Forall (λ p, length p.2 = length mask) cols →
  select_mask mask (map (λ i, map (λ p, nth i p.2 NA) cols) (seq 0 (length mask)))
  = map (λ i, map (λ p, nth i (select_mask mask p.2) NA) cols)
        (seq 0 (length (filter (λ b, Is_true b) mask))).
Proof.
  revert cols. induction mask as [|b mask IH]; intros cols Hcols; [done|].
  assert (Forall (λ p : A * list cell, length p.2 = length mask)
            (map (λ p, (p.1, tail p.2)) cols)) as Htail.
  { apply Forall_forall. intros q Hq. apply list_elem_of_fmap in Hq as (p & -> & Hp).
    rewrite Forall_forall in Hcols. specialize (Hcols p Hp). simpl in *.
    destruct p.2; simpl in *; lia. }
  assert (select_mask mask
            (map (λ i, map (λ p, nth i (tail p.2) NA) cols) (seq 0 (length mask)))
          = map (λ i, map (λ p, nth i (select_mask mask (tail p.2)) NA) cols)
                (seq 0 (length (filter (λ b, Is_true b) mask)))) as IH'.
  { etrans; [|etrans; [apply (IH (map (λ p, (p.1, tail p.2)) cols) Htail)|]].
    - f_equal. apply map_ext. intros i. by rewrite map_map.
    - apply map_ext. intros i. by rewrite map_map. }
  clear IH Htail. cbn [length seq map]. rewrite rows_shift.
  rewrite Forall_forall in Hcols.
  destruct b.
  - rewrite filter_cons_True by done. cbn [select_mask length seq map].
    f_equal.
    + apply map_ext_in. intros p Hp. apply list_elem_of_In in Hp.
      specialize (Hcols p Hp). destruct p.2; simpl in *; [lia|done].
    + rewrite IH', <-fmap_S_seq, <-list_fmap_compose. apply map_ext. intros i. simpl.
      apply map_ext_in. intros p Hp. apply list_elem_of_In in Hp.
      specialize (Hcols p Hp). destruct p.2; simpl in *; [lia|done].
  - rewrite filter_cons_False by (by intros ?). cbn [select_mask].
    rewrite IH'. apply map_ext. intros i. apply map_ext_in. intros p Hp.
    apply list_elem_of_In in Hp.
    specialize (Hcols p Hp). destruct p.2; simpl in *; [lia|done].
Qed.

Lemma nrows_filter_rows (mask : list bool) (df : DataFrame) :
  aligned df → length mask = nrows df →
  nrows (filter_rows mask df) = length (filter (λ b, Is_true b) mask).
Proof.
  intros Hal Hlen. destruct df as [|[n s] df]; simpl in *.
  - by destruct mask.
  - apply select_mask_count. by rewrite Hlen.
Qed.

Lemma rows_filter_rows (mask : list bool) (df : DataFrame) :
  aligned df → length mask = nrows df →
  rows (filter_rows mask df) = select_mask mask (rows df).
Proof.
  intros Hal Hlen. rewrite !rows_columns, nrows_filter_rows, <-Hlen by done.
  assert (Forall (λ p : string * list cell, length p.2 = length mask)
            (map (λ p, (p.1, vals p.2)) df)) as Hcols.
  { apply Forall_forall. intros q Hq. apply list_elem_of_fmap in Hq as (p & -> & Hp).
    unfold aligned in Hal. rewrite Forall_forall in Hal. simpl.
    by rewrite (Hal p Hp), Hlen. }
  pose proof (select_mask_rows mask _ Hcols) as Hsel.
  etrans; [|etrans; [symmetry; exact Hsel|]].
  - apply map_ext. intros i. unfold filter_rows, map_columns. by rewrite !map_map.
  - f_equal. apply map_ext. intros i. by rewrite map_map.
Qed.

Lemma aligned_filter_rows (mask : list bool) (df : DataFrame) :
  aligned df → length mask = nrows df → aligned (filter_rows mask df).
Proof.
  intros Hal Hlen. unfold aligned. rewrite nrows_filter_rows by done.
  apply Forall_forall. intros q Hq. unfold filter_rows, map_columns in Hq.
  apply list_elem_of_fmap in Hq as (p & -> & Hp). simpl.
  apply select_mask_count. unfold aligned in Hal. rewrite Forall_forall in Hal.
  by rewrite (Hal p Hp).
Qed.

Lemma first_occurrences_length seen rest :
  length (first_occurrences seen rest) = length rest.
Proof.
  revert seen. induction rest as [|r rest IH]; intros seen; simpl; [done|].
  by rewrite IH.
Qed.

(** The rows that are kept: none equals a row seen before, nor a row kept
    before it. *)
Lemma first_occurrences_distinct (seen rest : list (list cell)) :
  let kept := select_mask (first_occurrences seen rest) rest in
  sublist kept rest
  ∧ Forall (λ r, existsb (row_eqb r) seen = false) kept
  ∧ ∀ i j r1 r2, i < j → kept !! i = Some r1 → kept !! j = Some r2 →
                 row_eqb r2 r1 = false.
Proof.
  revert seen. induction rest as [|r rest IH]; intros seen; cbn zeta.
  - split; [done|]. split; [constructor|]. intros i j r1 r2 _ Hi. done.
  - specialize (IH (r :: seen)). cbn zeta in IH. destruct IH as (Hsub & Hall & Hpair).
    assert (Forall (λ r', existsb (row_eqb r') seen = false ∧ row_eqb r' r = false)
              (select_mask (first_occurrences (r :: seen) rest) rest)) as Hall'.
    { eapply Forall_impl; [exact Hall|]. simpl. intros r' Hr'.
      apply orb_false_elim in Hr' as [? ?]. done. }
    cbn [first_occurrences select_mask].
    destruct (existsb (row_eqb r) seen) eqn:E; cbn [negb].
    + split; [by apply sublist_cons|]. split; [|done].
      eapply Forall_impl; [exact Hall'|]. by intros r' [? _].
    + split; [by apply sublist_skip|]. split.
      * constructor; [done|]. eapply Forall_impl; [exact Hall'|]. by intros r' [? _].
      * intros i j r1 r2 Hij Hi Hj. destruct j as [|j]; [lia|]. simpl in Hj.
        destruct i as [|i]; simpl in Hi.
        -- injection Hi as <-. rewrite Forall_forall in Hall'.
           apply list_elem_of_lookup_2 in Hj. by destruct (Hall' r2 Hj).
        -- apply (Hpair i j); [lia|done|done].
Qed.

(** X20.  [drop_duplicates()] (line 41) keeps the rows of the table in
    their order and removes only rows: no row that is left equals a row
    that is left before it, and the first row always stays.  The columns
    of the result have one cell per row that is left. *)
Theorem drop_duplicates_rows (df : DataFrame) :
  aligned df →
  sublist (rows (drop_duplicates df)) (rows df)
  ∧ (∀ i j r1 r2, i < j →
       rows (drop_duplicates df) !! i = Some r1 →
       rows (drop_duplicates df) !! j = Some r2 →
       row_eqb r2 r1 = false)
  ∧ head (rows (drop_duplicates df)) = head (rows df)
  ∧ aligned (drop_duplicates df).
Proof.
  intros Hal. unfold drop_duplicates.
  assert (length (first_occurrences [] (rows df)) = nrows df) as Hlen.
  { rewrite first_occurrences_length. unfold rows. by rewrite length_map, length_seq. }
  rewrite rows_filter_rows by done.
  destruct (first_occurrences_distinct [] (rows df)) as (Hsub & _ & Hpair).
  split; [done|]. split; [done|]. split; [|by apply aligned_filter_rows].
  by destruct (rows df).
Qed.

End duplicates.

(** ** Shapes: the melted table, the clustered frame, the order of the bars *)

Section shapes.
Context `{Estimator}.

Lemma length_join_same {A} (n : nat) (ls : list (list A)) :
  Forall (λ l, length l = n) ls → length (mjoin ls) = n * length ls.
Proof.
  induction 1 as [|l ls Hl _ IH]; simpl; [lia|]. rewrite length_app, IH, Hl. lia.
Qed.

(** X21.  [pd.melt] (lines 56-59) on a table whose columns have one cell
    per row: the long table has the identifier columns followed by the
    variable and the value column, and each of them has one cell per row of
    the table and column that is melted. *)
Theorem melt_shape (ids : list string) (var value : string) (df long : DataFrame) :
  melt ids var value df = Ok long →
  aligned df →
  labels long = ids ++ [var; value]
  ∧ Forall (λ p, length (vals p.2)
                 = nrows df * length (filter (λ q : string * Series, q.1 ∉ ids) df)) long.
Proof.
  unfold melt. destruct (getitems ids df) as [id_cols|] eqn:Eids; [|done].
  rewrite bind_Ok. intros [= <-] Hal.
  match goal with
  | |- context [@filter ?A ?B ?F ?P ?D ?l] => set (vc := @filter A B F P D l)
  end.
  assert (Forall (λ p : string * Series, length (vals p.2) = nrows df) vc) as Hvc.
  { apply Forall_forall. intros p Hp. apply list_elem_of_filter in Hp as [_ Hp].
    unfold aligned in Hal. rewrite Forall_forall in Hal. by apply Hal. }
  split.
  - unfold labels. rewrite fmap_app, <-list_fmap_compose. simpl. f_equal.
    apply getitems_labels in Eids. unfold labels in Eids. rewrite <-Eids.
    by apply list_fmap_ext.
  - apply Forall_app. split.
    + apply Forall_forall. intros q Hq. apply list_elem_of_fmap in Hq as (p & -> & Hp).
      simpl. rewrite (length_join_same (nrows df)), length_replicate; [done|].
      apply Forall_replicate_iff.
      unfold getitems in Eids. apply traverse_Forall2 in Eids.
      apply list_elem_of_lookup in Hp as [i Hi].
      destruct (Forall2_lookup_r _ _ _ _ _ Eids Hi) as (n & _ & Hget).
      destruct (getitem n df) as [s|] eqn:Es; [|done]. rewrite bind_Ok in Hget.
      injection Hget as <-. simpl. apply getitem_Ok in Es.
      by apply (aligned_lookup df n s).
    + constructor; [|constructor; [|constructor]]; simpl.
      * rewrite (length_join_same (nrows df)), length_map; [done|].
        apply Forall_forall. intros l Hl. apply list_elem_of_fmap in Hl as (p & -> & _).
        apply length_replicate.
      * rewrite length_map, (length_join_same (nrows df)), length_map; [done|].
        apply Forall_forall. intros l Hl. apply list_elem_of_fmap in Hl as (p & -> & Hp).
        rewrite Forall_forall in Hvc. by apply Hvc.
Qed.

Lemma elem_of_setitem name s df p :
  p ∈ setitem name s df → p ∈ df ∨ p = (name, s).
Proof.
  induction df as [|[m t] df IH]; simpl.
  - intros Hp. apply elem_of_cons in Hp as [->|Hp]; [by right|by apply elem_of_nil in Hp].
  - case_bool_decide as E; intros Hp; apply elem_of_cons in Hp as [->|Hp].
    + subst. by right.
    + left. apply elem_of_cons. by right.
    + left. apply elem_of_cons. by left.
    + destruct (IH Hp) as [?| ->]; [left; apply elem_of_cons; by right|by right].
Qed.

Lemma aligned_setitem name s df :
  aligned df → df ≠ [] → length (vals s) = nrows df →
  aligned (setitem name s df) ∧ nrows (setitem name s df) = nrows df.
Proof.
  intros Hal Hne Hlen.
  assert (nrows (setitem name s df) = nrows df) as Hn.
  { destruct df as [|[m t] df]; [done|]. simpl. by case_bool_decide. }
  split; [|done]. unfold aligned. rewrite Hn. apply Forall_forall. intros p Hp.
  apply elem_of_setitem in Hp as [Hp| ->]; [|done].
  unfold aligned in Hal. rewrite Forall_forall in Hal. by apply Hal.
Qed.

(** The matrix that [cluster_data] hands to [KMeans] has one row per row of
    the frame, when the frame has a numeric column. *)
Lemma clustered_matrix_rows (frame : DataFrame) :
  aligned frame →
  length (clustered_matrix frame)
  = if decide (select_dtypes_number frame = []) then 0 else nrows frame.
Proof.
  intros Hal. unfold clustered_matrix, to_matrix, rows.
  rewrite !length_map, length_seq. unfold scaler. cbn [fst].
  destruct (select_dtypes_number frame) as [|[n s] num] eqn:E; [done|].
  rewrite decide_False by done. simpl. rewrite !length_map.
  assert ((n, s) ∈ frame) as Hin.
  { assert ((n, s) ∈ select_dtypes_number frame) as Hs
      by (rewrite E; apply elem_of_cons; by left).
    unfold select_dtypes_number in Hs. by apply list_elem_of_filter in Hs as [_ ?]. }
  unfold aligned in Hal. rewrite Forall_forall in Hal. by apply (Hal _ Hin).
Qed.

(** X22.  When [cluster_data] returns for a frame whose columns have one
    cell per row, the frame it returns is again such a frame, with the rows
    and the columns of the input and the [Cluster] column with one label
    per row; the input then has at least one numeric column.  (The scaler
    is the one that the specification describes.) *)
Theorem cluster_data_aligned (w : world) (df : ref) (frame : DataFrame)
    (n_clusters : Z) (r : ref) (normalized : DataFrame) :
  heap w !! df = Some frame →
  aligned frame →
  (cluster_data df n_clusters w).1 = Ok (r, normalized) →
  ∃ labels,
    heap (cluster_data df n_clusters w).2 !! r
    = Some (setitem "Cluster" (cluster_column labels) frame)
    ∧ length labels = nrows frame
    ∧ aligned (setitem "Cluster" (cluster_column labels) frame)
    ∧ nrows (setitem "Cluster" (cluster_column labels) frame) = nrows frame
    ∧ select_dtypes_number frame ≠ [].
Proof.
  intros Hframe Hal. rewrite cluster_data_run.
  rewrite (lookup_total_correct _ _ _ Hframe).
  destruct (KMeans_fit _ _ _ _).1 as [labels|e] eqn:E; [|done].
  simpl. intros [= <- <-]. exists labels.
  split; [by rewrite lookup_insert_eq|].
  apply KMeans_fit_Ok in E as (_ & Hcheck & ->).
  pose proof (clustered_matrix_rows frame Hal) as Hrows.
  assert (select_dtypes_number frame ≠ []) as Hnum.
  { intros Hnil. rewrite decide_True in Hrows by done.
    unfold check_array in Hcheck. by rewrite bool_decide_eq_true_2 in Hcheck. }
  rewrite decide_False in Hrows by done.
  assert (length (map (nearest (kmeans_centers
            (check_random_state (Some 0%Z) (np_random w))
            (clustered_matrix frame) (Z.to_nat n_clusters)).1)
            (clustered_matrix frame)) = nrows frame) as Hlen
    by (by rewrite length_map).
  split; [done|].
  destruct (aligned_setitem "Cluster" (cluster_column (map (nearest (kmeans_centers
            (check_random_state (Some 0%Z) (np_random w))
            (clustered_matrix frame) (Z.to_nat n_clusters)).1)
            (clustered_matrix frame))) frame Hal) as [Ha Hn].
  - intros Hnil. rewrite Hnil in Hnum. done.
  - unfold cluster_column. simpl. by rewrite length_map.
  - done.
Qed.

Lemma map_nth_seq {A} (l : list A) (d : A) :
  map (λ i, nth i l d) (seq 0 (length l)) = l.
Proof.
  induction l as [|a l IH]; [done|]. cbn [length seq map nth]. f_equal.
  rewrite <-fmap_S_seq, <-list_fmap_compose. exact IH.
Qed.

Lemma argsort_Permutation (keys : list cell) : argsort keys ≡ₚ seq 0 (length keys).
Proof.
  unfold argsort. rewrite merge_sort_Permutation. rewrite snd_zip; [done|].
  by rewrite length_seq.
Qed.

(** What holds of every chart that [top_ten] builds holds of every chart that
    [visualize] draws. *)
Lemma visualize_figures_Forall (P : BarPlot → Prop) (w : world) (data_frame : ref)
    (indicators : list string) :
  (∀ frame indicator p, top_ten frame indicator = Ok p → P p) →
  ∃ figs, figures (visualize data_frame indicators w).2 = figures w ++ figs
          ∧ Forall P figs.
Proof.
  intros HP. revert w. induction indicators as [|indicator rest IH]; intros w.
  - exists []. simpl. by rewrite app_nil_r.
  - cbn [visualize].
    destruct (visualize_indicator_run w data_frame indicator) as (Hres & Hfig & _).
    destruct (visualize_indicator data_frame indicator w) as [[[]|e] w'] eqn:E;
      simpl in Hres, Hfig.
    + rewrite (run_bind_Ok _ _ _ _ _ E).
      destruct (top_ten (heap w !!! data_frame) indicator) as [p|e] eqn:Ep;
        [|discriminate Hres].
      destruct (IH w') as (figs & Hf & HPf).
      exists (p :: figs). rewrite Hf, Hfig, <-app_assoc. split; [done|].
      constructor; [by apply (HP _ _ _ Ep)|done].
    + rewrite (run_bind_Raise _ _ _ _ _ E).
      destruct (top_ten (heap w !!! data_frame) indicator) as [p|e'] eqn:Ep;
        [discriminate Hres|].
      exists []. simpl. split; [done|constructor].
Qed.

(** X23.  In every chart that [visualize] draws, the order of the bars
    handed to seaborn (line 99) lists the countries of the table that is
    plotted, each row once. *)
Theorem visualize_order_matches_data (w : world) (data_frame : ref)
    (indicators : list string) :
  ∃ figs,
    figures (visualize data_frame indicators w).2 = figures w ++ figs
    ∧ Forall (λ f, ∃ cn, lookup_col "Country Name" (bp_data f) = Some cn
                         ∧ bp_order f ≡ₚ vals cn) figs.
Proof.
  apply visualize_figures_Forall. intros frame indicator p Hp.
  apply top_ten_Ok in Hp
    as (year & column & rank & sorted & ordered & order
        & _ & _ & _ & Hsorted & Hordered & Horder & ->).
  simpl. apply sort_values_Ok in Hsorted as (rk0 & _ & ->).
  apply sort_values_Ok in Hordered as (rk & Hrk & ->).
  apply getitem_Ok in Horder. unfold take_rows at 1 in Horder.
  rewrite lookup_col_map_columns in Horder.
  destruct (lookup_col "Country Name" (head_rows 10 _)) as [cn|] eqn:Ecn; [|done].
  injection Horder as <-. exists cn. split; [done|]. simpl.
  assert (length (vals rk) = length (vals cn)) as Hlen.
  { unfold head_rows, take_rows in Hrk, Ecn. rewrite !lookup_col_map_columns in Hrk, Ecn.
    destruct (lookup_col "Rank" _) as [a|]; [|done].
    destruct (lookup_col "Country Name" _) as [b|]; [|done].
    injection Hrk as <-. injection Ecn as <-. simpl.
    by rewrite !length_take, !length_map. }
  rewrite argsort_Permutation, Hlen. by rewrite map_nth_seq.
Qed.

End shapes.

(** ** The further properties on the sample inputs *)

Section more_samples.
Local Existing Instance decimal_builtins.

Lemma fill_missing_complete_witness :
  ∃ s', lookup_col "1980" (fill_missing gappy_frame) = Some s'
        ∧ Forall (λ c, is_missing c = false
                       ∧ c ∈ [Str ".."; Str "3.5"; Num nan; Str ".."]) (vals s').
Proof.
  destruct (fill_missing_complete gappy_frame "1980"
              (mkSeries object [Str ".."; Str "3.5"; Num nan; Str ".."]) eq_refl)
    as (s' & Hs' & _ & Hfull & _).
  exists s'. split; [exact Hs'|]. apply Hfull. exists (Str "3.5"). split; [|reflexivity].
  apply elem_of_cons. right. apply elem_of_cons. by left.
Defined.

Lemma read_data_columns_witness :
  ∃ df, Ok wdi_csv = Ok df
        ∧ labels clean_table = filter (λ n, n ∉ code_columns) (labels df).
Proof.
  apply (read_data_columns (Ok wdi_csv) clean_table clean_wide).
  vm_compute. reflexivity.
Defined.

Lemma read_data_year_columns_witness :
  ∃ df, Ok wdi_csv = Ok df
        ∧ (∀ y, y ∈ year_columns →
             ∃ s0 xs, lookup_col y (kept_rows df) = Some s0
                      ∧ lookup_col y clean_table = Some (mkSeries float64 (map Num xs))
                      ∧ Forall2 (λ c x, to_float c = Ok (Num x)) (vals s0) xs)
        ∧ (∀ n, n ∉ year_columns → n ∉ code_columns →
             lookup_col n clean_table = lookup_col n (kept_rows df)).
Proof.
  apply (read_data_year_columns (Ok wdi_csv) clean_table clean_wide).
  vm_compute. reflexivity.
Defined.

Lemma read_data_row_cap_witness :
  ∃ df s0, Ok wdi_csv = Ok df
           ∧ lookup_col "1980" df = Some s0
           ∧ length (vals (fcol [2.5; 2.5; 3; 3]%float)) ≤ length (vals s0)
           ∧ length (vals (fcol [2.5; 2.5; 3; 3]%float)) ≤ 1519.
Proof.
  apply (read_data_row_cap (Ok wdi_csv) clean_table clean_wide "1980").
  - vm_compute. reflexivity.
  - vm_compute. reflexivity.
Defined.

Lemma read_data_no_sentinel_witness :
  Str ".." ∉ vals (fcol [2.5; 2.5; 3; 3]%float).
Proof.
  apply (read_data_no_sentinel (Ok wdi_csv) clean_table clean_wide "1980").
  - vm_compute. reflexivity.
  - vm_compute. reflexivity.
Defined.

(** The conversion of an integer cell at the ends of the int64 range. *)
Example to_float_int64_bounds :
  to_float (Int (- 2 ^ 63)) = Ok (Num (-0x1p+63)%float)
  ∧ to_float (Int (2 ^ 63 - 1)) = Ok (Num 0x1p+63%float)
  ∧ to_float (Int (2 ^ 53 + 1)) = Ok (Num 0x1p+53%float).
Proof. repeat split; vm_compute; reflexivity. Qed.

Lemma wide_columns_sorted_witness :
  ∃ names, labels clean_wide = "Year" :: "Country Name" :: names
           ∧ StronglySorted str_le names
           ∧ NoDup names
           ∧ ("Year" ∉ names) ∧ ("Country Name" ∉ names).
Proof.
  apply (wide_columns_sorted (Ok wdi_csv) clean_table clean_wide).
  - vm_compute. reflexivity.
  - apply (bool_decide_unpack _). vm_compute. exact I.
Defined.

Lemma wide_rows_sorted_witness :
  ∃ idx, lookup_col "Year" clean_wide = Some (mkSeries object (map (λ i, Str i.1) idx))
         ∧ lookup_col "Country Name" clean_wide
           = Some (mkSeries object (map (λ i, Str i.2) idx))
         ∧ StronglySorted index_le idx
         ∧ NoDup idx
         ∧ nrows clean_wide = length idx
         ∧ aligned clean_wide.
Proof.
  apply (wide_rows_sorted (Ok wdi_csv) clean_table clean_wide).
  - vm_compute. reflexivity.
  - apply (bool_decide_unpack _). vm_compute. exact I.
Defined.

Lemma wide_keys_from_input_witness :
  ∃ years countries sn cn,
    lookup_col "Year" clean_wide = Some years
    ∧ lookup_col "Country Name" clean_wide = Some countries
    ∧ lookup_col "Series Name" clean_table = Some sn
    ∧ lookup_col "Country Name" clean_table = Some cn
    ∧ (∀ c, c ∈ vals years →
         ∃ y, c = Str y ∧ y ∈ labels clean_table ∧ y ∉ name_columns)
    ∧ (∀ c, c ∈ vals countries → c ∈ vals cn)
    ∧ (∀ n, n ∈ drop 2 (labels clean_wide) → Str n ∈ vals sn).
Proof.
  apply (wide_keys_from_input (Ok wdi_csv) clean_table clean_wide).
  - vm_compute. reflexivity.
  - apply (bool_decide_unpack _). vm_compute. exact I.
Defined.

Lemma aligned_indicators_frame : aligned indicators_frame.
Proof. repeat constructor. Defined.

Lemma visualize_top_ten_witness :
  ∃ figs,
    figures (visualize 1%positive ["CO2 (kt)"; "GDP"] session).2 = figures session ++ figs
    ∧ Forall (λ f, Forall (λ c, length (vals c.2) ≤ 10) (bp_data f)
                   ∧ length (bp_order f) ≤ 10
                   ∧ ∃ s, lookup_col "Year" (bp_data f) = Some s
                          ∧ Forall (λ c, c = Str "2020") (vals s)) figs.
Proof.
  apply (visualize_top_ten session 1%positive indicators_frame ["CO2 (kt)"; "GDP"]).
  - vm_compute. reflexivity.
  - exact aligned_indicators_frame.
Defined.

Lemma visualize_missing_column_witness :
  (visualize 1%positive ["Population"; "GDP"] session).1
  = Raise (KeyError (if decide ("Year" ∈ labels indicators_frame)
                     then "Population" else "Year"))
  ∧ figures (visualize 1%positive ["Population"; "GDP"] session).2 = figures session.
Proof.
  apply (visualize_missing_column session 1%positive indicators_frame "Population" ["GDP"]).
  - vm_compute. reflexivity.
  - right. apply (bool_decide_unpack _). vm_compute. exact I.
Defined.


Lemma drop_duplicates_rows_witness :
  sublist (rows (drop_duplicates duplicated_rows_frame)) (rows duplicated_rows_frame)
  ∧ (∀ i j r1 r2, i < j →
       rows (drop_duplicates duplicated_rows_frame) !! i = Some r1 →
       rows (drop_duplicates duplicated_rows_frame) !! j = Some r2 →
       row_eqb r2 r1 = false)
  ∧ head (rows (drop_duplicates duplicated_rows_frame)) = head (rows duplicated_rows_frame)
  ∧ aligned (drop_duplicates duplicated_rows_frame).
Proof.
  apply (drop_duplicates_rows duplicated_rows_frame). repeat constructor.
Defined.

Example drop_duplicates_sample :
  rows (drop_duplicates duplicated_rows_frame)
  = [[Str "Aruba"; Num 1%float]; [Str "Benin"; Num 2%float]].
Proof. vm_compute. reflexivity. Qed.

Lemma aligned_clean_table : aligned clean_table.
Proof. repeat constructor. Defined.

Lemma melt_shape_witness :
  labels clean_long = ["Series Name"; "Country Name"] ++ ["Year"; "Value"]
  ∧ Forall (λ p, length (vals p.2)
                 = nrows clean_table
                   * length (filter (λ q : string * Series,
                                       q.1 ∉ ["Series Name"; "Country Name"])
                               clean_table)) clean_long.
Proof.
  apply (melt_shape ["Series Name"; "Country Name"] "Year" "Value" clean_table clean_long).
  - vm_compute. reflexivity.
  - exact aligned_clean_table.
Defined.

Lemma cluster_data_aligned_witness :
  ∃ labels,
    heap (cluster_data 1%positive 2 session).2 !! 2%positive
    = Some (setitem "Cluster" (cluster_column labels) indicators_frame)
    ∧ length labels = nrows indicators_frame
    ∧ aligned (setitem "Cluster" (cluster_column labels) indicators_frame)
    ∧ nrows (setitem "Cluster" (cluster_column labels) indicators_frame)
      = nrows indicators_frame
    ∧ select_dtypes_number indicators_frame ≠ [].
Proof.
  eapply (cluster_data_aligned session 1%positive indicators_frame 2 2%positive).
  - vm_compute. reflexivity.
  - exact aligned_indicators_frame.
  - vm_compute. reflexivity.
Defined.

Lemma labels_wdi_csv :
  Forall (λ n, n ∈ labels wdi_csv) (code_columns ++ year_columns ++ name_columns).
Proof. apply (bool_decide_unpack _). vm_compute. exact I. Defined.

Lemma read_data_conversion_error_witness :
  ∃ e', read_data (Ok csv_unfilled_1980) = Raise e'
        ∧ (exn_class e' = "ValueError" ∨ exn_class e' = "TypeError").
Proof.
  apply (read_data_conversion_error csv_unfilled_1980 "1980"
           (mkSeries object [NA; NA; NA; NA]) NA (TypeError "NAType")).
  - apply (bool_decide_unpack _). vm_compute. exact I.
  - apply elem_of_cons. by left.
  - vm_compute. reflexivity.
  - apply elem_of_cons. by left.
  - reflexivity.
Defined.

Example unfilled_year_column :
  read_data (Ok csv_unfilled_1980) = Raise (TypeError "NAType").
Proof. vm_compute. reflexivity. Qed.

Lemma read_data_returns_witness :
  ∃ wdi_data wide, read_data (Ok wdi_csv) = Ok (wdi_data, wide).
Proof.
  apply (read_data_returns wdi_csv).
  - exact labels_wdi_csv.
  - apply (bool_decide_unpack _). vm_compute. exact I.
  - intros y s c Hy Hs Hc. unfold year_columns in Hy.
    repeat (apply elem_of_cons in Hy as [->|Hy];
            [vm_compute in Hs; injection Hs as <-; simpl in Hc;
             repeat (apply elem_of_cons in Hc as [->|Hc];
                     [eexists; vm_compute; reflexivity|]);
             by apply elem_of_nil in Hc|]).
    by apply elem_of_nil in Hy.
  - intros sn Hsn. vm_compute in Hsn. injection Hsn as <-. simpl.
    split; intros Hin;
      repeat (apply elem_of_cons in Hin as [Hin|Hin]; [discriminate Hin|]);
      by apply elem_of_nil in Hin.
Defined.

Local Existing Instance line_optimizers.
Local Existing Instance line_jacobian.

Lemma ols_results_independent_of_model_witness :
  ∃ r r',
    fit_model_with_errors sample_years sample_emissions linear_function None default_alpha
      = Ok r
    ∧ fit_model_with_errors sample_years sample_emissions (λ x _, Ok x)
        (Some [1; 0]%float) default_alpha = Ok r'
    ∧ predictions_curve_fit r ≠ predictions_curve_fit r'
    ∧ predictions_ols r = predictions_ols r'
    ∧ lowerbound_ols r = lowerbound_ols r'
    ∧ upperbound_ols r = upperbound_ols r'.
Proof.
  eexists _, _. split; [vm_compute; reflexivity|]. split; [vm_compute; reflexivity|].
  split; [vm_compute; discriminate|].
  match goal with
  | |- predictions_ols ?r = predictions_ols ?r' ∧ _ =>
      apply (ols_results_independent_of_model sample_years sample_emissions
               linear_function (λ x _, Ok x) None (Some [1; 0]%float) default_alpha r r')
  end.
  - vm_compute. reflexivity.
  - vm_compute. reflexivity.
Defined.

Lemma linear_function_fit_witness :
  ∃ r a b,
    fit_model_with_errors sample_years sample_emissions linear_function None default_alpha
      = Ok r
    ∧ popt r = [a; b]
    ∧ predictions_curve_fit r
      = map (λ xi, PrimFloat.add (PrimFloat.mul a xi) b) sample_years
    ∧ length (lowerbound_curve_fit r) = length sample_years
    ∧ length (upperbound_curve_fit r) = length sample_years.
Proof.
  assert (∃ r, fit_model_with_errors sample_years sample_emissions linear_function None
                 default_alpha = Ok r) as [r Hr]
    by (eexists; vm_compute; reflexivity).
  assert (∃ params cov, curve_fit linear_function sample_years sample_emissions None
                        = Ok (params, cov)) as (params & cov & Hcf)
    by (eexists _, _; vm_compute; reflexivity).
  destruct (linear_function_fit sample_years sample_emissions None default_alpha
              params cov Hcf) as [_ Hfit].
  destruct (Hfit r Hr) as (a & b & Hpopt & Hpred & Hlo & Hhi).
  by exists r, a, b.
Defined.

End more_samples.
